(** * Timeglass Foods: recipe scanning and registry sync

    A shallow embedding of [tfoods_dump_recipe_json.py] and the properties
    its specification states about it.

    Conventions of the embedding.
    - A Python [str] is the list of its code points ([pystr]); literals are
      written [py "item:"].
    - A value produced by [json.loads] is a [pyval]; a [dict] is the list of
      its entries in insertion order, looked up by the first matching key.
    - An operation that Python resolves at run time ([x in v], [v.get(k)],
      [v.startswith(p)], [v[k]], ...) is a function into [exc], which raises
      the exception Python raises when the receiver has the wrong type.
    - A [Set[str]] is a [gset pystr], a [Dict[str, _]] that is only read and
      written by key is a [gmap pystr _]: equality of such maps is Python's
      [==] on dicts, which ignores insertion order.
    - Console output ([print]) is not modelled; persistence effects are
      recorded as a trace of events.
    - Creating a directory and writing a file fail as the file system and
      the encoder make them fail: on a path that is, or lies under, a
      regular file; on a target that is a directory; on a string with a
      surrogate code point, which UTF-8 does not encode.
    - The extractors, which recurse over a nested document, are given
      twice: as the source defines them ([from_result_obj], ...), and run
      with a number of stack frames left ([from_result_obj_frames], ...),
      where a call of a Python function with no frame left raises
      [RecursionError].  Frames are those of functions defined in Python;
      an interpreter that also counts the built-ins it is running reaches
      the limit a few frames earlier.  With enough frames the two agree
      (lemmas [extract_outputs_frames_enough] and
      [extract_direct_ingredient_tokens_frames_enough]); the direct map
      and the run are built on the former. *)

From Stdlib Require Import Floats Ascii String.
From stdpp Require Import gmap strings list fin_maps sorting.

Set Default Proof Using "Type".
Set Warnings "-clear-no-such-hyp".

(* ------------------------------------------------------------------ *)
(** ** Python strings *)
(* ------------------------------------------------------------------ *)

Definition pystr := list N.

Definition py (s : string) : pystr :=
  N_of_ascii <$> String.list_ascii_of_string s.

(** [str.isspace] for one code point (CPython's [_PyUnicode_IsWhitespace]). *)
Definition is_space (c : N) : bool :=
  ((9 <=? c) && (c <=? 13))%N || ((28 <=? c) && (c <=? 32))%N
  || (c =? 133)%N || (c =? 160)%N || (c =? 5760)%N
  || ((8192 <=? c) && (c <=? 8202))%N
  || (c =? 8232)%N || (c =? 8233)%N || (c =? 8239)%N
  || (c =? 8287)%N || (c =? 12288)%N.

Fixpoint str_lstrip (s : pystr) : pystr :=
  match s with
  | c :: s' => if is_space c then str_lstrip s' else s
  | [] => []
  end.

Definition str_rstrip (s : pystr) : pystr :=
  reverse (str_lstrip (reverse s)).

(** [s.strip()] *)
Definition str_strip (s : pystr) : pystr := str_rstrip (str_lstrip s).

(** [s.startswith(p)] *)
Fixpoint str_startswith (s p : pystr) {struct p} : bool :=
  match p, s with
  | [], _ => true
  | c :: p', d :: s' => (c =? d)%N && str_startswith s' p'
  | _ :: _, [] => false
  end.

(** [sub in s] for two strings: [sub] occurs in [s] as a substring. *)
Fixpoint str_contains (sub s : pystr) : bool :=
  str_startswith s sub ||
  match s with
  | [] => false
  | _ :: s' => str_contains sub s'
  end.

(** [s[1:]] *)
Definition str_slice1 (s : pystr) : pystr := tail s.

(** [a <= b] on strings: lexicographic on code points. *)
Fixpoint str_leb (a b : pystr) : bool :=
  match a, b with
  | [], _ => true
  | _ :: _, [] => false
  | c :: a', d :: b' => (c <? d)%N || ((c =? d)%N && str_leb a' b')
  end.

(** [sorted(xs)] for a collection of strings. *)
Definition sorted (xs : list pystr) : list pystr :=
  merge_sort (λ a b, Is_true (str_leb a b)) xs.

(* ------------------------------------------------------------------ *)
(** ** Python values, exceptions *)
(* ------------------------------------------------------------------ *)

#[warnings="-register-all"]
Inductive pyval :=
| PNone
| PBool (b : bool)
| PInt (z : Z)
| PFloat (f : float)
| PStr (s : pystr)
| PList (l : list pyval)
| PDict (d : list (pystr * pyval)).

(** A [pathlib.Path], as the list of its components. *)
Definition path := list pystr.

(** The messages [ValueError] is raised with: the two of
    [load_edible_items], and the one of [Path.with_suffix] for a path
    without a name. *)
Inductive value_error_msg :=
| EdiblesMustBeObject (p : path)
| EdiblesMissingItemsList (p : path)
| EmptyName (p : path).

Inductive pyexn :=
| TypeError
| AttributeError
| KeyError (k : pystr)
| ValueError (msg : value_error_msg)
| FileNotFoundError (p : path)
| JSONDecodeError (p : path)
| FileExistsError (p : path)
| NotADirectoryError (p : path)
| IsADirectoryError (p : path)
| UnicodeEncodeError
| RecursionError.

Inductive exc (A : Type) :=
| Ok (a : A)
| Raise (e : pyexn).
Arguments Ok {A} a.
Arguments Raise {A} e.

#[global] Instance exc_ret : MRet exc := λ A a, Ok a.
#[global] Instance exc_bind : MBind exc := λ A B f m,
  match m with
  | Ok a => f a
  | Raise e => Raise e
  end.

#[global] Instance exc_fmap : FMap exc := λ A B f m,
  match m with
  | Ok a => Ok (f a)
  | Raise e => Raise e
  end.

(** A [for] loop whose body may raise, threading the loop state. *)
Definition for_each {A S : Type} (body : S → A → exc S) : list A → S → exc S :=
  fix go (l : list A) (s : S) : exc S :=
    match l with
    | [] => Ok s
    | x :: l' => s' ← body s x; go l' s'
    end.

(** [a and b], [a or b] on booleans, the right operand evaluated lazily. *)
Definition and_then (a : bool) (b : exc bool) : exc bool :=
  if a then b else Ok false.
Definition or_else (a : bool) (b : exc bool) : exc bool :=
  if a then Ok true else b.

Definition isinstance_str (v : pyval) : bool :=
  match v with PStr _ => true | _ => false end.
Definition isinstance_list (v : pyval) : bool :=
  match v with PList _ => true | _ => false end.
Definition isinstance_dict (v : pyval) : bool :=
  match v with PDict _ => true | _ => false end.
Definition is_None (v : pyval) : bool :=
  match v with PNone => true | _ => false end.

(** Truth value of a Python object ([bool(v)]). *)
Definition truthy (v : pyval) : bool :=
  match v with
  | PNone => false
  | PBool b => b
  | PInt z => negb (z =? 0)%Z
  | PFloat f => negb (PrimFloat.eqb f 0%float)
  | PStr s => match s with [] => false | _ => true end
  | PList l => match l with [] => false | _ => true end
  | PDict d => match d with [] => false | _ => true end
  end.

(** [d.get(k)] on the entries of a dict: the value, or [None]. *)
Fixpoint dict_get (d : list (pystr * pyval)) (k : pystr) : pyval :=
  match d with
  | [] => PNone
  | (k', v) :: d' => if decide (k' = k) then v else dict_get d' k
  end.

(** [k in d] on the entries of a dict. *)
Fixpoint dict_has (d : list (pystr * pyval)) (k : pystr) : bool :=
  match d with
  | [] => false
  | (k', _) :: d' => if decide (k' = k) then true else dict_has d' k
  end.

(** [v.get(k)]: only a dict has the method. *)
Definition py_get (v : pyval) (k : pystr) : exc pyval :=
  match v with
  | PDict d => Ok (dict_get d k)
  | _ => Raise AttributeError
  end.

(** [v[k]] with a string subscript. *)
Definition py_getitem (v : pyval) (k : pystr) : exc pyval :=
  match v with
  | PDict d => if dict_has d k then Ok (dict_get d k) else Raise (KeyError k)
  | _ => Raise TypeError
  end.

(** [k in v] with a string on the left. *)
Definition py_in (k : pystr) (v : pyval) : exc bool :=
  match v with
  | PStr s => Ok (str_contains k s)
  | PList l =>
      Ok (existsb (λ x, match x with
                        | PStr s => bool_decide (s = k)
                        | _ => false
                        end) l)
  | PDict d => Ok (dict_has d k)
  | _ => Raise TypeError
  end.

(** [v.startswith(p)] *)
Definition py_startswith (v : pyval) (p : pystr) : exc bool :=
  match v with
  | PStr s => Ok (str_startswith s p)
  | _ => Raise AttributeError
  end.

(** [v.startswith((p1, p2, ...))] *)
Definition py_startswith_any (v : pyval) (ps : list pystr) : exc bool :=
  match v with
  | PStr s => Ok (existsb (str_startswith s) ps)
  | _ => Raise AttributeError
  end.

(** [v.strip()] *)
Definition py_strip (v : pyval) : exc pyval :=
  match v with
  | PStr s => Ok (PStr (str_strip s))
  | _ => Raise AttributeError
  end.

(** [v[1:]] *)
Definition py_slice1 (v : pyval) : exc pyval :=
  match v with
  | PStr s => Ok (PStr (str_slice1 s))
  | PList l => Ok (PList (tail l))
  | _ => Raise TypeError
  end.

(** [v.values()] *)
Definition py_values (v : pyval) : exc (list pyval) :=
  match v with
  | PDict d => Ok (snd <$> d)
  | _ => Raise AttributeError
  end.

(** The elements [for x in v] visits. *)
Definition py_iter (v : pyval) : exc (list pyval) :=
  match v with
  | PList l => Ok l
  | PStr s => Ok ((λ c, PStr [c]) <$> s)
  | PDict d => Ok ((λ kv, PStr kv.1) <$> d)
  | _ => Raise TypeError
  end.

(** [any(f(x) for x in l)], stopping at the first hit. *)
Definition py_any (f : pyval → exc bool) : list pyval → exc bool :=
  fix go (l : list pyval) : exc bool :=
    match l with
    | [] => Ok false
    | x :: l' => b ← f x; if b : bool then Ok true else go l'
    end.

(** Run [present] on the value stored under [k], or yield [absent]:
    the shape [if k in d: ... d[k] ...] with the lookup fused into the
    traversal of the entries. *)
Definition dict_find {A : Type} (k : pystr) (absent : A) (present : pyval → A)
    : list (pystr * pyval) → A :=
  fix go (d : list (pystr * pyval)) : A :=
    match d with
    | [] => absent
    | (k', v) :: d' => if decide (k' = k) then present v else go d'
    end.

(** [f"{prefix}{v}"] for a string [v]; the containers this program fills
    are annotated [Set[str]] and [List[str]], so anything else reaching
    them is a type error of the model. *)
Definition as_str (v : pyval) : exc pystr :=
  match v with
  | PStr s => Ok s
  | _ => Raise TypeError
  end.

(* ------------------------------------------------------------------ *)
(** ** Token canonicalizer (source lines 666-699) *)
(* ------------------------------------------------------------------ *)

(** The prefixes of the three canonical forms. *)
Definition canonical_prefixes : list pystr :=
  [py "item:"; py "tag:"; py "fluid:"].

Definition canonicalize_token (token : pyval) : exc pyval :=
  if negb (isinstance_str token) then Ok token else
  t ← py_strip token;
  (* Already canonical *)
  c ← py_startswith_any t canonical_prefixes;
  if c : bool then Ok t else
  (* Raw item id -> item: *)
  has_colon ← py_in (py ":") t;
  raw_item ← and_then has_colon (negb <$> py_startswith t (py "#"));
  if raw_item : bool then s ← as_str t; Ok (PStr (py "item:" ++ s)) else
  (* Raw tag reference -> tag: *)
  h ← py_startswith t (py "#");
  tagged ← and_then h (t1 ← py_slice1 t; py_in (py ":") t1);
  if tagged : bool then t1 ← py_slice1 t; s ← as_str t1; Ok (PStr (py "tag:" ++ s))
  else Ok t.

(** The string [canonicalize_token] returns for a [str] argument, read off
    the same four cases (lemma [canonicalize_token_str]). *)
Definition canonicalize_str (token : pystr) : pystr :=
  let t := str_strip token in
  if existsb (str_startswith t) canonical_prefixes then t
  else if str_contains (py ":") t && negb (str_startswith t (py "#"))
  then py "item:" ++ t
  else if str_startswith t (py "#") && str_contains (py ":") (str_slice1 t)
  then py "tag:" ++ str_slice1 t
  else t.

(** The shapes the canonicalizer recognizes, tested on a string as given:
    already canonical; a raw item id; a raw tag reference. *)
Definition recognized (s : pystr) : bool :=
  existsb (str_startswith s) canonical_prefixes
  || (str_contains (py ":") s && negb (str_startswith s (py "#")))
  || (str_startswith s (py "#") && str_contains (py ":") (str_slice1 s)).

(* ------------------------------------------------------------------ *)
(** ** Output extractor (source lines 408-495) *)
(* ------------------------------------------------------------------ *)

(** [is_item_id] (lines 427-428 and 522-523). *)
Definition is_item_id (s : pyval) : exc bool :=
  and_then (isinstance_str s)
    (c ← py_in (py ":") s;
     and_then c (negb <$> py_startswith s (py "#"))).

(** The value of [is_item_id], as a test on the shape of [s]
    (lemma [is_item_id_eq]). *)
Definition item_idb (s : pyval) : bool :=
  match s with
  | PStr s => str_contains (py ":") s && negb (str_startswith s (py "#"))
  | _ => false
  end.

(** The computation returns a value: it does not raise. *)
Definition succeeds {A : Type} (m : exc A) : Prop := ∃ a, m = Ok a.

(** [out.add(v)] on a [Set[str]]. *)
Definition set_add (out : gset pystr) (v : pyval) : exc (gset pystr) :=
  s ← as_str v; Ok (out ∪ {[s]}).

(** ["item" in x or "id" in x or "name" in x] *)
Definition has_item_field (x : pyval) : exc bool :=
  a ← py_in (py "item") x;
  b ← or_else a (py_in (py "id") x);
  or_else b (py_in (py "name") x).

Fixpoint from_result_obj (obj : pyval) : exc (gset pystr) :=
  let out : gset pystr := ∅ in
  if is_None obj then Ok out else
  (* result: "mod:item" *)
  b ← is_item_id obj;
  if b : bool then set_add out obj else
  match obj with
  | PList l =>
      (* result: [{"item": "a"}, {"item": "b"}] *)
      for_each (λ out el, r ← from_result_obj el; Ok (out ∪ r)) l out
  | PDict d =>
      (* result: {"item": "mod:item", "count": N} *)
      item ← py_get obj (py "item");
      b ← is_item_id item;
      out ← (if b : bool then set_add out item else Ok out);
      out ← for_each (λ out k,
                 v ← py_get obj k;
                 b ← is_item_id v;
                 if b : bool then set_add out v else Ok out)
               [py "id"; py "name"] out;
      (* for v in obj.values() *)
      for_each (λ out '(_, v),
          if isinstance_dict v || isinstance_list v || isinstance_str v then
            c ← and_then (isinstance_dict v) (has_item_field v);
            if c : bool then r ← from_result_obj v; Ok (out ∪ r)
            else if isinstance_list v then
              xs ← py_iter v;
              a ← py_any (λ x, and_then (isinstance_dict x) (has_item_field x)) xs;
              if a : bool then r ← from_result_obj v; Ok (out ∪ r) else Ok out
            else Ok out
          else Ok out) d out
  | _ => Ok out
  end.

Definition extract_outputs (recipe : pyval) : exc (gset pystr) :=
  let outputs : gset pystr := ∅ in
  if negb (isinstance_dict recipe) then Ok outputs else
  (* Vanilla + most modded *)
  h ← py_in (py "result") recipe;
  outputs ← (if h : bool
             then v ← py_get recipe (py "result");
                  r ← from_result_obj v; Ok (outputs ∪ r)
             else Ok outputs);
  (* Common modded multi-output conventions *)
  h ← py_in (py "results") recipe;
  outputs ← (if h : bool
             then v ← py_get recipe (py "results");
                  r ← from_result_obj v; Ok (outputs ∪ r)
             else Ok outputs);
  if bool_decide (outputs = ∅) then
    (* Some mods use "output"/"outputs" *)
    h ← py_in (py "output") recipe;
    outputs ← (if h : bool
               then v ← py_get recipe (py "output");
                    r ← from_result_obj v; Ok (outputs ∪ r)
               else Ok outputs);
    h ← py_in (py "outputs") recipe;
    (if h : bool
     then v ← py_get recipe (py "outputs");
          r ← from_result_obj v; Ok (outputs ∪ r)
     else Ok outputs)
  else Ok outputs.

(* ------------------------------------------------------------------ *)
(** ** Ingredient extractor (source lines 498-664) *)
(* ------------------------------------------------------------------ *)

(** [is_tag_id] (lines 525-526): the same test as [is_item_id]. *)
Definition is_tag_id (s : pyval) : exc bool :=
  and_then (isinstance_str s)
    (c ← py_in (py ":") s;
     and_then c (negb <$> py_startswith s (py "#"))).

(** [tag_from_hash]: ["#forge:dough"] gives ["forge:dough"], else [None]. *)
Definition tag_from_hash (s : pyval) : exc pyval :=
  c ← and_then (isinstance_str s)
        (h ← py_startswith s (py "#");
         and_then h (t ← py_slice1 s; py_in (py ":") t));
  if c : bool then py_slice1 s else Ok PNone.

Definition token_from_item_id (item_id : pyval) : exc pystr :=
  s ← as_str item_id; Ok (py "item:" ++ s).

Definition token_from_tag_id (tag_id : pyval) : exc pystr :=
  s ← as_str tag_id; Ok (py "tag:" ++ s).

Definition token_from_fluid_id (fluid_id : pyval) : exc pystr :=
  s ← as_str fluid_id; Ok (py "fluid:" ++ s).

(** [out.append(tok)] *)
Definition append (out : list pystr) (tok : pystr) : list pystr := out ++ [tok].

(** The list [out] is the accumulator the source mutates; the updated list
    is returned. *)
Fixpoint collect_from_ingredient_obj (obj : pyval) (out : list pystr)
    : exc (list pystr) :=
  if is_None obj then Ok out else
  (* String: item id or #tag *)
  if isinstance_str obj then
    t ← tag_from_hash obj;
    if truthy t then tok ← token_from_tag_id t; Ok (append out tok)
    else
      b ← is_item_id obj;
      if b : bool then tok ← token_from_item_id obj; Ok (append out tok)
      else Ok out
  else
  match obj with
  | PList l =>
      (* List: treat as OR of ingredient entries *)
      for_each (λ out el, collect_from_ingredient_obj el out) l out
  | PDict d =>
      (* Standard {"item": "..."} / {"tag": "..."} *)
      c ← (h ← py_in (py "item") obj;
           and_then h (v ← py_get obj (py "item"); is_item_id v));
      out ← (if c : bool
             then v ← py_getitem obj (py "item");
                  tok ← token_from_item_id v; Ok (append out tok)
             else Ok out);
      c ← (h ← py_in (py "tag") obj;
           and_then h (v ← py_get obj (py "tag"); is_tag_id v));
      out ← (if c : bool
             then v ← py_getitem obj (py "tag");
                  tok ← token_from_tag_id v; Ok (append out tok)
             else Ok out);
      (* {"id": "..."} or {"name": "..."} *)
      out ← for_each (λ out k,
                 v ← py_get obj k;
                 b ← is_item_id v;
                 if b : bool then tok ← token_from_item_id v; Ok (append out tok)
                 else Ok out)
               [py "id"; py "name"] out;
      (* Rare: {"items": [ ... ]} as ingredient *)
      dict_find (py "items") (Ok out)
        (λ items,
           match items with
           | PList els =>
               for_each (λ out el, collect_from_ingredient_obj el out) els out
           | _ => Ok out
           end) d
  | _ => Ok out
  end.

Fixpoint collect_from_fluid_obj (obj : pyval) (out : list pystr)
    : exc (list pystr) :=
  if is_None obj then Ok out else
  if isinstance_str obj then
    b ← is_item_id obj;
    if b : bool then tok ← token_from_fluid_id obj; Ok (append out tok)
    else Ok out
  else
  match obj with
  | PList l =>
      for_each (λ out el, collect_from_fluid_obj el out) l out
  | PDict d =>
      v ← py_get obj (py "fluid");
      b ← is_item_id v;
      out ← (if b : bool then tok ← token_from_fluid_id v; Ok (append out tok)
             else Ok out);
      vs ← py_get obj (py "fluids");
      out ← (if isinstance_list vs
             then els ← py_iter vs;
                  for_each (λ out el,
                      b ← is_item_id el;
                      if b : bool
                      then tok ← token_from_fluid_id el; Ok (append out tok)
                      else Ok out) els out
             else Ok out);
      (* fluid tags are kept as tag:... *)
      ft ← (a ← py_get obj (py "fluidTag");
            if truthy a then Ok a else py_get obj (py "tag"));
      b ← is_tag_id ft;
      if b : bool then tok ← token_from_tag_id ft; Ok (append out tok)
      else Ok out
  | _ => Ok out
  end.

Definition extract_direct_ingredient_tokens (recipe : pyval)
    : exc (list pystr) :=
  let tokens : list pystr := [] in
  if negb (isinstance_dict recipe) then Ok tokens else
  (* Shaped recipes: pattern + key *)
  c ← (h ← py_in (py "pattern") recipe;
       and_then h (k ← py_get recipe (py "key"); Ok (isinstance_dict k)));
  tokens ← (if c : bool
            then key ← py_getitem recipe (py "key");
                 vals ← py_values key;
                 for_each (λ tokens ing, collect_from_ingredient_obj ing tokens)
                   vals tokens
            else Ok tokens);
  (* Shapeless recipes: ingredients list *)
  ings ← py_get recipe (py "ingredients");
  tokens ← (if isinstance_list ings
            then l ← py_getitem recipe (py "ingredients");
                 els ← py_iter l;
                 for_each (λ tokens ing, collect_from_ingredient_obj ing tokens)
                   els tokens
            else Ok tokens);
  (* Single ingredient recipes: ingredient object *)
  h ← py_in (py "ingredient") recipe;
  tokens ← (if h : bool
            then v ← py_get recipe (py "ingredient");
                 collect_from_ingredient_obj v tokens
            else Ok tokens);
  (* Modded variants: input / inputs *)
  h ← py_in (py "input") recipe;
  tokens ← (if h : bool
            then v ← py_get recipe (py "input");
                 tokens ← collect_from_ingredient_obj v tokens;
                 v ← py_get recipe (py "input");
                 collect_from_fluid_obj v tokens
            else Ok tokens);
  inputs ← py_get recipe (py "inputs");
  tokens ← (if isinstance_list inputs
            then l ← py_getitem recipe (py "inputs");
                 els ← py_iter l;
                 for_each (λ tokens ing,
                     tokens ← collect_from_ingredient_obj ing tokens;
                     collect_from_fluid_obj ing tokens) els tokens
            else Ok tokens);
  (* Modded fluid fields *)
  for_each (λ tokens k,
      h ← py_in k recipe;
      if h : bool
      then v ← py_get recipe k; collect_from_fluid_obj v tokens
      else Ok tokens)
    [py "fluid"; py "fluids"; py "fluidIngredient"; py "fluid_ingredient"]
    tokens.




(* ------------------------------------------------------------------ *)
(** ** The extractors on a bounded stack *)
(* ------------------------------------------------------------------ *)

(** A call of a function defined in Python (a [def], or the generator
    expression that [any] consumes) takes a stack frame, and raises
    [RecursionError] when none is left; built-ins and the methods of
    built-in types take none.  [frames] is the number of frames left.

    [call frames f x] is the call [f(x)] of a function that calls no
    Python function itself. *)
Definition call {A B : Type} (frames : nat) (f : A → exc B) (x : A) : exc B :=
  match frames with
  | 0 => Raise RecursionError
  | S _ => f x
  end.

(** [from_result_obj] (lines 430-473), called with [frames] frames left:
    one is taken by the call, the body runs with the rest. *)
Fixpoint from_result_obj_frames (frames : nat) (obj : pyval)
    : exc (gset pystr) :=
  match frames with
  | 0 => Raise RecursionError
  | S frames =>
      let out : gset pystr := ∅ in
      if is_None obj then Ok out else
      b ← call frames is_item_id obj;
      if b : bool then set_add out obj else
      match obj with
      | PList l =>
          for_each (λ out el, r ← from_result_obj_frames frames el; Ok (out ∪ r))
            l out
      | PDict d =>
          item ← py_get obj (py "item");
          b ← call frames is_item_id item;
          out ← (if b : bool then set_add out item else Ok out);
          out ← for_each (λ out k,
                     v ← py_get obj k;
                     b ← call frames is_item_id v;
                     if b : bool then set_add out v else Ok out)
                   [py "id"; py "name"] out;
          for_each (λ out '(_, v),
              if isinstance_dict v || isinstance_list v || isinstance_str v then
                c ← and_then (isinstance_dict v) (has_item_field v);
                if c : bool then r ← from_result_obj_frames frames v; Ok (out ∪ r)
                else if isinstance_list v then
                  xs ← py_iter v;
                  a ← call frames
                        (py_any (λ x, and_then (isinstance_dict x)
                                        (has_item_field x))) xs;
                  if a : bool then r ← from_result_obj_frames frames v; Ok (out ∪ r)
                  else Ok out
                else Ok out
              else Ok out) d out
      | _ => Ok out
      end
  end.

(** [extract_outputs] (lines 408-495), called with [frames] frames left. *)
Definition extract_outputs_frames (frames : nat) (recipe : pyval)
    : exc (gset pystr) :=
  match frames with
  | 0 => Raise RecursionError
  | S frames =>
      let outputs : gset pystr := ∅ in
      if negb (isinstance_dict recipe) then Ok outputs else
      h ← py_in (py "result") recipe;
      outputs ← (if h : bool
                 then v ← py_get recipe (py "result");
                      r ← from_result_obj_frames frames v; Ok (outputs ∪ r)
                 else Ok outputs);
      h ← py_in (py "results") recipe;
      outputs ← (if h : bool
                 then v ← py_get recipe (py "results");
                      r ← from_result_obj_frames frames v; Ok (outputs ∪ r)
                 else Ok outputs);
      if bool_decide (outputs = ∅) then
        h ← py_in (py "output") recipe;
        outputs ← (if h : bool
                   then v ← py_get recipe (py "output");
                        r ← from_result_obj_frames frames v; Ok (outputs ∪ r)
                   else Ok outputs);
        h ← py_in (py "outputs") recipe;
        (if h : bool
         then v ← py_get recipe (py "outputs");
              r ← from_result_obj_frames frames v; Ok (outputs ∪ r)
         else Ok outputs)
      else Ok outputs
  end.

(** [collect_from_ingredient_obj] (lines 543-591), called with [frames]
    frames left. *)
Fixpoint collect_from_ingredient_obj_frames (frames : nat) (obj : pyval)
    (out : list pystr) : exc (list pystr) :=
  match frames with
  | 0 => Raise RecursionError
  | S frames =>
      if is_None obj then Ok out else
      if isinstance_str obj then
        t ← call frames tag_from_hash obj;
        if truthy t
        then tok ← call frames token_from_tag_id t; Ok (append out tok)
        else
          b ← call frames is_item_id obj;
          if b : bool
          then tok ← call frames token_from_item_id obj; Ok (append out tok)
          else Ok out
      else
      match obj with
      | PList l =>
          for_each (λ out el, collect_from_ingredient_obj_frames frames el out)
            l out
      | PDict d =>
          c ← (h ← py_in (py "item") obj;
               and_then h (v ← py_get obj (py "item");
                           call frames is_item_id v));
          out ← (if c : bool
                 then v ← py_getitem obj (py "item");
                      tok ← call frames token_from_item_id v;
                      Ok (append out tok)
                 else Ok out);
          c ← (h ← py_in (py "tag") obj;
               and_then h (v ← py_get obj (py "tag");
                           call frames is_tag_id v));
          out ← (if c : bool
                 then v ← py_getitem obj (py "tag");
                      tok ← call frames token_from_tag_id v;
                      Ok (append out tok)
                 else Ok out);
          out ← for_each (λ out k,
                     v ← py_get obj k;
                     b ← call frames is_item_id v;
                     if b : bool
                     then tok ← call frames token_from_item_id v;
                          Ok (append out tok)
                     else Ok out)
                   [py "id"; py "name"] out;
          dict_find (py "items") (Ok out)
            (λ items,
               match items with
               | PList els =>
                   for_each (λ out el,
                       collect_from_ingredient_obj_frames frames el out)
                     els out
               | _ => Ok out
               end) d
      | _ => Ok out
      end
  end.

(** [collect_from_fluid_obj] (lines 593-628), called with [frames] frames
    left. *)
Fixpoint collect_from_fluid_obj_frames (frames : nat) (obj : pyval)
    (out : list pystr) : exc (list pystr) :=
  match frames with
  | 0 => Raise RecursionError
  | S frames =>
      if is_None obj then Ok out else
      if isinstance_str obj then
        b ← call frames is_item_id obj;
        if b : bool
        then tok ← call frames token_from_fluid_id obj; Ok (append out tok)
        else Ok out
      else
      match obj with
      | PList l =>
          for_each (λ out el, collect_from_fluid_obj_frames frames el out) l out
      | PDict d =>
          v ← py_get obj (py "fluid");
          b ← call frames is_item_id v;
          out ← (if b : bool
                 then tok ← call frames token_from_fluid_id v;
                      Ok (append out tok)
                 else Ok out);
          vs ← py_get obj (py "fluids");
          out ← (if isinstance_list vs
                 then els ← py_iter vs;
                      for_each (λ out el,
                          b ← call frames is_item_id el;
                          if b : bool
                          then tok ← call frames token_from_fluid_id el;
                               Ok (append out tok)
                          else Ok out) els out
                 else Ok out);
          ft ← (a ← py_get obj (py "fluidTag");
                if truthy a then Ok a else py_get obj (py "tag"));
          b ← call frames is_tag_id ft;
          if b : bool
          then tok ← call frames token_from_tag_id ft; Ok (append out tok)
          else Ok out
      | _ => Ok out
      end
  end.

(** [extract_direct_ingredient_tokens] (lines 498-664), called with
    [frames] frames left. *)
Definition extract_direct_ingredient_tokens_frames (frames : nat)
    (recipe : pyval) : exc (list pystr) :=
  match frames with
  | 0 => Raise RecursionError
  | S frames =>
      let tokens : list pystr := [] in
      if negb (isinstance_dict recipe) then Ok tokens else
      c ← (h ← py_in (py "pattern") recipe;
           and_then h (k ← py_get recipe (py "key"); Ok (isinstance_dict k)));
      tokens ← (if c : bool
                then key ← py_getitem recipe (py "key");
                     vals ← py_values key;
                     for_each (λ tokens ing,
                         collect_from_ingredient_obj_frames frames ing tokens)
                       vals tokens
                else Ok tokens);
      ings ← py_get recipe (py "ingredients");
      tokens ← (if isinstance_list ings
                then l ← py_getitem recipe (py "ingredients");
                     els ← py_iter l;
                     for_each (λ tokens ing,
                         collect_from_ingredient_obj_frames frames ing tokens)
                       els tokens
                else Ok tokens);
      h ← py_in (py "ingredient") recipe;
      tokens ← (if h : bool
                then v ← py_get recipe (py "ingredient");
                     collect_from_ingredient_obj_frames frames v tokens
                else Ok tokens);
      h ← py_in (py "input") recipe;
      tokens ← (if h : bool
                then v ← py_get recipe (py "input");
                     tokens ← collect_from_ingredient_obj_frames frames v tokens;
                     v ← py_get recipe (py "input");
                     collect_from_fluid_obj_frames frames v tokens
                else Ok tokens);
      inputs ← py_get recipe (py "inputs");
      tokens ← (if isinstance_list inputs
                then l ← py_getitem recipe (py "inputs");
                     els ← py_iter l;
                     for_each (λ tokens ing,
                         tokens ← collect_from_ingredient_obj_frames frames
                                    ing tokens;
                         collect_from_fluid_obj_frames frames ing tokens)
                       els tokens
                else Ok tokens);
      for_each (λ tokens k,
          h ← py_in k recipe;
          if h : bool
          then v ← py_get recipe k; collect_from_fluid_obj_frames frames v tokens
          else Ok tokens)
        [py "fluid"; py "fluids"; py "fluidIngredient"; py "fluid_ingredient"]
        tokens
  end.

(** The nesting depth of a value: 0 for a scalar or a string, one more
    than its deepest element for a list or an object. *)
Fixpoint depth (v : pyval) : nat :=
  match v with
  | PList l => S (foldr (λ x n, depth x `max` n) 0 l)
  | PDict d => S (foldr (λ '(_, x) n, depth x `max` n) 0 d)
  | _ => 0
  end.

(** [v] inside [n] lists: [[[... v ...]]]. *)
Fixpoint nest (n : nat) (v : pyval) : pyval :=
  match n with
  | 0 => v
  | S n => PList [nest n v]
  end.

(** [m], run on a bounded stack, does what [m'] does; unless [exact], it
    may instead have run out of frames. *)
Definition fits {A : Type} (exact : bool) (m m' : exc A) : Prop :=
  m = m' ∨ (exact = false ∧ m = Raise RecursionError).

(* ------------------------------------------------------------------ *)
(** ** Direct map construction (source lines 372-402, 701-735) *)
(* ------------------------------------------------------------------ *)

(** [direct_map] is the dict the source mutates in place; the updated map
    is returned.  [direct_map[out].update(tokens)] finds its key, which the
    line before creates when missing. *)
Definition merge_direct_map (direct_map : gmap pystr (gset pystr))
    (outputs : gset pystr) (tokens : list pystr) : gmap pystr (gset pystr) :=
  if bool_decide (outputs = ∅) || bool_decide (tokens = []) then direct_map
  else
    foldl (λ direct_map out,
        let direct_map :=
          match direct_map !! out with
          | None => <[out := ∅]> direct_map
          | Some _ => direct_map
          end in
        alter (λ s, s ∪ list_to_set tokens) out direct_map)
      direct_map (elements outputs).

Definition finalize_direct_map (direct_map : gmap pystr (gset pystr))
    : gmap pystr (list pystr) :=
  map_fold (λ out tokens finalized, <[out := sorted (elements tokens)]> finalized)
    ∅ direct_map.

(** One streamed recipe: [(source_id, relative_path, parsed_json)]. *)
Definition recipe_entry : Type := pystr * pystr * pyval.

(** [[canonicalize_token(t) for t in tokens]], kept as a [List[str]]. *)
Definition canonicalize_tokens (tokens : list pystr) : exc (list pystr) :=
  mapM (λ t, v ← canonicalize_token (PStr t); as_str v) tokens.

(** The keyword [verbose] is never read by the body and is left out. *)
Definition build_direct_map (recipes : list recipe_entry)
    : exc (gmap pystr (list pystr)) :=
  direct_map ← for_each (λ direct_map '(source_id, rel_path, recipe),
      outputs ← extract_outputs recipe;
      if bool_decide (outputs = ∅) then Ok direct_map else
      tokens ← extract_direct_ingredient_tokens recipe;
      if bool_decide (tokens = []) then Ok direct_map else
      (* Normalize tokens early to reduce churn *)
      tokens ← canonicalize_tokens tokens;
      Ok (merge_direct_map direct_map outputs tokens))
    recipes (∅ : gmap pystr (gset pystr));
  Ok (finalize_direct_map direct_map).

(** What the two extractors return for a recipe (as defined above they
    return on every value, see [extract_outputs_of] and
    [extract_tokens_of]). *)
Definition outputs_of (recipe : pyval) : gset pystr :=
  match extract_outputs recipe with
  | Ok outputs => outputs
  | Raise _ => ∅
  end.

Definition tokens_of (recipe : pyval) : list pystr :=
  match extract_direct_ingredient_tokens recipe with
  | Ok tokens => tokens
  | Raise _ => []
  end.

(** The accumulator [direct_map] after the loop of [build_direct_map] has
    consumed [recipes] (lemma [build_direct_map_eq]). *)
Definition accumulate (recipes : list recipe_entry)
    (direct_map : gmap pystr (gset pystr)) : gmap pystr (gset pystr) :=
  foldl (λ direct_map e,
      merge_direct_map direct_map (outputs_of e.2)
        (canonicalize_str <$> tokens_of e.2))
    direct_map recipes.

(** The example document of the specification:
    [{"result": "modA:bread", "ingredients": ["modA:wheat", "#modB:dough"]}] *)
Definition bread_recipe : pyval :=
  PDict [(py "result", PStr (py "modA:bread"));
         (py "ingredients",
          PList [PStr (py "modA:wheat"); PStr (py "#modB:dough")])].

(* ------------------------------------------------------------------ *)
(** ** The file system and the effects of a run *)
(* ------------------------------------------------------------------ *)

(** What a path holds: a JSON document, or bytes that do not parse. *)
Inductive file :=
| FileJson (v : pyval)
| FileOther.

(** [EvMkdir p]: [main] has created the directory [p].
    [EvWriteJson p obj]: [write_json] has put [obj] at [p].
    [EvWriteTmp tmp]: [write_json] has failed and left its temporary file. *)
Inductive event :=
| EvMkdir (p : path)
| EvWriteJson (p : path) (obj : pyval)
| EvWriteTmp (tmp : path).

(** The file system, the registry nodes held in memory (a node is passed
    by reference), and the persistence effects performed so far. *)
Record world := World {
  files : gmap path file;
  dirs : gset path;
  objects : gmap nat pyval;
  log : list event
}.

Definition io (A : Type) : Type := world → world * exc A.

#[global] Instance io_ret : MRet io := λ A a w, (w, Ok a).
#[global] Instance io_bind : MBind io := λ A B f m w,
  match m w with
  | (w', Ok a) => f a w'
  | (w', Raise e) => (w', Raise e)
  end.

Definition io_raise {A : Type} (e : pyexn) : io A := λ w, (w, Raise e).
Definition io_lift {A : Type} (m : exc A) : io A := λ w, (w, m).
Definition io_when (b : bool) (m : io unit) : io unit :=
  if b then m else mret tt.

(** [p.parent] *)
Definition parent (p : path) : path := removelast p.

(** [p.with_suffix(p.suffix + ".tmp")] *)
Definition with_tmp_suffix (p : path) : path :=
  match reverse p with
  | [] => []
  | name :: rest => reverse ((name ++ py ".tmp") :: rest)
  end.

(** [p.exists()] *)
Definition path_exists (p : path) : io bool := λ w,
  (w, Ok (bool_decide (is_Some (files w !! p)) || bool_decide (p ∈ dirs w))).

(** [p] and the directories above it, outermost first. *)
Definition prefixes (p : path) : list path :=
  (λ n, take n p) <$> seq 1 (length p).

(** [p] is a regular file. *)
Definition is_file (w : world) (p : path) : bool :=
  bool_decide (is_Some (files w !! p)).

(** The directories after [p.mkdir(parents=True, exist_ok=True)].  The
    call raises when a path above [p] is a regular file, and when [p]
    itself is one ([exist_ok] only excuses a directory); it then has
    created nothing. *)
Definition make_dirs (p : path) (w : world) : exc (gset path) :=
  if existsb (is_file w) (prefixes (parent p))
  then Raise (NotADirectoryError p)
  else if is_file w p then Raise (FileExistsError p)
  else Ok (dirs w ∪ list_to_set (prefixes p)).

(** [p.mkdir(parents=True, exist_ok=True)], called by [main]. *)
Definition mkdir (p : path) : io unit := λ w,
  match make_dirs p w with
  | Ok ds => (World (files w) ds (objects w) (log w ++ [EvMkdir p]), Ok tt)
  | Raise e => (w, Raise e)
  end.

(** [read_json] (lines 184-189). *)
Definition read_json (p : path) : io pyval := λ w,
  match files w !! p with
  | Some (FileJson v) => (w, Ok v)
  | Some FileOther => (w, Raise (JSONDecodeError p))
  | None =>
      (w, Raise (if bool_decide (p ∈ dirs w) then IsADirectoryError p
                 else if existsb (is_file w) (prefixes (parent p))
                 then NotADirectoryError p
                 else FileNotFoundError p))
  end.

(** A surrogate code point ([U+D800] to [U+DFFF]): the UTF-8 codec
    refuses it. *)
Definition is_surrogate (c : N) : bool :=
  ((55296 <=? c) && (c <=? 57343))%N.

(** Some string of [v], a key or a value, holds a surrogate. *)
Fixpoint has_surrogate (v : pyval) : bool :=
  match v with
  | PStr s => existsb is_surrogate s
  | PList l => existsb has_surrogate l
  | PDict d =>
      existsb (λ '(k, v), existsb is_surrogate k || has_surrogate v) d
  | _ => false
  end.

(** [write_json] (lines 192-207).  [obj] is given with its keys in sorted
    order, the order [sort_keys=True] serializes them in.  The write is
    recorded as one event when it completes; when it fails after the
    temporary file was opened, that file stays behind. *)
Definition write_json (p : path) (obj : pyval) : io unit := λ w,
  (* path.parent.mkdir(parents=True, exist_ok=True) *)
  match make_dirs (parent p) w with
  | Raise e => (w, Raise e)
  | Ok ds =>
      let tmp := with_tmp_suffix p in
      (* tmp = path.with_suffix(path.suffix + ".tmp") *)
      if bool_decide (p = [])
      then (World (files w) ds (objects w) (log w),
            Raise (ValueError (EmptyName p)))
      (* with tmp.open("w", encoding="utf-8") as f *)
      else if bool_decide (tmp ∈ ds)
      then (World (files w) ds (objects w) (log w),
            Raise (IsADirectoryError tmp))
      (* json.dump(obj, f, ensure_ascii=False, indent=2, sort_keys=True) *)
      else if has_surrogate obj
      then (World (<[tmp := FileOther]> (files w)) ds (objects w)
                  (log w ++ [EvWriteTmp tmp]),
            Raise UnicodeEncodeError)
      (* tmp.replace(path) *)
      else if bool_decide (p ∈ ds)
      then (World (<[tmp := FileJson obj]> (files w)) ds (objects w)
                  (log w ++ [EvWriteTmp tmp]),
            Raise (IsADirectoryError p))
      else (World (<[p := FileJson obj]> (delete tmp (files w))) ds
                  (objects w) (log w ++ [EvWriteJson p obj]),
            Ok tt)
  end.

(* ------------------------------------------------------------------ *)
(** ** Edible masterlist ingestion (source lines 741-763) *)
(* ------------------------------------------------------------------ *)

Definition load_edible_items (edibles_path : path) : io (gset pystr) :=
  obj ← read_json edibles_path;
  if negb (isinstance_dict obj)
  then io_raise (ValueError (EdiblesMustBeObject edibles_path)) else
  items ← io_lift (py_get obj (py "items"));
  if negb (isinstance_list items)
  then io_raise (ValueError (EdiblesMissingItemsList edibles_path)) else
  io_lift (
    els ← py_iter items;
    for_each (λ edible it,
        c ← and_then (isinstance_str it) (py_in (py ":") it);
        if c : bool then set_add edible it else Ok edible)
      els (∅ : gset pystr)).

(** The entries of [items] that [load_edible_items] keeps: the strings
    that contain [':']. *)
Definition edible_entries (items : list pyval) : list pystr :=
  omap (λ it,
      match it with
      | PStr s => if str_contains (py ":") s then Some s else None
      | _ => None
      end) items.

(** The masterlist document is an object whose [items] field is a list. *)
Definition has_items_list (obj : pyval) : Prop :=
  ∃ d items, obj = PDict d ∧ dict_get d (py "items") = PList items.

(* ------------------------------------------------------------------ *)
(** ** Generated outputs (source lines 861-876) *)
(* ------------------------------------------------------------------ *)

(** The finalized direct map as the JSON object [write_json] receives. *)
Definition direct_map_json (direct_map : gmap pystr (list pystr)) : pyval :=
  PDict ((λ out, (out, PList (PStr <$> default [] (direct_map !! out))))
           <$> sorted (elements (dom direct_map))).

Definition write_generated_food_list (generated_dir : path)
    (food_outputs : gset pystr) : io unit :=
  let payload :=
    PDict [(py "food_count", PInt (Z.of_nat (size food_outputs)));
           (py "food_outputs", PList (PStr <$> sorted (elements food_outputs)))] in
  write_json (generated_dir ++ [py "foods.json"]) payload.

Definition write_generated_stats (generated_dir : path) (stats : pyval)
    : io unit :=
  write_json (generated_dir ++ [py "stats.json"]) stats.

(* ------------------------------------------------------------------ *)
(** ** Orchestration (source lines 86-177) *)
(* ------------------------------------------------------------------ *)

(** The parsed command line. *)
Record Args := {
  edibles : path;
  inputs : list path;
  registry : path;
  direct_map_out : option path;
  dry_run : bool;
  verbose : bool
}.

(** [for p in ps: if not p.exists(): return 2], as the test whether the
    loop runs to its end. *)
Definition all_exist : list path → io bool :=
  fix go (ps : list path) : io bool :=
    match ps with
    | [] => mret true
    | p :: ps' => e ← path_exists p; if e : bool then go ps' else mret false
    end.

(** Lines 109-138 of [main]: the registry layout, stage 1 (scan) and
    stage 2 (build, and the optional write of the direct map).
    [scan w inputs] stands for the recipes that [discover_recipe_sources]
    and [iter_all_recipe_json_from_sources] stream out of the file system;
    both only read it. *)
Definition scan_and_build (scan : world → list path → list recipe_entry)
    (args : Args) : io (gmap pystr (list pystr)) :=
  (* Registry layout *)
  let nodes_dir := registry args ++ [py "nodes"] in
  let generated_dir := registry args ++ [py "generated"] in
  _ ← io_when (negb (dry_run args))
        (_ ← mkdir nodes_dir; mkdir generated_dir);
  (* 1. Scan recipes from inputs *)
  recipes ← (λ w, (w, Ok (scan w (inputs args))));
  (* 2. Build direct ingredient map *)
  direct_map ← io_lift (build_direct_map recipes);
  (* Optional: write direct_map for inspection / downstream use *)
  _ ← match direct_map_out args with
      | Some out =>
          io_when (negb (dry_run args))
            (_ ← mkdir (parent out);
             write_json out (direct_map_json direct_map))
      | None => mret tt
      end;
  mret direct_map.

Definition main (scan : world → list path → list recipe_entry) (args : Args)
    : io Z :=
  (* Normalize and sanity-check paths early *)
  e ← path_exists (edibles args);
  if negb e then mret 2%Z else
  ok ← all_exist (inputs args);
  if negb ok then mret 2%Z else
  let generated_dir := registry args ++ [py "generated"] in
  direct_map ← scan_and_build scan args;
  (* 3. Load edible masterlist *)
  edible_items ← load_edible_items (edibles args);
  (* 4. Sync registry nodes: the call is commented out *)
  (* 5. Write generated outputs *)
  let outputs_set : gset pystr := dom direct_map in
  let edible_outputs := outputs_set ∩ edible_items in
  let gen_stats :=
    PDict [(py "direct_map_output_count", PInt (Z.of_nat (size outputs_set)));
           (py "edible_item_count", PInt (Z.of_nat (size edible_items)));
           (py "edible_output_count", PInt (Z.of_nat (size edible_outputs)))] in
  _ ← io_when (negb (dry_run args))
        (_ ← write_generated_food_list generated_dir edible_outputs;
         write_generated_stats generated_dir gen_stats);
  mret 0%Z.

(** The persistence effects of a run up to the point where it loads the
    edible masterlist. *)
Definition effects_before_edibles (args : Args)
    (direct_map : gmap pystr (list pystr)) : list event :=
  (if dry_run args then []
   else [EvMkdir (registry args ++ [py "nodes"]);
         EvMkdir (registry args ++ [py "generated"])])
  ++ match direct_map_out args with
     | Some out =>
         if dry_run args then []
         else [EvMkdir (parent out);
               EvWriteJson out (direct_map_json direct_map)]
     | None => []
     end.

(** Writing the direct map does not touch the masterlist file. *)
Definition masterlist_untouched (args : Args) : Prop :=
  dry_run args = true ∨
  match direct_map_out args with
  | Some out => out ≠ edibles args ∧ with_tmp_suffix out ≠ edibles args
  | None => True
  end.

(** A file system that holds the masterlist [obj] and a mods folder. *)
Definition example_world (obj : pyval) : world :=
  World {[ [py "edibles.json"] := FileJson obj ]} {[ [py "mods"] ]} ∅ [].

(** A run that is asked to write the direct map. *)
Definition example_args : Args :=
  {| edibles := [py "edibles.json"];
     inputs := [[py "mods"]];
     registry := [py "registry"];
     direct_map_out := Some [py "out"; py "direct_map.json"];
     dry_run := false;
     verbose := false |}.

(** A registry with the node of [modA:bread], held in memory at
    reference 0 and stored under [registry/nodes]. *)
Definition example_node : pyval :=
  PDict [(py "id", PStr (py "modA:bread"));
         (py "assigned_buffs", PList [PStr (py "regen")])].

Definition example_registry : world :=
  World {[ [py "registry"; py "nodes"; py "modA__bread.json"]
             := FileJson example_node ]}
        {[ [py "registry"]; [py "registry"; py "nodes"] ]}
        {[ 0 := example_node ]} [].

(** The mods folder holds the bread recipe. *)
Definition example_scan (w : world) (inputs : list path) : list recipe_entry :=
  [(py "a.jar", py "data/a/recipes/bread.json", bread_recipe)].

(* ------------------------------------------------------------------ *)
(** ** Registry synchronization (source lines 808-854) *)
(* ------------------------------------------------------------------ *)

(** The body of both functions is [pass]: the call returns [None] and
    leaves the node it was handed, and the registry on disk, as they were.
    [node] is the reference of the dict passed in. *)
Definition update_node_structural_fields (node : nat) (item_id : pystr)
    (direct_map : gmap pystr (list pystr)) (edible : gset pystr) : io pyval :=
  mret PNone.

Definition sync_registry_nodes (registry_dir : path)
    (expected_nodes : gset pystr)
    (direct_map : gmap pystr (list pystr)) (edible : gset pystr) : io pyval :=
  mret PNone.

(** One reconciliation call with its arguments. *)
Inductive reconcile_call :=
| CallUpdate (node : nat) (item_id : pystr)
    (direct_map : gmap pystr (list pystr)) (edible : gset pystr)
| CallSync (registry_dir : path) (expected_nodes : gset pystr)
    (direct_map : gmap pystr (list pystr)) (edible : gset pystr).

Definition run_call (c : reconcile_call) : io pyval :=
  match c with
  | CallUpdate node item_id direct_map edible =>
      update_node_structural_fields node item_id direct_map edible
  | CallSync registry_dir expected_nodes direct_map edible =>
      sync_registry_nodes registry_dir expected_nodes direct_map edible
  end.

(** Any number of reconciliation calls, one after the other. *)
Fixpoint run_calls (cs : list reconcile_call) : io unit :=
  match cs with
  | [] => mret tt
  | c :: cs' => _ ← run_call c; run_calls cs'
  end.

(** The field [k] of a dict, when the value is a dict that has it. *)
Definition field (k : pystr) (v : pyval) : option pyval :=
  match v with
  | PDict d => if dict_has d k then Some (dict_get d k) else None
  | _ => None
  end.

(** The field [k] of the node held in memory at [node]. *)
Definition node_field (w : world) (node : nat) (k : pystr) : option pyval :=
  objects w !! node ≫= field k.

(** The field [k] of the node stored in the file [p]. *)
Definition stored_field (w : world) (p : path) (k : pystr) : option pyval :=
  files w !! p ≫= λ f, match f with FileJson v => field k v | FileOther => None end.

(* ------------------------------------------------------------------ *)
(** ** Recipe paths (source lines 270-280) *)
(* ------------------------------------------------------------------ *)

(** [s.replace(old, new)] for two one-character strings. *)
Definition str_replace1 (old new : N) (s : pystr) : pystr :=
  (λ c, if (c =? old)%N then new else c) <$> s.

(** [s.endswith(p)] *)
Definition str_endswith (s p : pystr) : bool :=
  str_startswith (reverse s) (reverse p).

(** The path a recipe is looked up under, with forward slashes. *)
Definition normalized_path (rel_path : pystr) : pystr :=
  str_replace1 92 47 rel_path.

Definition is_recipe_json_path (rel_path : pystr) : bool :=
  let rp := normalized_path rel_path in
  if negb (str_endswith rp (py ".json")) then false else
  if negb (str_contains (py "/data/") (py "/" ++ rp)) then false else
  str_contains (py "/recipes/") rp.

(* ------------------------------------------------------------------ *)
(** ** Postconditions *)
(* ------------------------------------------------------------------ *)

(** Every value the computation returns satisfies [Q]. *)
Definition post {A : Type} (m : exc A) (Q : A → Prop) : Prop :=
  ∀ a, m = Ok a → Q a.

(** An item id as [is_item_id] accepts it: a string with [':'] in it that
    does not start with ['#']. *)
Definition item_id_str (s : pystr) : Prop := item_idb (PStr s) = true.

(** A token as the ingredient extractor builds it: one of the three
    prefixes in front of an id that has [':'] in it. *)
Definition prefixed_token (t : pystr) : Prop :=
  ∃ p id, p ∈ canonical_prefixes ∧ t = p ++ id ∧ 58%N ∈ id.

(** Every element is an item id. *)
Definition all_item_ids (out : gset pystr) : Prop :=
  ∀ x, x ∈ out → item_id_str x.

(** [out'] is [out] with prefixed tokens appended. *)
Definition extended (out out' : list pystr) : Prop :=
  ∃ new, out' = out ++ new ∧ Forall prefixed_token new.

(** [a <= b] on strings, as a relation. *)
Definition str_le : relation pystr := λ a b, Is_true (str_leb a b).

(** Some streamed recipe has the output [k] and a token that
    canonicalizes to [t]. *)
Definition contributed (recipes : list recipe_entry) (k t : pystr) : Prop :=
  ∃ source_id rel_path recipe outputs tokens raw,
    (source_id, rel_path, recipe) ∈ recipes ∧
    extract_outputs recipe = Ok outputs ∧ k ∈ outputs ∧
    extract_direct_ingredient_tokens recipe = Ok tokens ∧ raw ∈ tokens ∧
    canonicalize_token (PStr raw) = Ok (PStr t).

(** The tokens listed under [k], none when [k] is not a key. *)
Definition listed_under (finalized : gmap pystr (list pystr)) (k : pystr)
    : list pystr :=
  default [] (finalized !! k).

(* ------------------------------------------------------------------ *)
(** ** Outcome of a run *)
(* ------------------------------------------------------------------ *)

(** What [load_edible_items] returns or raises for the file system [w]
    (lemma [load_edible_items_eq]). *)
Definition edibles_result (w : world) (edibles_path : path)
    : exc (gset pystr) :=
  match files w !! edibles_path with
  | None =>
      Raise (if bool_decide (edibles_path ∈ dirs w)
             then IsADirectoryError edibles_path
             else if existsb (is_file w) (prefixes (parent edibles_path))
             then NotADirectoryError edibles_path
             else FileNotFoundError edibles_path)
  | Some FileOther => Raise (JSONDecodeError edibles_path)
  | Some (FileJson (PDict d)) =>
      match dict_get d (py "items") with
      | PList items => Ok (list_to_set (edible_entries items))
      | _ => Raise (ValueError (EdiblesMissingItemsList edibles_path))
      end
  | Some (FileJson _) =>
      Raise (ValueError (EdiblesMustBeObject edibles_path))
  end.

(** The two artifacts stage 5 writes, for a direct map and an edible set. *)
Definition generated_effects (args : Args)
    (direct_map : gmap pystr (list pystr)) (edible_items : gset pystr)
    : list event :=
  if dry_run args then []
  else
    [EvWriteJson (registry args ++ [py "generated"; py "foods.json"])
       (PDict [(py "food_count",
                PInt (Z.of_nat (size (dom direct_map ∩ edible_items))));
               (py "food_outputs",
                PList (PStr <$> sorted (elements (dom direct_map
                                                  ∩ edible_items))))]);
     EvWriteJson (registry args ++ [py "generated"; py "stats.json"])
       (PDict [(py "direct_map_output_count",
                PInt (Z.of_nat (size (dom direct_map))));
               (py "edible_item_count",
                PInt (Z.of_nat (size edible_items)));
               (py "edible_output_count",
                PInt (Z.of_nat (size (dom direct_map ∩ edible_items))))])].

(* ================================================================== *)
(** * Properties *)
(* ================================================================== *)

(** ** The examples of the specification *)

Example canonicalize_item :
  canonicalize_token (PStr (py "modA:wheat")) = Ok (PStr (py "item:modA:wheat")).
Proof. reflexivity. Qed.

Example canonicalize_tag :
  canonicalize_token (PStr (py "#modB:dough")) = Ok (PStr (py "tag:modB:dough")).
Proof. reflexivity. Qed.
Example extract_outputs_bread :
  extract_outputs
    (PDict [(py "result", PStr (py "modA:bread"));
            (py "ingredients",
             PList [PStr (py "modA:wheat"); PStr (py "#modB:dough")])])
  = Ok {[py "modA:bread"]}.
Proof. vm_compute. reflexivity. Qed.

Example extract_tokens_bread :
  extract_direct_ingredient_tokens
    (PDict [(py "result", PStr (py "modA:bread"));
            (py "ingredients",
             PList [PStr (py "modA:wheat"); PStr (py "#modB:dough")])])
  = Ok [py "item:modA:wheat"; py "tag:modB:dough"].
Proof. vm_compute. reflexivity. Qed.

Example build_direct_map_bread :
  build_direct_map [(py "a.jar", py "data/a/recipes/bread.json", bread_recipe)]
  = Ok {[py "modA:bread" := [py "item:modA:wheat"; py "tag:modB:dough"]]}.
Proof. vm_compute. reflexivity. Qed.

(** A whole run over the bread recipe with the masterlist
    [{"items": ["modA:bread"]}]: the direct map, then [foods.json] with
    [food_count: 1] and [food_outputs: ["modA:bread"]], then [stats.json]. *)
Example main_bread_run :
  (main example_scan example_args
     (example_world (PDict [(py "items", PList [PStr (py "modA:bread")])]))).2
  = Ok 0%Z ∧
  log (main example_scan example_args
         (example_world
            (PDict [(py "items", PList [PStr (py "modA:bread")])]))).1
  = [EvMkdir [py "registry"; py "nodes"];
     EvMkdir [py "registry"; py "generated"];
     EvMkdir [py "out"];
     EvWriteJson [py "out"; py "direct_map.json"]
       (PDict [(py "modA:bread",
                PList [PStr (py "item:modA:wheat");
                       PStr (py "tag:modB:dough")])]);
     EvWriteJson [py "registry"; py "generated"; py "foods.json"]
       (PDict [(py "food_count", PInt 1);
               (py "food_outputs", PList [PStr (py "modA:bread")])]);
     EvWriteJson [py "registry"; py "generated"; py "stats.json"]
       (PDict [(py "direct_map_output_count", PInt 1);
               (py "edible_item_count", PInt 1);
               (py "edible_output_count", PInt 1)])].
Proof. split; vm_compute; reflexivity. Qed.

(* ------------------------------------------------------------------ *)
(** ** Strings *)
(* ------------------------------------------------------------------ *)

Lemma str_startswith_app (p s : pystr) : str_startswith (p ++ s) p = true.
Proof.
  induction p as [|c p IH]; [done|].
  simpl. by rewrite N.eqb_refl, IH.
Qed.

Lemma str_startswith_prefix (s p : pystr) :
  str_startswith s p = true ↔ ∃ r, s = p ++ r.
Proof.
  split.
  - revert s. induction p as [|c p IH]; intros s H; [by exists s|].
    destruct s as [|d s]; [done|]. simpl in H.
    apply andb_true_iff in H as [Hc Hp]. apply N.eqb_eq in Hc as ->.
    destruct (IH _ Hp) as [r ->]. by exists r.
  - intros [r ->]. apply str_startswith_app.
Qed.

Lemma str_contains_char (c : N) (s : pystr) :
  str_contains [c] s = true ↔ c ∈ s.
Proof.
  induction s as [|d s IH]; simpl.
  - split; [done|]. by intros ?%elem_of_nil.
  - rewrite orb_true_iff, andb_true_r, N.eqb_eq, elem_of_cons.
    destruct IH as [IH1 IH2].
    split; (intros [->|H]; [by left | right; auto]).
Qed.

Lemma str_contains_char_false (c : N) (s : pystr) :
  str_contains [c] s = false ↔ c ∉ s.
Proof.
  rewrite <-str_contains_char. by destruct (str_contains [c] s).
Qed.

Lemma str_lstrip_suffix (s : pystr) : ∃ ws, s = ws ++ str_lstrip s.
Proof.
  induction s as [|c s [ws IH]]; [by exists []|]. simpl.
  destruct (is_space c); [|by exists []].
  exists (c :: ws). simpl. by rewrite <-IH.
Qed.

Lemma str_lstrip_head (s : pystr) (c : N) :
  head (str_lstrip s) = Some c → is_space c = false.
Proof.
  induction s as [|d s IH]; [done|]. simpl.
  destruct (is_space d) eqn:Hd; [done|]. simpl. by intros [= <-].
Qed.

Lemma str_lstrip_id (s : pystr) :
  (∀ c, head s = Some c → is_space c = false) → str_lstrip s = s.
Proof.
  destruct s as [|d s]; [done|]. intros H. simpl. by rewrite (H d).
Qed.

Lemma str_rstrip_prefix (s : pystr) : ∃ ws, s = str_rstrip s ++ ws.
Proof.
  unfold str_rstrip.
  destruct (str_lstrip_suffix (reverse s)) as [ws H].
  exists (reverse ws).
  by rewrite <-reverse_app, <-H, reverse_involutive.
Qed.

Lemma str_rstrip_last (s : pystr) (c : N) :
  last (str_rstrip s) = Some c → is_space c = false.
Proof.
  unfold str_rstrip. rewrite last_reverse. apply str_lstrip_head.
Qed.

Lemma str_rstrip_id (s : pystr) :
  (∀ c, last s = Some c → is_space c = false) → str_rstrip s = s.
Proof.
  intros H. unfold str_rstrip.
  rewrite str_lstrip_id; [apply reverse_involutive|].
  intros c. rewrite head_reverse. apply H.
Qed.

Lemma str_rstrip_head (s : pystr) (c : N) :
  head (str_rstrip s) = Some c → head s = Some c.
Proof.
  destruct (str_rstrip_prefix s) as [ws H]. intros Hc.
  rewrite H. apply head_Some in Hc as [l' ->]. done.
Qed.

(** A string is stripped when neither end is whitespace. *)
Lemma str_strip_id (s : pystr) :
  str_strip s = s ↔
  (∀ c, head s = Some c → is_space c = false) ∧
  (∀ c, last s = Some c → is_space c = false).
Proof.
  unfold str_strip. split.
  - intros H. split; intros c Hc.
    + rewrite <-H in Hc. apply str_rstrip_head in Hc.
      by apply str_lstrip_head in Hc.
    + rewrite <-H in Hc. by apply str_rstrip_last in Hc.
  - intros [Hh Hl]. rewrite (str_lstrip_id s Hh). by apply str_rstrip_id.
Qed.

Lemma str_strip_stripped (s : pystr) : str_strip (str_strip s) = str_strip s.
Proof.
  apply str_strip_id. split; intros c Hc.
  - unfold str_strip in Hc. apply str_rstrip_head in Hc.
    by apply str_lstrip_head in Hc.
  - by apply str_rstrip_last in Hc.
Qed.

Lemma str_strip_elem (s : pystr) (c : N) : c ∈ str_strip s → c ∈ s.
Proof.
  unfold str_strip. intros H.
  destruct (str_lstrip_suffix s) as [ws Hs].
  destruct (str_rstrip_prefix (str_lstrip s)) as [ws' Hs'].
  rewrite Hs, Hs'. set_solver.
Qed.

(* ------------------------------------------------------------------ *)
(** ** Token canonicalizer *)
(* ------------------------------------------------------------------ *)

#[local] Arguments py : simpl never.
#[local] Arguments str_startswith : simpl never.
#[local] Arguments str_contains : simpl never.
#[local] Arguments str_strip : simpl never.
#[local] Arguments existsb : simpl never.

Lemma canonicalize_token_str (s : pystr) :
  canonicalize_token (PStr s) = Ok (PStr (canonicalize_str s)).
Proof.
  unfold canonicalize_token, canonicalize_str.
  cbn [isinstance_str negb py_strip mbind exc_bind py_startswith_any py_in
       py_startswith fmap exc_fmap and_then py_slice1 as_str].
  destruct (existsb (str_startswith (str_strip s)) canonical_prefixes),
    (str_contains (py ":") (str_strip s)),
    (str_startswith (str_strip s) (py "#")),
    (str_contains (py ":") (str_slice1 (str_strip s))); reflexivity.
Qed.

Lemma canonicalize_token_total (token : pyval) :
  ∃ r, canonicalize_token token = Ok r.
Proof.
  destruct token; try by eexists.
  eexists. apply canonicalize_token_str.
Qed.

Lemma recognized_false_no_colon (s : pystr) :
  recognized s = false → 58%N ∉ s.
Proof.
  unfold recognized. intros H Hin.
  apply orb_false_iff in H as [H H3]. apply orb_false_iff in H as [_ H2].
  apply (str_contains_char 58%N) in Hin as Hc.
  change (py ":") with [58%N] in *. rewrite Hc in H2. simpl in H2.
  apply negb_false_iff in H2. rewrite H2 in H3. simpl in H3.
  change (py "#") with [35%N] in H2.
  apply str_startswith_prefix in H2 as [r ->].
  apply str_contains_char_false in H3. simpl in H3.
  apply elem_of_cons in Hin as [?|?]; done.
Qed.

Lemma canonicalize_str_no_colon (s : pystr) :
  58%N ∉ s → canonicalize_str s = str_strip s.
Proof.
  intros H. unfold canonicalize_str.
  assert (Ht : 58%N ∉ str_strip s) by (intros ?%str_strip_elem; done).
  destruct (existsb (str_startswith (str_strip s)) canonical_prefixes);
    [done|].
  change (py ":") with [58%N].
  apply str_contains_char_false in Ht as ->. simpl.
  destruct (str_startswith (str_strip s) (py "#")); simpl; [|done].
  assert (Ht1 : 58%N ∉ str_slice1 (str_strip s)).
  { intros Hin. apply H, str_strip_elem.
    destruct (str_strip s); [done|]. simpl in Hin. set_solver. }
  by apply str_contains_char_false in Ht1 as ->.
Qed.

Lemma str_strip_app (p t : pystr) :
  (∀ c, head p = Some c → is_space c = false) → p ≠ [] → t ≠ [] →
  (∀ c, last t = Some c → is_space c = false) →
  str_strip (p ++ t) = p ++ t.
Proof.
  intros Hp Hne Hte Ht. apply str_strip_id. split; intros c Hc.
  - apply Hp. destruct p; [done|]. done.
  - apply Ht. rewrite last_app in Hc.
    apply last_is_Some in Hte as [y Hy]. by rewrite Hy in Hc |- *.
Qed.

Lemma prefixed_app (p t : pystr) :
  p ∈ canonical_prefixes →
  existsb (str_startswith (p ++ t)) canonical_prefixes = true.
Proof.
  intros Hp. apply existsb_exists. exists p. split.
  - by apply list_elem_of_In.
  - apply str_startswith_app.
Qed.

Lemma canonical_prefix_head (p : pystr) (c : N) :
  p ∈ canonical_prefixes → head p = Some c → is_space c = false.
Proof.
  unfold canonical_prefixes. rewrite !elem_of_cons, elem_of_nil.
  intros [->|[->|[->|[]]]] [= <-]; reflexivity.
Qed.

Lemma canonical_prefix_nonempty (p : pystr) : p ∈ canonical_prefixes → p ≠ [].
Proof.
  unfold canonical_prefixes. rewrite !elem_of_cons, elem_of_nil.
  intros [->|[->|[->|[]]]]; discriminate.
Qed.

Lemma canonicalize_str_prefixed (p t : pystr) :
  p ∈ canonical_prefixes → t ≠ [] →
  (∀ c, last t = Some c → is_space c = false) →
  canonicalize_str (p ++ t) = p ++ t.
Proof.
  intros Hp Hte Ht. unfold canonicalize_str.
  rewrite str_strip_app; eauto using canonical_prefix_head,
    canonical_prefix_nonempty.
  by rewrite prefixed_app.
Qed.

Lemma canonicalize_str_idempotent (s : pystr) :
  canonicalize_str (canonicalize_str s) = canonicalize_str s.
Proof.
  unfold canonicalize_str at 2 3.
  pose proof (str_strip_stripped s) as Ht.
  pose proof (proj1 (str_strip_id _) Ht) as [_ Hlast].
  set (t := str_strip s) in *. cbv zeta.
  destruct (existsb (str_startswith t) canonical_prefixes) eqn:E1.
  { unfold canonicalize_str. by rewrite Ht, E1. }
  destruct (str_contains (py ":") t) eqn:E2; cbn [andb].
  - destruct (str_startswith t (py "#")) eqn:E3; cbn [andb negb].
    + destruct (str_contains (py ":") (str_slice1 t)) eqn:E4.
      * apply str_startswith_prefix in E3 as [t1 Ht1].
        change (py "#" ++ t1) with (35%N :: t1) in Ht1.
        rewrite Ht1 in E4 |- *. unfold str_slice1 in E4 |- *.
        cbn [tail] in E4 |- *.
        apply (str_contains_char 58%N) in E4.
        assert (t1 ≠ []) as Hne by (intros ->; by apply elem_of_nil in E4).
        apply canonicalize_str_prefixed; [set_solver|done|].
        intros c Hc. apply Hlast. rewrite Ht1.
        destruct t1; [done|]. by rewrite last_cons_cons.
      * unfold canonicalize_str. by rewrite Ht, E1, E2, E3, E4.
    + apply (str_contains_char 58%N) in E2.
      apply canonicalize_str_prefixed; [set_solver| |done].
      intros ->. by apply elem_of_nil in E2.
  - destruct (str_startswith t (py "#") && str_contains (py ":") (str_slice1 t))
      eqn:E3.
    + apply andb_true_iff in E3 as [E3 E4].
      apply str_startswith_prefix in E3 as [t1 Ht1].
      change (py "#" ++ t1) with (35%N :: t1) in Ht1.
      rewrite Ht1 in E2, E4. unfold str_slice1 in E4. cbn [tail] in E4.
      apply (str_contains_char 58%N) in E4.
      apply (str_contains_char_false 58%N) in E2. set_solver.
    + unfold canonicalize_str. by rewrite Ht, E1, E2, E3.
Qed.

(** C4 (as amended).  [canonicalize_token] returns a value on every input.
    For a string of none of the recognized shapes the value is the input
    with its leading and trailing whitespace stripped, hence the input
    itself when it carries no such whitespace. *)
Theorem canonicalize_token_passthrough :
  (∀ token, ∃ r, canonicalize_token token = Ok r) ∧
  (∀ s, recognized s = false →
        canonicalize_token (PStr s) = Ok (PStr (str_strip s))) ∧
  (∀ s, recognized s = false → str_strip s = s →
        canonicalize_token (PStr s) = Ok (PStr s)).
Proof.
  split; [apply canonicalize_token_total|].
  assert (∀ s, recognized s = false →
            canonicalize_token (PStr s) = Ok (PStr (str_strip s))) as H.
  { intros s Hs. rewrite canonicalize_token_str.
    by rewrite canonicalize_str_no_colon by by apply recognized_false_no_colon. }
  split; [done|]. intros s Hs Heq. by rewrite H, Heq.
Qed.

Lemma canonicalize_token_passthrough_witness :
  canonicalize_token (PStr (py "bread")) = Ok (PStr (str_strip (py "bread"))) ∧
  canonicalize_token (PStr (py "bread")) = Ok (PStr (py "bread")).
Proof.
  split.
  - apply (proj1 (proj2 canonicalize_token_passthrough)). reflexivity.
  - apply (proj2 (proj2 canonicalize_token_passthrough)); reflexivity.
Defined.

(** C4 as stated fails: [" a"] has none of the recognized shapes and is
    returned as ["a"]. *)
Lemma canonicalize_token_passthrough_padded :
  recognized (py " a") = false ∧
  canonicalize_token (PStr (py " a")) = Ok (PStr (py "a")) ∧
  canonicalize_token (PStr (py " a")) ≠ Ok (PStr (py " a")).
Proof. split; [reflexivity|]. split; [reflexivity|]. discriminate. Qed.

(** C5 (as amended).  On a string without leading or trailing whitespace:
    a string that starts with [item:], [tag:] or [fluid:] is returned
    unchanged; ['#a:b'] becomes ['tag:a:b']; ['a:b'] becomes ['item:a:b']
    when it starts neither with ['#'] nor with one of the three prefixes. *)
Theorem canonicalize_token_shapes :
  (∀ s, str_strip s = s →
        existsb (str_startswith s) canonical_prefixes = true →
        canonicalize_token (PStr s) = Ok (PStr s)) ∧
  (∀ a b, str_strip (py "#" ++ a ++ py ":" ++ b) = py "#" ++ a ++ py ":" ++ b →
        canonicalize_token (PStr (py "#" ++ a ++ py ":" ++ b))
        = Ok (PStr (py "tag:" ++ a ++ py ":" ++ b))) ∧
  (∀ a b, str_strip (a ++ py ":" ++ b) = a ++ py ":" ++ b →
        str_startswith (a ++ py ":" ++ b) (py "#") = false →
        existsb (str_startswith (a ++ py ":" ++ b)) canonical_prefixes = false →
        canonicalize_token (PStr (a ++ py ":" ++ b))
        = Ok (PStr (py "item:" ++ a ++ py ":" ++ b))).
Proof.
  split; [|split].
  - intros s Hs Hp. rewrite canonicalize_token_str.
    unfold canonicalize_str. by rewrite Hs, Hp.
  - intros a b Hs. rewrite canonicalize_token_str.
    unfold canonicalize_str. rewrite Hs.
    change (py "#" ++ a ++ py ":" ++ b) with (35%N :: a ++ 58%N :: b).
    assert (existsb (str_startswith (35%N :: a ++ 58%N :: b))
              canonical_prefixes = false) as ->.
    { apply not_true_iff_false. intros H.
      apply existsb_exists in H as (p & Hp & H).
      apply str_startswith_prefix in H as [r Hr].
      unfold canonical_prefixes in Hp. simpl in Hp.
      destruct Hp as [<-|[<-|[<-|[]]]]; discriminate. }
    assert (str_startswith (35%N :: a ++ 58%N :: b) (py "#") = true) as ->.
    { apply str_startswith_prefix. by exists (a ++ 58%N :: b). }
    assert (str_contains (py ":") (35%N :: a ++ 58%N :: b) = true) as ->.
    { apply (str_contains_char 58%N). set_solver. }
    assert (str_contains (py ":") (str_slice1 (35%N :: a ++ 58%N :: b)) = true)
      as ->.
    { apply (str_contains_char 58%N). unfold str_slice1. cbn [tail]. set_solver. }
    reflexivity.
  - intros a b Hs Hh Hp. rewrite canonicalize_token_str.
    unfold canonicalize_str. rewrite Hs, Hp, Hh.
    assert (str_contains (py ":") (a ++ py ":" ++ b) = true) as ->.
    { apply (str_contains_char 58%N).
      change (py ":" ++ b) with (58%N :: b). set_solver. }
    reflexivity.
Qed.

Lemma canonicalize_token_shapes_witness :
  canonicalize_token (PStr (py "fluid:minecraft:water"))
    = Ok (PStr (py "fluid:minecraft:water")) ∧
  canonicalize_token (PStr (py "#" ++ py "modB" ++ py ":" ++ py "dough"))
    = Ok (PStr (py "tag:" ++ py "modB" ++ py ":" ++ py "dough")) ∧
  canonicalize_token (PStr (py "modA" ++ py ":" ++ py "wheat"))
    = Ok (PStr (py "item:" ++ py "modA" ++ py ":" ++ py "wheat")).
Proof.
  split; [|split].
  - apply (proj1 canonicalize_token_shapes); reflexivity.
  - apply (proj1 (proj2 canonicalize_token_shapes)); reflexivity.
  - apply (proj2 (proj2 canonicalize_token_shapes)); reflexivity.
Defined.

(** C5 as stated fails: a prefixed string with trailing whitespace is not
    returned unchanged, a tag reference ['#a:b'] loses the whitespace that
    ends [b], and ['a:b'] with [a = "tag"] is taken as already canonical
    rather than mapped to ['item:tag:x']. *)
Lemma canonicalize_token_shapes_fail :
  (existsb (str_startswith (py "item:a ")) canonical_prefixes = true ∧
   canonicalize_token (PStr (py "item:a ")) = Ok (PStr (py "item:a")) ∧
   canonicalize_token (PStr (py "item:a ")) ≠ Ok (PStr (py "item:a "))) ∧
  (canonicalize_token (PStr (py "#" ++ py "a" ++ py ":" ++ py "b "))
     = Ok (PStr (py "tag:a:b")) ∧
   canonicalize_token (PStr (py "#" ++ py "a" ++ py ":" ++ py "b "))
     ≠ Ok (PStr (py "tag:" ++ py "a" ++ py ":" ++ py "b "))) ∧
  (canonicalize_token (PStr (py "tag" ++ py ":" ++ py "x"))
     = Ok (PStr (py "tag:x")) ∧
   canonicalize_token (PStr (py "tag" ++ py ":" ++ py "x"))
     ≠ Ok (PStr (py "item:" ++ py "tag" ++ py ":" ++ py "x"))).
Proof.
  repeat split; try reflexivity; vm_compute; discriminate.
Qed.

(** C10.  [canonicalize_token] is idempotent: applying it to its own result
    gives that result again. *)
Theorem canonicalize_token_idempotent (token : pyval) :
  canonicalize_token token ≫= canonicalize_token = canonicalize_token token.
Proof.
  destruct token; try reflexivity.
  rewrite canonicalize_token_str. cbn [mbind exc_bind].
  by rewrite canonicalize_token_str, canonicalize_str_idempotent.
Qed.

(* ------------------------------------------------------------------ *)
(** ** Extraction: the functions as defined *)
(* ------------------------------------------------------------------ *)

(** Induction over a JSON value and the values nested in it. *)
Lemma pyval_nested_ind (P : pyval → Prop) :
  P PNone → (∀ b, P (PBool b)) → (∀ z, P (PInt z)) → (∀ f, P (PFloat f)) →
  (∀ s, P (PStr s)) →
  (∀ l, Forall P l → P (PList l)) →
  (∀ d, Forall (λ kv, P kv.2) d → P (PDict d)) →
  ∀ v, P v.
Proof.
  intros HN HB HI HF HS HL HD. fix IH 1. intros [|b|z|f|s|l|d].
  - exact HN.
  - apply HB.
  - apply HI.
  - apply HF.
  - apply HS.
  - apply HL. induction l as [|x l IHl]; constructor; [apply IH|exact IHl].
  - apply HD. induction d as [|[k x] d IHd]; constructor; [apply IH|exact IHd].
Qed.

Lemma succeeds_ok {A : Type} (a : A) : succeeds (Ok a).
Proof. by exists a. Qed.

Lemma succeeds_bind {A B : Type} (m : exc A) (k : A → exc B) :
  succeeds m → (∀ a, m = Ok a → succeeds (k a)) → succeeds (m ≫= k).
Proof. intros [a ->] Hk. by apply Hk. Qed.

Lemma succeeds_for_each {A S : Type} (body : S → A → exc S) (l : list A) :
  Forall (λ x, ∀ s, succeeds (body s x)) l →
  ∀ s, succeeds (for_each body l s).
Proof.
  induction 1 as [|x l Hx _ IH]; intros s; [apply succeeds_ok|].
  cbn [for_each]. apply succeeds_bind; [apply Hx|]. intros s' _. apply IH.
Qed.

Lemma succeeds_py_any (f : pyval → exc bool) (l : list pyval) :
  (∀ x, succeeds (f x)) → succeeds (py_any f l).
Proof.
  intros Hf. induction l as [|x l IH]; [apply succeeds_ok|].
  cbn [py_any]. apply succeeds_bind; [apply Hf|].
  intros [] _; [apply succeeds_ok|apply IH].
Qed.

Lemma is_item_id_eq (v : pyval) : is_item_id v = Ok (item_idb v).
Proof.
  destruct v; try reflexivity. unfold is_item_id, item_idb.
  cbn [isinstance_str and_then py_in mbind exc_bind py_startswith fmap exc_fmap].
  by destruct (str_contains (py ":") s).
Qed.

Lemma is_tag_id_eq (v : pyval) : is_tag_id v = Ok (item_idb v).
Proof. apply is_item_id_eq. Qed.

Lemma item_idb_str (v : pyval) : item_idb v = true → ∃ s, v = PStr s.
Proof. destruct v; try discriminate. by eexists. Qed.

Lemma succeeds_set_add (out : gset pystr) (v : pyval) :
  item_idb v = true → succeeds (set_add out v).
Proof. intros [s ->]%item_idb_str. apply succeeds_ok. Qed.

Lemma succeeds_item_field (x : pyval) :
  succeeds (and_then (isinstance_dict x) (has_item_field x)).
Proof.
  destruct x; try apply succeeds_ok.
  unfold has_item_field. cbn [isinstance_dict and_then py_in mbind exc_bind].
  destruct (dict_has d (py "item")), (dict_has d (py "id"));
    apply succeeds_ok.
Qed.

(** The step [if is_item_id(v): out.add(v)]. *)
Lemma succeeds_add_if_item (out : gset pystr) (v : pyval) :
  succeeds (b ← is_item_id v; if b : bool then set_add out v else Ok out).
Proof.
  rewrite is_item_id_eq. cbn [mbind exc_bind].
  destruct (item_idb v) eqn:E; [by apply succeeds_set_add|apply succeeds_ok].
Qed.

Lemma from_result_obj_list (l : list pyval) :
  from_result_obj (PList l)
  = for_each (λ out el, r ← from_result_obj el; Ok (out ∪ r)) l ∅.
Proof. reflexivity. Qed.

Lemma succeeds_from_result_obj (obj : pyval) : succeeds (from_result_obj obj).
Proof.
  induction obj as [| | | |s|l IH|d IH] using pyval_nested_ind;
    try apply succeeds_ok.
  - cbn [from_result_obj is_None]. apply succeeds_add_if_item.
  - rewrite from_result_obj_list. apply succeeds_for_each.
    eapply Forall_impl; [apply IH|]. intros el Hel out. cbn beta.
    apply succeeds_bind; [done|]. intros; apply succeeds_ok.
  - cbn [from_result_obj is_None]. rewrite (is_item_id_eq (PDict d)).
    cbn [item_idb mbind exc_bind py_get].
    rewrite is_item_id_eq. cbn [mbind exc_bind].
    apply succeeds_bind.
    { destruct (item_idb (dict_get d (py "item"))) eqn:E;
        [by apply succeeds_set_add|apply succeeds_ok]. }
    intros out _.
    apply succeeds_bind.
    { apply succeeds_for_each. repeat constructor; intros;
        apply succeeds_add_if_item. }
    intros out' _. revert out'.
    apply succeeds_for_each.
    eapply Forall_impl; [apply IH|]. intros [k v] Hv acc. cbn [snd] in Hv.
    destruct (isinstance_dict v || isinstance_list v || isinstance_str v);
      [|apply succeeds_ok].
    apply succeeds_bind; [apply succeeds_item_field|]. intros [] _.
    { apply succeeds_bind; [done|]. intros; apply succeeds_ok. }
    destruct v; try apply succeeds_ok. cbn [isinstance_list py_iter mbind exc_bind].
    apply succeeds_bind.
    { apply succeeds_py_any. intros x. apply succeeds_item_field. }
    intros [] _; [|apply succeeds_ok].
    apply succeeds_bind; [done|]. intros; apply succeeds_ok.
Qed.

Lemma succeeds_if {A : Type} (b : bool) (m1 m2 : exc A) :
  (b = true → succeeds m1) → (b = false → succeeds m2) →
  succeeds (if b then m1 else m2).
Proof. destruct b; auto. Qed.

(** Peels one layer off a goal [succeeds _]. *)
Ltac succeeds_step :=
  first
    [ apply succeeds_ok
    | apply succeeds_from_result_obj
    | apply succeeds_bind; [|intros ? _]
    | apply succeeds_if; intros ? ].

Lemma succeeds_extract_outputs (recipe : pyval) :
  succeeds (extract_outputs recipe).
Proof.
  destruct recipe; try apply succeeds_ok.
  unfold extract_outputs.
  cbn [isinstance_dict negb py_in py_get mbind exc_bind].
  repeat succeeds_step.
Qed.

Lemma dict_has_get (d : list (pystr * pyval)) (k : pystr) :
  dict_get d k ≠ PNone → dict_has d k = true.
Proof.
  induction d as [|[k' v] d IH]; [done|]. simpl.
  destruct (decide (k' = k)); auto.
Qed.

Lemma py_getitem_has (d : list (pystr * pyval)) (k : pystr) :
  dict_has d k = true → py_getitem (PDict d) k = Ok (dict_get d k).
Proof. intros H. unfold py_getitem. by rewrite H. Qed.

Lemma dict_find_eq {A : Type} (k : pystr) (absent : A) (present : pyval → A)
    (d : list (pystr * pyval)) :
  dict_find k absent present d
  = if dict_has d k then present (dict_get d k) else absent.
Proof.
  induction d as [|[k' v] d IH]; [done|]. simpl.
  destruct (decide (k' = k)); auto.
Qed.

Lemma dict_get_elem (d : list (pystr * pyval)) (k : pystr) :
  dict_has d k = true → ∃ k', (k', dict_get d k) ∈ d.
Proof.
  induction d as [|[k' v] d IH]; [done|]. simpl.
  destruct (decide (k' = k)).
  - intros _. exists k'. by left.
  - intros [k'' H]%IH. exists k''. by right.
Qed.

Lemma tag_from_hash_cases (v : pyval) :
  tag_from_hash v = Ok PNone ∨ ∃ s, tag_from_hash v = Ok (PStr s).
Proof.
  destruct v; try (by left). unfold tag_from_hash.
  cbn [isinstance_str and_then py_startswith py_slice1 py_in mbind exc_bind].
  destruct (str_startswith s (py "#")); cbn [and_then mbind exc_bind];
    [|by left].
  destruct (str_contains (py ":") (str_slice1 s)); [right|left]; eauto.
Qed.

Lemma succeeds_token_from_item_id (v : pyval) :
  item_idb v = true → succeeds (token_from_item_id v).
Proof. intros [s ->]%item_idb_str. apply succeeds_ok. Qed.

Lemma succeeds_token_from_tag_id (v : pyval) :
  item_idb v = true → succeeds (token_from_tag_id v).
Proof. intros [s ->]%item_idb_str. apply succeeds_ok. Qed.

Lemma succeeds_token_from_fluid_id (v : pyval) :
  item_idb v = true → succeeds (token_from_fluid_id v).
Proof. intros [s ->]%item_idb_str. apply succeeds_ok. Qed.

(** The guard ["k" in obj and is_item_id(obj.get("k"))]. *)
Lemma key_is_item_eq (d : list (pystr * pyval)) (k : pystr) :
  (h ← py_in k (PDict d);
   and_then h (v ← py_get (PDict d) k; is_item_id v))
  = Ok (dict_has d k && item_idb (dict_get d k)).
Proof.
  cbn [py_in py_get mbind exc_bind]. rewrite is_item_id_eq.
  by destruct (dict_has d k).
Qed.

Lemma key_is_tag_eq (d : list (pystr * pyval)) (k : pystr) :
  (h ← py_in k (PDict d);
   and_then h (v ← py_get (PDict d) k; is_tag_id v))
  = Ok (dict_has d k && item_idb (dict_get d k)).
Proof. apply key_is_item_eq. Qed.

Lemma collect_from_ingredient_obj_list (l : list pyval) (out : list pystr) :
  collect_from_ingredient_obj (PList l) out
  = for_each (λ out el, collect_from_ingredient_obj el out) l out.
Proof. reflexivity. Qed.

Lemma succeeds_collect_from_ingredient_obj (obj : pyval) :
  ∀ out, succeeds (collect_from_ingredient_obj obj out).
Proof.
  induction obj as [| | | |s|l IH|d IH] using pyval_nested_ind; intros out;
    try apply succeeds_ok.
  - cbn [collect_from_ingredient_obj is_None isinstance_str].
    destruct (tag_from_hash_cases (PStr s)) as [->|[t ->]];
      cbn [mbind exc_bind truthy].
    + rewrite is_item_id_eq. cbn [mbind exc_bind]. repeat succeeds_step.
    + destruct t; [|repeat succeeds_step].
      rewrite is_item_id_eq. cbn [mbind exc_bind]. repeat succeeds_step.
  - rewrite collect_from_ingredient_obj_list. by apply succeeds_for_each.
  - cbn [collect_from_ingredient_obj is_None isinstance_str].
    rewrite key_is_item_eq, key_is_tag_eq. cbn [mbind exc_bind].
    apply succeeds_bind.
    { apply succeeds_if; [|intros; apply succeeds_ok].
      intros [Hh Hi]%andb_true_iff. rewrite py_getitem_has by done.
      cbn [mbind exc_bind].
      apply succeeds_bind; [by apply succeeds_token_from_item_id|].
      intros; apply succeeds_ok. }
    intros out1 _. apply succeeds_bind.
    { apply succeeds_if; [|intros; apply succeeds_ok].
      intros [Hh Hi]%andb_true_iff. rewrite py_getitem_has by done.
      cbn [mbind exc_bind].
      apply succeeds_bind; [by apply succeeds_token_from_tag_id|].
      intros; apply succeeds_ok. }
    intros out2 _. apply succeeds_bind.
    { apply succeeds_for_each. repeat constructor; intros acc;
        cbn [py_get mbind exc_bind]; rewrite is_item_id_eq;
        cbn [mbind exc_bind];
        (apply succeeds_if; [|intros; apply succeeds_ok]);
        intros Hi;
        (apply succeeds_bind; [by apply succeeds_token_from_item_id|]);
        intros; apply succeeds_ok. }
    intros out3 _. rewrite dict_find_eq.
    apply succeeds_if; [|intros; apply succeeds_ok]. intros Hh.
    apply dict_get_elem in Hh as [k' Hin].
    rewrite Forall_forall in IH. specialize (IH _ Hin). cbn [snd] in IH.
    destruct (dict_get d (py "items")); try apply succeeds_ok.
    rewrite <-collect_from_ingredient_obj_list. apply IH.
Qed.

Lemma collect_from_fluid_obj_list (l : list pyval) (out : list pystr) :
  collect_from_fluid_obj (PList l) out
  = for_each (λ out el, collect_from_fluid_obj el out) l out.
Proof. reflexivity. Qed.

(** The step [if is_item_id(v): out.append(token_from_fluid_id(v))]. *)
Lemma succeeds_append_if_fluid (out : list pystr) (v : pyval) :
  succeeds (b ← is_item_id v;
            if b : bool then tok ← token_from_fluid_id v; Ok (append out tok)
            else Ok out).
Proof.
  rewrite is_item_id_eq. cbn [mbind exc_bind].
  apply succeeds_if; [|intros; apply succeeds_ok]. intros Hi.
  apply succeeds_bind; [by apply succeeds_token_from_fluid_id|].
  intros; apply succeeds_ok.
Qed.

Lemma succeeds_collect_from_fluid_obj (obj : pyval) :
  ∀ out, succeeds (collect_from_fluid_obj obj out).
Proof.
  induction obj as [| | | |s|l IH|d IH] using pyval_nested_ind; intros out;
    try apply succeeds_ok.
  - cbn [collect_from_fluid_obj is_None isinstance_str].
    apply succeeds_append_if_fluid.
  - rewrite collect_from_fluid_obj_list. by apply succeeds_for_each.
  - cbn [collect_from_fluid_obj is_None isinstance_str py_get mbind exc_bind].
    rewrite is_item_id_eq. cbn [mbind exc_bind].
    apply succeeds_bind.
    { apply succeeds_if; [|intros; apply succeeds_ok]. intros Hi.
      apply succeeds_bind; [by apply succeeds_token_from_fluid_id|].
      intros; apply succeeds_ok. }
    intros out1 _. apply succeeds_bind.
    { destruct (dict_get d (py "fluids")); try apply succeeds_ok.
      cbn [isinstance_list py_iter mbind exc_bind].
      apply succeeds_for_each, Forall_forall. intros el _ acc.
      apply succeeds_append_if_fluid. }
    intros out2 _. apply succeeds_bind.
    { apply succeeds_if; intros; apply succeeds_ok. }
    intros ft _. rewrite is_tag_id_eq. cbn [mbind exc_bind].
    apply succeeds_if; [|intros; apply succeeds_ok]. intros Hi.
    apply succeeds_bind; [by apply succeeds_token_from_tag_id|].
    intros; apply succeeds_ok.
Qed.

Lemma isinstance_has (d : list (pystr * pyval)) (k : pystr) :
  isinstance_list (dict_get d k) = true ∨ isinstance_dict (dict_get d k) = true →
  dict_has d k = true.
Proof.
  intros H. apply dict_has_get. intros E. rewrite E in H. by destruct H.
Qed.

Lemma succeeds_extract_direct_ingredient_tokens (recipe : pyval) :
  succeeds (extract_direct_ingredient_tokens recipe).
Proof.
  destruct recipe; try apply succeeds_ok.
  unfold extract_direct_ingredient_tokens.
  cbn [isinstance_dict negb py_in py_get mbind exc_bind].
  apply succeeds_bind.
  { destruct (dict_has d (py "pattern")); apply succeeds_ok. }
  intros c Hc. apply succeeds_bind.
  { apply succeeds_if; [|intros; apply succeeds_ok]. intros ->.
    destruct (dict_has d (py "pattern")); [|discriminate].
    cbn [and_then] in Hc. injection Hc as Hc.
    rewrite py_getitem_has by (apply isinstance_has; auto).
    cbn [mbind exc_bind].
    destruct (dict_get d (py "key")); try discriminate.
    cbn [py_values mbind exc_bind].
    apply succeeds_for_each, Forall_forall. intros ing _ acc.
    apply succeeds_collect_from_ingredient_obj. }
  intros tokens1 _. apply succeeds_bind.
  { apply succeeds_if; [|intros; apply succeeds_ok]. intros Hl.
    rewrite py_getitem_has by (apply isinstance_has; auto).
    cbn [mbind exc_bind].
    destruct (dict_get d (py "ingredients")); try discriminate.
    cbn [py_iter mbind exc_bind].
    apply succeeds_for_each, Forall_forall. intros ing _ acc.
    apply succeeds_collect_from_ingredient_obj. }
  intros tokens2 _. apply succeeds_bind.
  { apply succeeds_if; [|intros; apply succeeds_ok]. intros _.
    apply succeeds_collect_from_ingredient_obj. }
  intros tokens3 _. apply succeeds_bind.
  { apply succeeds_if; [|intros; apply succeeds_ok]. intros _.
    apply succeeds_bind; [apply succeeds_collect_from_ingredient_obj|].
    intros; apply succeeds_collect_from_fluid_obj. }
  intros tokens4 _. apply succeeds_bind.
  { apply succeeds_if; [|intros; apply succeeds_ok]. intros Hl.
    rewrite py_getitem_has by (apply isinstance_has; auto).
    cbn [mbind exc_bind].
    destruct (dict_get d (py "inputs")); try discriminate.
    cbn [py_iter mbind exc_bind].
    apply succeeds_for_each, Forall_forall. intros ing _ acc.
    apply succeeds_bind; [apply succeeds_collect_from_ingredient_obj|].
    intros; apply succeeds_collect_from_fluid_obj. }
  intros tokens5 _.
  apply succeeds_for_each, Forall_forall. intros k _ acc.
  cbn [py_in py_get mbind exc_bind].
  apply succeeds_if; [|intros; apply succeeds_ok]. intros _.
  apply succeeds_collect_from_fluid_obj.
Qed.


(* ------------------------------------------------------------------ *)
(** ** Extraction on a bounded stack *)
(* ------------------------------------------------------------------ *)

Lemma depth_elem (l : list pyval) (x : pyval) :
  x ∈ l → depth x < depth (PList l).
Proof.
  cbn [depth]. induction 1 as [x l|x y l _ IH]; cbn [foldr]; lia.
Qed.

Lemma depth_value (d : list (pystr * pyval)) (k : pystr) (v : pyval) :
  (k, v) ∈ d → depth v < depth (PDict d).
Proof.
  cbn [depth]. induction d as [|[k' v'] d IH]; [by intros ?%elem_of_nil|].
  cbn [foldr]. intros [[= <- <-]|Hin%IH]%elem_of_cons; lia.
Qed.

Lemma depth_dict_get (d : list (pystr * pyval)) (k : pystr) :
  depth (dict_get d k) < depth (PDict d).
Proof.
  destruct (dict_has d k) eqn:E.
  - apply dict_get_elem in E as [k' Hin]. by apply (depth_value d k').
  - assert (dict_get d k = PNone) as ->; [|cbn [depth]; lia].
    destruct (dict_get d k) eqn:Hg; try done;
      (assert (dict_has d k = true) as Hh by (apply dict_has_get; congruence));
      congruence.
Qed.

Lemma fits_refl {A : Type} (exact : bool) (m : exc A) : fits exact m m.
Proof. by left. Qed.

Lemma fits_bind {A B : Type} (exact : bool) (m m' : exc A)
    (k k' : A → exc B) :
  fits exact m m' → (∀ a, fits exact (k a) (k' a)) →
  fits exact (m ≫= k) (m' ≫= k').
Proof.
  intros [->|[-> ->]] Hk; [|by right].
  destruct m' as [a|e]; [apply Hk|by left].
Qed.

Lemma fits_for_each {A S : Type} (exact : bool) (body body' : S → A → exc S)
    (l : list A) :
  (∀ s x, x ∈ l → fits exact (body s x) (body' s x)) →
  ∀ s, fits exact (for_each body l s) (for_each body' l s).
Proof.
  induction l as [|x l IH]; intros Hb s; [by left|].
  cbn [for_each]. apply fits_bind; [apply Hb; by left|].
  intros s'. apply IH. intros s'' y Hy. apply Hb. by right.
Qed.

Lemma fits_dict_find {A : Type} (exact : bool) (k : pystr)
    (absent : exc A) (present present' : pyval → exc A)
    (d : list (pystr * pyval)) :
  (∀ k' v, (k', v) ∈ d → fits exact (present v) (present' v)) →
  fits exact (dict_find k absent present d) (dict_find k absent present' d).
Proof.
  induction d as [|[k' v] d IH]; intros Hp; [by left|].
  cbn [dict_find]. destruct (decide (k' = k)).
  - apply (Hp k'). by left.
  - apply IH. intros k'' v' Hin. apply (Hp k''). by right.
Qed.

Lemma fits_call {A B : Type} (exact : bool) (frames : nat) (f : A → exc B)
    (x : A) :
  (exact = true → 0 < frames) → fits exact (call frames f x) (f x).
Proof.
  intros H. destruct frames; [|by left].
  destruct exact; [specialize (H eq_refl); lia|by right].
Qed.

(** Proves that frames are left from the bounds on the nesting depth. *)
Ltac enough_frames :=
  let E := fresh in
  intros E;
  repeat match goal with
         | H : _ = true → _ |- _ => specialize (H E)
         end;
  cbn [depth] in *; lia.

(** Peels one layer off a goal [fits _ _ _] whose two sides run the same
    code. *)
Ltac fits_step :=
  first
    [ apply fits_refl
    | apply fits_call; enough_frames
    | apply fits_bind; [|intros ?]
    | match goal with
      | |- fits _ (if ?c then _ else _) (if ?c then _ else _) =>
          destruct c eqn:?
      end ].

Lemma fits_from_result_obj (exact : bool) (frames : nat) :
  ∀ obj, (exact = true → depth obj + 2 ≤ frames) →
  fits exact (from_result_obj_frames frames obj) (from_result_obj obj).
Proof.
  induction frames as [|frames IH]; intros obj Hd.
  { destruct exact; [specialize (Hd eq_refl); lia|by right]. }
  destruct obj as [| | | |s|l|d];
    cbn [from_result_obj_frames from_result_obj is_None];
    try (repeat fits_step; fail).
  - (* list *)
    repeat fits_step. apply fits_for_each. intros out el Hel.
    apply fits_bind; [|intros; apply fits_refl].
    apply IH. intros E. specialize (Hd E).
    pose proof (depth_elem _ _ Hel). lia.
  - (* object *)
    apply fits_bind; [fits_step|]. intros [|]; [apply fits_refl|].
    cbn [py_get mbind exc_bind].
    apply fits_bind; [fits_step|]. intros b.
    apply fits_bind; [apply fits_refl|]. intros out0.
    apply fits_bind.
    { apply fits_for_each. intros out k _. repeat fits_step. }
    intros out1. apply fits_for_each. intros out [k v] Hin.
    pose proof (depth_value _ _ _ Hin) as Hv.
    assert (exact = true → depth v + 2 ≤ frames) as Hv'
      by (intros E; specialize (Hd E); lia).
    destruct (isinstance_dict v || isinstance_list v || isinstance_str v);
      [|apply fits_refl].
    apply fits_bind; [apply fits_refl|]. intros [|].
    { apply fits_bind; [by apply IH|intros; apply fits_refl]. }
    destruct (isinstance_list v); [|apply fits_refl].
    apply fits_bind; [apply fits_refl|]. intros xs.
    apply fits_bind; [fits_step|]. intros [|]; [|apply fits_refl].
    apply fits_bind; [by apply IH|intros; apply fits_refl].
Qed.

Lemma fits_collect_from_ingredient_obj (exact : bool) (frames : nat) :
  ∀ obj out, (exact = true → depth obj + 2 ≤ frames) →
  fits exact (collect_from_ingredient_obj_frames frames obj out)
    (collect_from_ingredient_obj obj out).
Proof.
  induction frames as [|frames IH]; intros obj out Hd.
  { destruct exact; [specialize (Hd eq_refl); lia|by right]. }
  destruct obj as [| | | |s|l|d];
    cbn [collect_from_ingredient_obj_frames collect_from_ingredient_obj
         is_None isinstance_str];
    try apply fits_refl.
  - (* string *)
    repeat fits_step.
  - (* list *)
    apply fits_for_each. intros acc el Hel.
    apply IH. intros E. specialize (Hd E).
    pose proof (depth_elem _ _ Hel). lia.
  - (* object *)
    cbn [py_in py_get mbind exc_bind].
    apply fits_bind.
    { destruct (dict_has d (py "item")); cbn [and_then]; fits_step. }
    intros c1. apply fits_bind; [repeat fits_step|]. intros out1.
    apply fits_bind.
    { destruct (dict_has d (py "tag")); cbn [and_then]; fits_step. }
    intros c2. apply fits_bind; [repeat fits_step|]. intros out2.
    apply fits_bind.
    { apply fits_for_each. intros acc k _. repeat fits_step. }
    intros out3. apply fits_dict_find. intros k' items Hin.
    destruct items as [| | | | |els|]; try apply fits_refl.
    apply fits_for_each. intros acc el Hel.
    apply IH. intros E. specialize (Hd E).
    pose proof (depth_value _ _ _ Hin). pose proof (depth_elem _ _ Hel). lia.
Qed.

Lemma fits_collect_from_fluid_obj (exact : bool) (frames : nat) :
  ∀ obj out, (exact = true → depth obj + 2 ≤ frames) →
  fits exact (collect_from_fluid_obj_frames frames obj out)
    (collect_from_fluid_obj obj out).
Proof.
  induction frames as [|frames IH]; intros obj out Hd.
  { destruct exact; [specialize (Hd eq_refl); lia|by right]. }
  destruct obj as [| | | |s|l|d];
    cbn [collect_from_fluid_obj_frames collect_from_fluid_obj
         is_None isinstance_str];
    try apply fits_refl.
  - (* string *)
    repeat fits_step.
  - (* list *)
    apply fits_for_each. intros acc el Hel.
    apply IH. intros E. specialize (Hd E).
    pose proof (depth_elem _ _ Hel). lia.
  - (* object *)
    cbn [py_get mbind exc_bind].
    apply fits_bind; [fits_step|]. intros b.
    apply fits_bind; [repeat fits_step|]. intros out1.
    apply fits_bind.
    { destruct (isinstance_list (dict_get d (py "fluids")));
        [|apply fits_refl].
      apply fits_bind; [apply fits_refl|]. intros els.
      apply fits_for_each. intros acc el _. repeat fits_step. }
    intros out2. apply fits_bind; [apply fits_refl|]. intros ft.
    repeat fits_step.
Qed.

Lemma fits_extract_outputs (exact : bool) (frames : nat) (recipe : pyval) :
  (exact = true → depth recipe + 2 ≤ frames) →
  fits exact (extract_outputs_frames frames recipe) (extract_outputs recipe).
Proof.
  intros Hd. destruct frames as [|frames].
  { destruct exact; [specialize (Hd eq_refl); lia|by right]. }
  destruct recipe as [| | | | | |d]; try apply fits_refl.
  unfold extract_outputs_frames, extract_outputs.
  cbn [isinstance_dict negb py_in py_get mbind exc_bind].
  assert (∀ k, fits exact (from_result_obj_frames frames (dict_get d k))
                 (from_result_obj (dict_get d k))) as Hk.
  { intros k. apply fits_from_result_obj. intros E. specialize (Hd E).
    pose proof (depth_dict_get d k). lia. }
  apply fits_bind.
  { destruct (dict_has d (py "result")); [|apply fits_refl].
    apply fits_bind; [apply Hk|intros; apply fits_refl]. }
  intros o1. apply fits_bind.
  { destruct (dict_has d (py "results")); [|apply fits_refl].
    apply fits_bind; [apply Hk|intros; apply fits_refl]. }
  intros o2. destruct (bool_decide (o2 = ∅)); [|apply fits_refl].
  apply fits_bind.
  { destruct (dict_has d (py "output")); [|apply fits_refl].
    apply fits_bind; [apply Hk|intros; apply fits_refl]. }
  intros o3. destruct (dict_has d (py "outputs")); [|apply fits_refl].
  apply fits_bind; [apply Hk|intros; apply fits_refl].
Qed.

Lemma fits_bind_eq {A B : Type} (exact : bool) (m : exc A)
    (k k' : A → exc B) :
  (∀ a, m = Ok a → fits exact (k a) (k' a)) →
  fits exact (m ≫= k) (m ≫= k').
Proof. intros Hk. destruct m as [a|e]; [by apply Hk|by left]. Qed.

Lemma py_getitem_inv (d : list (pystr * pyval)) (k : pystr) (v : pyval) :
  py_getitem (PDict d) k = Ok v → v = dict_get d k.
Proof. cbn [py_getitem]. by destruct (dict_has d k); intros [= <-]. Qed.

Lemma py_iter_depth (v : pyval) (els : list pyval) (x : pyval) :
  py_iter v = Ok els → x ∈ els → depth x ≤ depth v.
Proof.
  destruct v; try discriminate; intros [= <-] Hx.
  - apply list_elem_of_fmap in Hx as (c & -> & _). cbn [depth]. lia.
  - pose proof (depth_elem _ _ Hx). lia.
  - apply list_elem_of_fmap in Hx as (kv & -> & _). cbn [depth]. lia.
Qed.

Lemma py_values_depth (v : pyval) (vals : list pyval) (x : pyval) :
  py_values v = Ok vals → x ∈ vals → depth x ≤ depth v.
Proof.
  destruct v; try discriminate; intros [= <-] Hx.
  apply list_elem_of_fmap in Hx as ([k y] & -> & Hin).
  pose proof (depth_value _ _ _ Hin). cbn [snd]. lia.
Qed.

Lemma fits_extract_direct_ingredient_tokens (exact : bool) (frames : nat)
    (recipe : pyval) :
  (exact = true → depth recipe + 2 ≤ frames) →
  fits exact (extract_direct_ingredient_tokens_frames frames recipe)
    (extract_direct_ingredient_tokens recipe).
Proof.
  intros Hd. destruct frames as [|frames].
  { destruct exact; [specialize (Hd eq_refl); lia|by right]. }
  destruct recipe as [| | | | | |d]; try apply fits_refl.
  unfold extract_direct_ingredient_tokens_frames,
    extract_direct_ingredient_tokens.
  cbn [isinstance_dict negb py_in py_get mbind exc_bind].
  assert (∀ ing out, depth ing < depth (PDict d) →
    fits exact (collect_from_ingredient_obj_frames frames ing out)
      (collect_from_ingredient_obj ing out)) as Hi.
  { intros ing out Hing. apply fits_collect_from_ingredient_obj.
    intros E. specialize (Hd E). lia. }
  assert (∀ ing out, depth ing < depth (PDict d) →
    fits exact (collect_from_fluid_obj_frames frames ing out)
      (collect_from_fluid_obj ing out)) as Hf.
  { intros ing out Hing. apply fits_collect_from_fluid_obj.
    intros E. specialize (Hd E). lia. }
  pose proof (depth_dict_get d) as Hget.
  apply fits_bind; [apply fits_refl|]. intros c.
  apply fits_bind.
  { destruct c; [|apply fits_refl].
    apply fits_bind_eq. intros key ->%py_getitem_inv.
    apply fits_bind_eq. intros vals Hvals.
    apply fits_for_each. intros acc ing Hing. apply Hi.
    pose proof (py_values_depth _ _ _ Hvals Hing).
    specialize (Hget (py "key")). lia. }
  intros tokens1. apply fits_bind.
  { destruct (isinstance_list (dict_get d (py "ingredients")));
      [|apply fits_refl].
    apply fits_bind_eq. intros l ->%py_getitem_inv.
    apply fits_bind_eq. intros els Hels.
    apply fits_for_each. intros acc ing Hing. apply Hi.
    pose proof (py_iter_depth _ _ _ Hels Hing).
    specialize (Hget (py "ingredients")). lia. }
  intros tokens2. apply fits_bind.
  { destruct (dict_has d (py "ingredient")); [|apply fits_refl].
    apply Hi, Hget. }
  intros tokens3. apply fits_bind.
  { destruct (dict_has d (py "input")); [|apply fits_refl].
    apply fits_bind; [apply Hi, Hget|]. intros tokens. apply Hf, Hget. }
  intros tokens4. apply fits_bind.
  { destruct (isinstance_list (dict_get d (py "inputs")));
      [|apply fits_refl].
    apply fits_bind_eq. intros l ->%py_getitem_inv.
    apply fits_bind_eq. intros els Hels.
    apply fits_for_each. intros acc ing Hing.
    pose proof (py_iter_depth _ _ _ Hels Hing).
    specialize (Hget (py "inputs")).
    apply fits_bind; [apply Hi; lia|]. intros tokens. apply Hf. lia. }
  intros tokens5. apply fits_for_each. intros acc k _.
  destruct (dict_has d k); [|apply fits_refl]. apply Hf, Hget.
Qed.

Lemma fits_exact {A : Type} (m m' : exc A) : fits true m m' → m = m'.
Proof. by intros [?|[[=] _]]. Qed.

Lemma fits_succeeds {A : Type} (exact : bool) (m m' : exc A) (e : pyexn) :
  fits exact m m' → succeeds m' → m = Raise e → e = RecursionError.
Proof.
  intros [->|[_ ->]] [a ->]; [discriminate|]. by intros [= <-].
Qed.

(** With enough frames left, the extractors on a bounded stack are the
    extractors as the source defines them. *)
Lemma extract_outputs_frames_enough (frames : nat) (recipe : pyval) :
  depth recipe + 2 ≤ frames →
  extract_outputs_frames frames recipe = extract_outputs recipe.
Proof. intros Hd. by apply (fits_exact _ _), fits_extract_outputs. Qed.

Lemma extract_direct_ingredient_tokens_frames_enough (frames : nat)
    (recipe : pyval) :
  depth recipe + 2 ≤ frames →
  extract_direct_ingredient_tokens_frames frames recipe
  = extract_direct_ingredient_tokens recipe.
Proof.
  intros Hd. by apply (fits_exact _ _), fits_extract_direct_ingredient_tokens.
Qed.



Lemma collect_from_fluid_obj_frames_nest (frames n : nat) (v : pyval)
    (out : list pystr) :
  frames ≤ n →
  collect_from_fluid_obj_frames frames (nest n v) out = Raise RecursionError.
Proof.
  revert n. induction frames as [|frames IH]; intros n Hn; [done|].
  destruct n as [|n]; [lia|].
  cbn [nest collect_from_fluid_obj_frames is_None isinstance_str for_each].
  rewrite IH by lia. done.
Qed.





(* ------------------------------------------------------------------ *)
(** ** Direct map *)
(* ------------------------------------------------------------------ *)

Lemma extract_outputs_of (recipe : pyval) :
  extract_outputs recipe = Ok (outputs_of recipe).
Proof.
  unfold outputs_of. by destruct (succeeds_extract_outputs recipe) as [o ->].
Qed.

Lemma extract_tokens_of (recipe : pyval) :
  extract_direct_ingredient_tokens recipe = Ok (tokens_of recipe).
Proof.
  unfold tokens_of.
  by destruct (succeeds_extract_direct_ingredient_tokens recipe) as [o ->].
Qed.

Lemma canonicalize_tokens_eq (tokens : list pystr) :
  canonicalize_tokens tokens = Ok (canonicalize_str <$> tokens).
Proof.
  unfold canonicalize_tokens.
  induction tokens as [|t tokens IH]; [done|].
  cbn [mapM]. rewrite canonicalize_token_str. cbn [mbind exc_bind as_str].
  by rewrite IH.
Qed.

Section merge.
Implicit Types (direct_map : gmap pystr (gset pystr)).
Implicit Types (outputs : gset pystr) (tokens : list pystr).

(** One round of the loop of [merge_direct_map]. *)
Lemma merge_round_lookup direct_map (added : gset pystr) (out k : pystr) :
  alter (λ s, s ∪ added) out
    (match direct_map !! out with
     | None => <[out := ∅]> direct_map
     | Some _ => direct_map
     end) !! k
  = if decide (k = out)
    then Some (default ∅ (direct_map !! out) ∪ added)
    else direct_map !! k.
Proof.
  destruct (decide (k = out)) as [->|Hne].
  - rewrite lookup_alter_eq.
    destruct (direct_map !! out) as [s|] eqn:E.
    + by rewrite E.
    + by rewrite lookup_insert_eq.
  - rewrite lookup_alter_ne by done.
    destruct (direct_map !! out); [done|]. by rewrite lookup_insert_ne.
Qed.

Lemma merge_rounds_lookup direct_map (added : gset pystr)
    (outs : list pystr) (k : pystr) :
  foldl (λ direct_map out,
      let direct_map :=
        match direct_map !! out with
        | None => <[out := ∅]> direct_map
        | Some _ => direct_map
        end in
      alter (λ s, s ∪ added) out direct_map) direct_map outs !! k
  = if decide (k ∈ outs)
    then Some (default ∅ (direct_map !! k) ∪ added)
    else direct_map !! k.
Proof.
  revert direct_map. induction outs as [|out outs IH]; intros direct_map.
  - cbn [foldl]. by rewrite decide_False by apply not_elem_of_nil.
  - cbn [foldl]. rewrite IH, merge_round_lookup.
    destruct (decide (k = out)) as [->|Hne].
    + rewrite (decide_True (P := out ∈ out :: outs)) by left.
      destruct (decide (out ∈ outs)); [|done].
      cbn [default]. f_equal. set_solver.
    + destruct (decide (k ∈ outs)) as [Hin|Hnin].
      * by rewrite decide_True by by right.
      * rewrite decide_False; [done|].
        intros [?|?]%elem_of_cons; done.
Qed.

(** The entry of every key after a merge. *)
Lemma merge_direct_map_lookup direct_map outputs tokens (k : pystr) :
  merge_direct_map direct_map outputs tokens !! k
  = if decide (k ∈ outputs ∧ tokens ≠ [])
    then Some (default ∅ (direct_map !! k) ∪ list_to_set tokens)
    else direct_map !! k.
Proof.
  unfold merge_direct_map.
  destruct (bool_decide (outputs = ∅) || bool_decide (tokens = [])) eqn:E.
  - apply orb_true_iff in E as [E|E]; apply bool_decide_eq_true in E;
      subst; rewrite decide_False; auto; intros [? ?]; set_solver.
  - apply orb_false_iff in E as [E1 E2].
    apply bool_decide_eq_false in E1, E2.
    rewrite merge_rounds_lookup.
    destruct (decide (k ∈ elements outputs)) as [Hin|Hnin].
    + rewrite decide_True; [done|]. split; [set_solver|done].
    + rewrite decide_False; [done|]. intros [? _]. set_solver.
Qed.

End merge.

Lemma finalize_direct_map_lookup (direct_map : gmap pystr (gset pystr))
    (k : pystr) :
  finalize_direct_map direct_map !! k
  = (λ tokens, sorted (elements tokens)) <$> direct_map !! k.
Proof.
  unfold finalize_direct_map. revert k.
  apply (map_fold_weak_ind (λ r m, ∀ k, r !! k = _ <$> m !! k)).
  - intros k. by rewrite !lookup_empty.
  - intros i x m r Hi IH k. destruct (decide (k = i)) as [->|Hne].
    + by rewrite !lookup_insert_eq.
    + by rewrite !lookup_insert_ne.
Qed.

Lemma elem_of_sorted (x : pystr) (xs : list pystr) : x ∈ sorted xs ↔ x ∈ xs.
Proof. unfold sorted. by rewrite merge_sort_Permutation. Qed.


Lemma build_direct_map_eq (recipes : list recipe_entry) :
  build_direct_map recipes = Ok (finalize_direct_map (accumulate recipes ∅)).
Proof.
  unfold build_direct_map, accumulate.
  generalize (∅ : gmap pystr (gset pystr)) as direct_map.
  induction recipes as [|[[source_id rel_path] recipe] recipes IH];
    intros direct_map; [done|].
  cbn [for_each foldl snd mbind exc_bind].
  rewrite extract_outputs_of. cbn [mbind exc_bind].
  case_bool_decide as Ho.
  { cbn [mbind exc_bind]. rewrite <-IH. f_equal.
    unfold merge_direct_map. by rewrite Ho, bool_decide_eq_true_2. }
  rewrite extract_tokens_of. cbn [mbind exc_bind].
  case_bool_decide as Ht.
  { cbn [mbind exc_bind]. rewrite <-IH. f_equal.
    unfold merge_direct_map. rewrite Ht.
    rewrite (bool_decide_eq_true_2 (_ <$> [] = [])) by done.
    by rewrite orb_true_r. }
  rewrite canonicalize_tokens_eq. cbn [mbind exc_bind]. apply IH.
Qed.

Lemma accumulate_cons (e : recipe_entry) (recipes : list recipe_entry)
    (direct_map : gmap pystr (gset pystr)) :
  accumulate (e :: recipes) direct_map
  = accumulate recipes
      (merge_direct_map direct_map (outputs_of e.2)
         (canonicalize_str <$> tokens_of e.2)).
Proof. reflexivity. Qed.












(* ------------------------------------------------------------------ *)
(** ** Edible masterlist *)
(* ------------------------------------------------------------------ *)

Lemma io_bind_eq {A B : Type} (m : io A) (f : A → io B) (w : world) :
  (m ≫= f) w
  = match m w with
    | (w', Ok a) => f a w'
    | (w', Raise e) => (w', Raise e)
    end.
Proof. reflexivity. Qed.

Lemma read_json_eq (p : path) (w : world) (v : pyval) :
  files w !! p = Some (FileJson v) → read_json p w = (w, Ok v).
Proof. intros H. unfold read_json. by rewrite H. Qed.

Lemma edible_loop_eq (items : list pyval) (edible : gset pystr) :
  for_each (λ edible it,
      c ← and_then (isinstance_str it) (py_in (py ":") it);
      if c : bool then set_add edible it else Ok edible) items edible
  = Ok (edible ∪ list_to_set (edible_entries items)).
Proof.
  set (body := λ (edible : gset pystr) (it : pyval),
      c ← and_then (isinstance_str it) (py_in (py ":") it);
      if c : bool then set_add edible it else Ok edible).
  assert (∀ edible it,
    body edible it = Ok (edible ∪ list_to_set (edible_entries [it]))) as Hbody.
  { intros acc it. unfold body, edible_entries.
    destruct it; cbn [isinstance_str and_then py_in mbind exc_bind];
      try (simpl; f_equal; set_solver).
    destruct (str_contains (py ":") s) eqn:E; simpl; rewrite E;
      unfold set_add; cbn [as_str mbind exc_bind]; f_equal; set_solver. }
  revert edible. induction items as [|it items IH]; intros edible.
  - cbn [for_each edible_entries omap]. f_equal. set_solver.
  - cbn [for_each]. rewrite Hbody. cbn [mbind exc_bind]. rewrite IH.
    f_equal. change (it :: items) with ([it] ++ items).
    unfold edible_entries. rewrite omap_app, list_to_set_app_L. set_solver.
Qed.

Lemma load_edible_items_ok (w : world) (edibles_path : path)
    (d : list (pystr * pyval)) (items : list pyval) :
  files w !! edibles_path = Some (FileJson (PDict d)) →
  dict_get d (py "items") = PList items →
  load_edible_items edibles_path w
  = (w, Ok (list_to_set (edible_entries items))).
Proof.
  intros Hf Hitems. unfold load_edible_items.
  rewrite io_bind_eq, (read_json_eq _ _ _ Hf).
  cbn [isinstance_dict negb]. rewrite io_bind_eq.
  unfold io_lift at 1. cbn [py_get]. rewrite Hitems.
  cbn [isinstance_list negb]. unfold io_lift.
  cbn [py_iter mbind exc_bind].
  rewrite edible_loop_eq. do 2 f_equal. set_solver.
Qed.

Lemma load_edible_items_bad (w : world) (edibles_path : path) (obj : pyval) :
  files w !! edibles_path = Some (FileJson obj) →
  ¬ has_items_list obj →
  ∃ msg, load_edible_items edibles_path w = (w, Raise (ValueError msg)).
Proof.
  intros Hf Hno. unfold load_edible_items.
  rewrite io_bind_eq, (read_json_eq _ _ _ Hf).
  destruct obj; try (by eexists).
  cbn [isinstance_dict negb]. rewrite io_bind_eq.
  unfold io_lift at 1. cbn [py_get].
  destruct (dict_get d (py "items")) eqn:E; try (by eexists).
  exfalso. apply Hno. by exists d, l.
Qed.

(** C9.  For a masterlist file that parses: when the document is an object
    whose [items] field is a list, [load_edible_items] returns the set of
    the entries that are strings containing [':'], every other entry being
    skipped; in every other case, and in no other, it raises [ValueError].
    The file system is left as it was. *)
Theorem load_edible_items_spec (w : world) (edibles_path : path) (obj : pyval) :
  files w !! edibles_path = Some (FileJson obj) →
  (∀ d items, obj = PDict d → dict_get d (py "items") = PList items →
     load_edible_items edibles_path w
     = (w, Ok (list_to_set (edible_entries items)))) ∧
  (¬ has_items_list obj →
     ∃ msg, load_edible_items edibles_path w = (w, Raise (ValueError msg))) ∧
  ((∃ e, load_edible_items edibles_path w = (w, Raise e)) ↔
   ¬ has_items_list obj).
Proof.
  intros Hf. split; [|split; [|split]].
  - intros d items -> Hitems. by apply (load_edible_items_ok _ _ d).
  - by apply load_edible_items_bad.
  - intros [e He] (d & items & -> & Hitems).
    rewrite (load_edible_items_ok _ _ _ _ Hf Hitems) in He. discriminate.
  - intros Hno. destruct (load_edible_items_bad _ _ _ Hf Hno) as [msg Hmsg].
    by eexists.
Qed.

(** A masterlist with two conforming entries, a number and a string
    without [':']; and a masterlist that is a list. *)
Lemma load_edible_items_spec_witness :
  load_edible_items [py "edibles.json"]
    (example_world
       (PDict [(py "items",
                PList [PStr (py "minecraft:apple"); PInt 5;
                       PStr (py "stick"); PStr (py "modA:bread")])]))
  = (example_world
       (PDict [(py "items",
                PList [PStr (py "minecraft:apple"); PInt 5;
                       PStr (py "stick"); PStr (py "modA:bread")])]),
     Ok (list_to_set
           (edible_entries
              [PStr (py "minecraft:apple"); PInt 5;
               PStr (py "stick"); PStr (py "modA:bread")]))) ∧
  ∃ msg, load_edible_items [py "edibles.json"] (example_world (PList []))
         = (example_world (PList []), Raise (ValueError msg)).
Proof.
  split.
  - eapply (load_edible_items_spec _ _
             (PDict [(py "items",
                      PList [PStr (py "minecraft:apple"); PInt 5;
                             PStr (py "stick"); PStr (py "modA:bread")])]));
      reflexivity.
  - apply (load_edible_items_spec _ _ (PList [])); [reflexivity|].
    intros (d & items & Hd & _). discriminate.
Defined.

(* ------------------------------------------------------------------ *)
(** ** Orchestration *)
(* ------------------------------------------------------------------ *)

Lemma mkdir_inv (p : path) (w w' : world) (r : exc unit) :
  mkdir p w = (w', r) →
  (r = Ok tt ∧ files w' = files w ∧ objects w' = objects w ∧
   log w' = log w ++ [EvMkdir p]) ∨
  (∃ e, r = Raise e ∧ w' = w).
Proof.
  unfold mkdir. destruct (make_dirs p w) as [ds|e]; intros [= <- <-].
  - by left.
  - right. by exists e.
Qed.

Lemma write_json_inv (p : path) (obj : pyval) (w w' : world) (r : exc unit) :
  write_json p obj w = (w', r) →
  (r = Ok tt ∧
   files w' = <[p := FileJson obj]> (delete (with_tmp_suffix p) (files w)) ∧
   objects w' = objects w ∧ log w' = log w ++ [EvWriteJson p obj]) ∨
  (∃ e, r = Raise e ∧ objects w' = objects w ∧
        (log w' = log w ∨ log w' = log w ++ [EvWriteTmp (with_tmp_suffix p)])).
Proof.
  unfold write_json. destruct (make_dirs (parent p) w) as [ds|e].
  - repeat case_match; intros [= <- <-]; cbn [files objects log];
      first [by left | right; eexists; by auto].
  - intros [= <- <-]. right. eexists. by auto.
Qed.

Lemma scan_and_build_log (scan : world → list path → list recipe_entry)
    (args : Args) (w w1 : world) (direct_map : gmap pystr (list pystr)) :
  scan_and_build scan args w = (w1, Ok direct_map) →
  log w1 = log w ++ effects_before_edibles args direct_map ∧
  objects w1 = objects w ∧
  (masterlist_untouched args →
   files w1 !! edibles args = files w !! edibles args).
Proof.
  unfold scan_and_build, effects_before_edibles, masterlist_untouched.
  destruct (dry_run args) eqn:Hdry; cbn [negb io_when].
  - rewrite io_bind_eq. cbn [mret io_ret]. rewrite io_bind_eq.
    rewrite io_bind_eq. unfold io_lift at 1. rewrite build_direct_map_eq.
    rewrite io_bind_eq.
    destruct (direct_map_out args); cbn [mret io_ret];
      intros [= <- <-]; by rewrite app_nil_r.
  - rewrite io_bind_eq, io_bind_eq.
    destruct (mkdir _ w) as [wa ra] eqn:Ha.
    apply mkdir_inv in Ha as [(-> & Hfa & Hoa & Hla)|(e & -> & _)];
      [|discriminate].
    destruct (mkdir _ wa) as [wb rb] eqn:Hb.
    apply mkdir_inv in Hb as [(-> & Hfb & Hob & Hlb)|(e & -> & _)];
      [|discriminate].
    rewrite io_bind_eq, io_bind_eq. unfold io_lift at 1.
    rewrite build_direct_map_eq, io_bind_eq.
    destruct (direct_map_out args) as [out|]; cbn [mret io_ret].
    + rewrite io_bind_eq.
      destruct (mkdir _ wb) as [wc rc] eqn:Hc.
      apply mkdir_inv in Hc as [(-> & Hfc & Hoc & Hlc)|(e & -> & _)];
        [|discriminate].
      destruct (write_json _ _ wc) as [wd rd] eqn:Hd.
      apply write_json_inv in Hd as [(-> & Hfd & Hod & Hld)|(e & -> & _)];
        [|discriminate].
      intros [= <- <-]. split; [|split].
      * rewrite Hld, Hlc, Hlb, Hla. by rewrite <-!app_assoc.
      * congruence.
      * intros [?|[Hne Htmp]]; [done|].
        rewrite Hfd, lookup_insert_ne by done.
        rewrite lookup_delete_ne by done. congruence.
    + intros [= <- <-]. split; [|split].
      * rewrite Hlb, Hla. by rewrite <-!app_assoc.
      * congruence.
      * intros _. congruence.
Qed.

Lemma main_after_build (scan : world → list path → list recipe_entry)
    (args : Args) (w w1 : world) (direct_map : gmap pystr (list pystr))
    (e : pyexn) :
  path_exists (edibles args) w = (w, Ok true) →
  all_exist (inputs args) w = (w, Ok true) →
  scan_and_build scan args w = (w1, Ok direct_map) →
  load_edible_items (edibles args) w1 = (w1, Raise e) →
  main scan args w = (w1, Raise e).
Proof.
  intros He Ha Hb Hl. unfold main.
  rewrite io_bind_eq, He. cbn [negb].
  rewrite io_bind_eq, Ha. cbn [negb].
  rewrite io_bind_eq, Hb. by rewrite io_bind_eq, Hl.
Qed.

Lemma main_build_fails (scan : world → list path → list recipe_entry)
    (args : Args) (w w1 : world) (e : pyexn) :
  path_exists (edibles args) w = (w, Ok true) →
  all_exist (inputs args) w = (w, Ok true) →
  scan_and_build scan args w = (w1, Raise e) →
  main scan args w = (w1, Raise e).
Proof.
  intros He Ha Hb. unfold main.
  rewrite io_bind_eq, He. cbn [negb].
  rewrite io_bind_eq, Ha. cbn [negb].
  by rewrite io_bind_eq, Hb.
Qed.

(** C3 (as amended).  When the masterlist path does not exist the run
    returns status 2 and has performed no persistence effect.  When the
    paths exist, the run first goes through the stages before the
    masterlist is loaded.  If one of them raises (a directory cannot be
    created, the direct map cannot be written), the run ends there with
    that error.  If they complete, the effects performed are exactly
    theirs: unless the run is a dry run, the two registry directories are
    created and, when a direct-map output path is given, the direct map is
    written; if loading the masterlist then fails (the document is not an
    object, or has no [items] list), the run ends with that error, having
    written no other artifact. *)
Theorem main_edibles_failure (scan : world → list path → list recipe_entry)
    (args : Args) (w : world) :
  (path_exists (edibles args) w = (w, Ok false) →
   main scan args w = (w, Ok 2%Z)) ∧
  (path_exists (edibles args) w = (w, Ok true) →
   all_exist (inputs args) w = (w, Ok true) →
   (∀ w1 e, scan_and_build scan args w = (w1, Raise e) →
            main scan args w = (w1, Raise e)) ∧
   (∀ w1 direct_map,
      scan_and_build scan args w = (w1, Ok direct_map) →
      log w1 = log w ++ effects_before_edibles args direct_map ∧
      (masterlist_untouched args →
       files w1 !! edibles args = files w !! edibles args) ∧
      (∀ e, load_edible_items (edibles args) w1 = (w1, Raise e) →
            main scan args w = (w1, Raise e)) ∧
      (∀ obj, files w1 !! edibles args = Some (FileJson obj) →
              ¬ has_items_list obj →
              ∃ msg, main scan args w = (w1, Raise (ValueError msg))))).
Proof.
  split.
  - intros He. unfold main. by rewrite io_bind_eq, He.
  - intros He Ha. split.
    + intros w1 e Hb. exact (main_build_fails _ _ _ _ _ He Ha Hb).
    + intros w1 dm Hb.
      destruct (scan_and_build_log _ _ _ _ _ Hb) as (Hlog & _ & Hfiles).
      split; [done|]. split; [done|]. split.
      * intros e Hl. exact (main_after_build _ _ _ _ _ _ He Ha Hb Hl).
      * intros obj Hf Hno.
        destruct (load_edible_items_bad _ _ _ Hf Hno) as [msg Hmsg].
        exists msg. exact (main_after_build _ _ _ _ _ _ He Ha Hb Hmsg).
Qed.

(** A run whose masterlist path is missing; a run whose masterlist is a
    list and whose direct map is written to [out/direct_map.json]; and the
    same run when [registry] is a regular file, which fails at the first
    directory. *)
Lemma main_edibles_failure_witness :
  main example_scan
    {| edibles := [py "missing.json"]; inputs := [[py "mods"]];
       registry := [py "registry"]; direct_map_out := None;
       dry_run := false; verbose := false |}
    (example_world (PList []))
  = (example_world (PList []), Ok 2%Z) ∧
  main example_scan example_args
    (World {[ [py "edibles.json"] := FileJson (PList []);
              [py "registry"] := FileOther ]} {[ [py "mods"] ]} ∅ [])
  = (World {[ [py "edibles.json"] := FileJson (PList []);
              [py "registry"] := FileOther ]} {[ [py "mods"] ]} ∅ [],
     Raise (NotADirectoryError [py "registry"; py "nodes"])) ∧
  ∃ w1 direct_map,
    scan_and_build example_scan example_args (example_world (PList []))
    = (w1, Ok direct_map) ∧
    log w1 = log (example_world (PList []))
             ++ effects_before_edibles example_args direct_map ∧
    (masterlist_untouched example_args →
     files w1 !! edibles example_args
     = files (example_world (PList [])) !! edibles example_args) ∧
    (∀ e, load_edible_items (edibles example_args) w1 = (w1, Raise e) →
          main example_scan example_args (example_world (PList []))
          = (w1, Raise e)) ∧
    (∀ obj, files w1 !! edibles example_args = Some (FileJson obj) →
            ¬ has_items_list obj →
            ∃ msg, main example_scan example_args (example_world (PList []))
                   = (w1, Raise (ValueError msg))).
Proof.
  split; [|split].
  - apply main_edibles_failure. reflexivity.
  - apply main_edibles_failure; [reflexivity|reflexivity|].
    vm_compute. reflexivity.
  - eexists _, _. split; [vm_compute; reflexivity|].
    apply main_edibles_failure; [reflexivity|reflexivity|].
    vm_compute. reflexivity.
Defined.

(** C3 as stated fails: the masterlist is a list, not an object, and the
    run raises the precondition error only after it has written the direct
    map. *)
Lemma main_writes_before_edibles_failure :
  ¬ has_items_list (PList []) ∧
  (main example_scan example_args (example_world (PList []))).2
  = Raise (ValueError (EdiblesMustBeObject [py "edibles.json"])) ∧
  log (main example_scan example_args (example_world (PList []))).1
  = [EvMkdir [py "registry"; py "nodes"];
     EvMkdir [py "registry"; py "generated"];
     EvMkdir [py "out"];
     EvWriteJson [py "out"; py "direct_map.json"]
       (PDict [(py "modA:bread",
                PList [PStr (py "item:modA:wheat");
                       PStr (py "tag:modB:dough")])])].
Proof.
  split; [|split].
  - intros (d & items & Hd & _). discriminate.
  - vm_compute. reflexivity.
  - vm_compute. reflexivity.
Qed.

(* ------------------------------------------------------------------ *)
(** ** Registry synchronization *)
(* ------------------------------------------------------------------ *)

Lemma run_calls_eq (calls : list reconcile_call) (w : world) :
  run_calls calls w = (w, Ok tt).
Proof.
  induction calls as [|c calls IH]; [done|].
  cbn [run_calls]. rewrite io_bind_eq. by destruct c.
Qed.

(** C1.  No sequence of reconciliation calls
    ([update_node_structural_fields], [sync_registry_nodes]), whatever
    direct map and edible set they are given, changes the [assigned_buffs]
    of a node that has the field, be the node held in memory or stored in
    the registry; the calls do not raise. *)
Theorem reconcile_keeps_assigned_buffs (calls : list reconcile_call)
    (w : world) :
  (run_calls calls w).2 = Ok tt ∧
  (∀ node buffs,
     node_field w node (py "assigned_buffs") = Some buffs →
     node_field (run_calls calls w).1 node (py "assigned_buffs") = Some buffs) ∧
  (∀ p buffs,
     stored_field w p (py "assigned_buffs") = Some buffs →
     stored_field (run_calls calls w).1 p (py "assigned_buffs") = Some buffs).
Proof. rewrite run_calls_eq. by repeat split. Qed.

Lemma reconcile_keeps_assigned_buffs_witness :
  node_field
    (run_calls
       [CallUpdate 0 (py "modA:bread")
          {[py "modA:bread" := [py "item:modA:wheat"]]} {[py "modA:bread"]};
        CallSync [py "registry"] {[py "modA:bread"]}
          {[py "modA:bread" := [py "item:modA:wheat"]]} ∅]
       example_registry).1 0 (py "assigned_buffs")
  = Some (PList [PStr (py "regen")]) ∧
  stored_field
    (run_calls
       [CallUpdate 0 (py "modA:bread")
          {[py "modA:bread" := [py "item:modA:wheat"]]} {[py "modA:bread"]};
        CallSync [py "registry"] {[py "modA:bread"]}
          {[py "modA:bread" := [py "item:modA:wheat"]]} ∅]
       example_registry).1
    [py "registry"; py "nodes"; py "modA__bread.json"] (py "assigned_buffs")
  = Some (PList [PStr (py "regen")]).
Proof.
  split.
  - apply reconcile_keeps_assigned_buffs. reflexivity.
  - apply reconcile_keeps_assigned_buffs. reflexivity.
Defined.

(* ------------------------------------------------------------------ *)
(** ** Recipe paths *)
(* ------------------------------------------------------------------ *)

Example is_recipe_json_path_bread :
  is_recipe_json_path (py "data/modA/recipes/food/bread.json") = true ∧
  is_recipe_json_path (py "data/modA/loot_tables/bread.json") = false ∧
  is_recipe_json_path (py "data/modA/recipes/bread.txt") = false.
Proof. repeat split; reflexivity. Qed.

Lemma str_contains_spec (sub s : pystr) :
  str_contains sub s = true ↔ ∃ a b, s = a ++ sub ++ b.
Proof.
  induction s as [|c s IH].
  - unfold str_contains. rewrite orb_false_r, str_startswith_prefix. split.
    + intros [r Hr]. by exists [], r.
    + intros (a & b & H). symmetry in H.
      apply app_eq_nil in H as [-> H]. by exists b.
  - change (str_contains sub (c :: s))
      with (str_startswith (c :: s) sub || str_contains sub s).
    rewrite orb_true_iff, str_startswith_prefix, IH. split.
    + intros [[r Hr]|(a & b & ->)]; [by exists [], r|by exists (c :: a), b].
    + intros ([|c' a] & b & H); [left; by exists b|].
      injection H as -> ->. right. by exists a, b.
Qed.

Lemma str_endswith_spec (s p : pystr) :
  str_endswith s p = true ↔ ∃ a, s = a ++ p.
Proof.
  unfold str_endswith. rewrite str_startswith_prefix. split.
  - intros [r Hr]. exists (reverse r).
    by rewrite <-(reverse_involutive s), Hr, reverse_app, reverse_involutive.
  - intros [a ->]. exists (reverse a). by rewrite reverse_app.
Qed.

(** X1.  [is_recipe_json_path] accepts every path that, once its
    backslashes are read as slashes, has the form
    [<prefix>data/<namespace>/recipes/<rest>.json] with a prefix that is
    empty or ends in a slash. *)
Theorem is_recipe_json_path_conventional (rel_path pre ns rest : pystr) :
  normalized_path rel_path
  = pre ++ py "data/" ++ ns ++ py "/recipes/" ++ rest ++ py ".json" →
  pre = [] ∨ last pre = Some 47%N →
  is_recipe_json_path rel_path = true.
Proof.
  intros Hrp Hpre. unfold is_recipe_json_path. cbv zeta. rewrite Hrp.
  assert (str_endswith
            (pre ++ py "data/" ++ ns ++ py "/recipes/" ++ rest ++ py ".json")
            (py ".json") = true) as ->.
  { apply str_endswith_spec.
    exists (pre ++ py "data/" ++ ns ++ py "/recipes/" ++ rest).
    by rewrite <-!app_assoc. }
  assert (str_contains (py "/data/")
            (py "/" ++ pre ++ py "data/" ++ ns ++ py "/recipes/" ++ rest
             ++ py ".json") = true) as ->.
  { apply str_contains_spec. destruct Hpre as [->|Hl].
    - by exists [], (ns ++ py "/recipes/" ++ rest ++ py ".json").
    - apply last_Some in Hl as [pre' ->].
      exists (py "/" ++ pre'), (ns ++ py "/recipes/" ++ rest ++ py ".json").
      by rewrite <-!app_assoc. }
  cbn [negb]. apply str_contains_spec.
  exists (pre ++ py "data/" ++ ns), (rest ++ py ".json").
  by rewrite <-!app_assoc.
Qed.

Lemma is_recipe_json_path_conventional_witness :
  is_recipe_json_path (py "mods\pack\data\modA\recipes\food\bread.json") = true.
Proof.
  apply (is_recipe_json_path_conventional _
           (py "mods/pack/") (py "modA") (py "food/bread")).
  - reflexivity.
  - right. reflexivity.
Defined.

(** X2.  A path that [is_recipe_json_path] accepts ends, with its
    backslashes read as slashes, in [.json], has a directory [recipes]
    followed by something, and has a directory [data] at its start or
    after a slash.  (The order of the two directories is not examined.) *)
Theorem is_recipe_json_path_inv (rel_path : pystr) :
  is_recipe_json_path rel_path = true →
  (∃ stem, normalized_path rel_path = stem ++ py ".json") ∧
  (∃ a b, normalized_path rel_path = a ++ py "/recipes/" ++ b) ∧
  ((∃ c, normalized_path rel_path = py "data/" ++ c) ∨
   (∃ a c, normalized_path rel_path = a ++ py "/data/" ++ c)).
Proof.
  unfold is_recipe_json_path. cbv zeta.
  destruct (str_endswith _ (py ".json")) eqn:E1; [|done].
  destruct (str_contains (py "/data/") _) eqn:E2; [|done].
  cbn [negb]. intros E3.
  apply str_endswith_spec in E1. apply str_contains_spec in E2, E3.
  split; [done|]. split; [done|].
  destruct E2 as ([|c0 a] & c & H).
  - left. exists c. by injection H.
  - right. exists a, c. by injection H.
Qed.

Lemma is_recipe_json_path_inv_witness :
  (∃ stem, normalized_path (py "data/modA/recipes/bread.json")
           = stem ++ py ".json") ∧
  (∃ a b, normalized_path (py "data/modA/recipes/bread.json")
          = a ++ py "/recipes/" ++ b) ∧
  ((∃ c, normalized_path (py "data/modA/recipes/bread.json")
         = py "data/" ++ c) ∨
   (∃ a c, normalized_path (py "data/modA/recipes/bread.json")
           = a ++ py "/data/" ++ c)).
Proof. apply is_recipe_json_path_inv. reflexivity. Defined.

(* ------------------------------------------------------------------ *)
(** ** Canonical form *)
(* ------------------------------------------------------------------ *)

Lemma canonicalize_str_stripped (s : pystr) :
  str_strip (canonicalize_str s) = canonicalize_str s.
Proof.
  unfold canonicalize_str.
  pose proof (str_strip_stripped s) as Ht.
  pose proof (proj1 (str_strip_id _) Ht) as [_ Hlast].
  set (t := str_strip s) in *. cbv zeta.
  destruct (existsb (str_startswith t) canonical_prefixes); [done|].
  destruct (str_contains (py ":") t) eqn:E2; cbn [andb].
  - destruct (str_startswith t (py "#")) eqn:E3; cbn [andb negb].
    + destruct (str_contains (py ":") (str_slice1 t)) eqn:E4; [|done].
      apply str_startswith_prefix in E3 as [t1 Ht1].
      change (py "#" ++ t1) with (35%N :: t1) in Ht1.
      rewrite Ht1 in E4 |- *. unfold str_slice1 in E4 |- *.
      cbn [tail] in E4 |- *.
      apply (str_contains_char 58%N) in E4.
      assert (t1 ≠ []) as Hne by (intros ->; by apply elem_of_nil in E4).
      apply str_strip_app; [by intros c [= <-]|done|done|].
      intros c Hc. apply Hlast. rewrite Ht1.
      destruct t1; [done|]. by rewrite last_cons_cons.
    + apply (str_contains_char 58%N) in E2.
      apply str_strip_app; [by intros c [= <-]|done| |done].
      intros ->. by apply elem_of_nil in E2.
  - destruct (str_startswith t (py "#") && _) eqn:E3; [|done].
    apply (str_contains_char_false 58%N) in E2.
    apply andb_true_iff in E3 as [E3 E4].
    apply str_startswith_prefix in E3 as [t1 Ht1].
    change (py "#" ++ t1) with (35%N :: t1) in Ht1. rewrite Ht1 in E2, E4.
    unfold str_slice1 in E4. cbn [tail] in E4.
    apply (str_contains_char 58%N) in E4. set_solver.
Qed.

Lemma canonicalize_str_prefixed_or_plain (s : pystr) :
  58%N ∈ canonicalize_str s →
  existsb (str_startswith (canonicalize_str s)) canonical_prefixes = true.
Proof.
  unfold canonicalize_str. set (t := str_strip s). cbv zeta.
  destruct (existsb (str_startswith t) canonical_prefixes) eqn:E1; [done|].
  destruct (str_contains (py ":") t) eqn:E2; cbn [andb].
  - destruct (str_startswith t (py "#")) eqn:E3; cbn [andb negb].
    + assert (str_contains (py ":") (str_slice1 t) = true) as ->.
      { apply str_startswith_prefix in E3 as [t1 Ht1].
        change (py "#" ++ t1) with (35%N :: t1) in Ht1. rewrite Ht1 in E2 |- *.
        apply (str_contains_char 58%N) in E2.
        apply (str_contains_char 58%N). unfold str_slice1. cbn [tail].
        apply elem_of_cons in E2 as [?|?]; done. }
      intros _. apply prefixed_app. set_solver.
    + intros _. apply prefixed_app. set_solver.
  - apply (str_contains_char_false 58%N) in E2.
    destruct (str_startswith t (py "#") && _) eqn:E3; [|done].
    apply andb_true_iff in E3 as [E3 E4].
    apply str_startswith_prefix in E3 as [t1 Ht1].
    change (py "#" ++ t1) with (35%N :: t1) in Ht1. rewrite Ht1 in E2, E4.
    unfold str_slice1 in E4. cbn [tail] in E4.
    apply (str_contains_char 58%N) in E4. set_solver.
Qed.

(** X3.  The string [canonicalize_token] returns for a string has no
    leading or trailing whitespace, and whenever it contains [':'] it
    starts with [item:], [tag:] or [fluid:]. *)
Theorem canonicalize_token_canonical (s r : pystr) :
  canonicalize_token (PStr s) = Ok (PStr r) →
  str_strip r = r ∧
  (58%N ∈ r → existsb (str_startswith r) canonical_prefixes = true).
Proof.
  rewrite canonicalize_token_str. intros [= <-]. split.
  - apply canonicalize_str_stripped.
  - apply canonicalize_str_prefixed_or_plain.
Qed.

Lemma canonicalize_token_canonical_witness :
  str_strip (py "tag:forge:dough") = py "tag:forge:dough" ∧
  (58%N ∈ py "tag:forge:dough" →
   existsb (str_startswith (py "tag:forge:dough")) canonical_prefixes = true).
Proof.
  apply (canonicalize_token_canonical (py "  #forge:dough ")). reflexivity.
Defined.

(* ------------------------------------------------------------------ *)
(** ** What the extractors return *)
(* ------------------------------------------------------------------ *)

Lemma post_ok {A : Type} (a : A) (Q : A → Prop) : Q a → post (Ok a) Q.
Proof. intros H a' [= <-]. exact H. Qed.

Lemma post_bind {A B : Type} (m : exc A) (k : A → exc B)
    (R : A → Prop) (Q : B → Prop) :
  post m R → (∀ a, R a → post (k a) Q) → post (m ≫= k) Q.
Proof.
  intros Hm Hk b. destruct m as [a|e]; [|done].
  cbn [mbind exc_bind]. apply Hk, Hm. reflexivity.
Qed.

Lemma post_if {A : Type} (b : bool) (m1 m2 : exc A) (Q : A → Prop) :
  (b = true → post m1 Q) → (b = false → post m2 Q) →
  post (if b then m1 else m2) Q.
Proof. destruct b; auto. Qed.

Lemma post_eq {A : Type} (m : exc A) (a : A) : m = Ok a → post m (λ x, x = a).
Proof. intros -> x [= <-]. reflexivity. Qed.

(** A loop keeps what its body keeps. *)
Lemma post_for_each {A S : Type} (body : S → A → exc S) (l : list A)
    (P : S → Prop) :
  Forall (λ x, ∀ s, P s → post (body s x) P) l →
  ∀ s, P s → post (for_each body l s) P.
Proof.
  induction 1 as [|x l Hx _ IH]; intros s Hs; [by apply post_ok|].
  cbn [for_each]. eapply post_bind; [by apply Hx|]. apply IH.
Qed.

Lemma post_set_add (out : gset pystr) (v : pyval) :
  all_item_ids out → item_idb v = true → post (set_add out v) all_item_ids.
Proof.
  intros Hout Hv. destruct v; try discriminate. apply post_ok.
  intros x [?| ->%elem_of_singleton]%elem_of_union; auto.
Qed.

Lemma post_add_if_item (out : gset pystr) (v : pyval) :
  all_item_ids out →
  post (b ← is_item_id v; if b : bool then set_add out v else Ok out)
    all_item_ids.
Proof.
  intros Hout. rewrite is_item_id_eq. cbn [mbind exc_bind].
  apply post_if; intros E; [by apply post_set_add|by apply post_ok].
Qed.

Lemma all_item_ids_union (s1 s2 : gset pystr) :
  all_item_ids s1 → all_item_ids s2 → all_item_ids (s1 ∪ s2).
Proof. intros H1 H2 x [?|?]%elem_of_union; auto. Qed.

Lemma all_item_ids_empty : all_item_ids ∅.
Proof. intros x Hx. by apply not_elem_of_empty in Hx. Qed.

Lemma from_result_obj_item_ids (obj : pyval) :
  post (from_result_obj obj) all_item_ids.
Proof.
  induction obj as [| | | |s|l IH|d IH] using pyval_nested_ind;
    try (apply post_ok, all_item_ids_empty).
  - cbn [from_result_obj is_None].
    apply post_add_if_item, all_item_ids_empty.
  - rewrite from_result_obj_list.
    apply post_for_each; [|apply all_item_ids_empty].
    eapply Forall_impl; [apply IH|]. intros el Hel out Hout. cbn beta.
    eapply post_bind; [exact Hel|]. intros r Hr.
    by apply post_ok, all_item_ids_union.
  - cbn [from_result_obj is_None]. rewrite (is_item_id_eq (PDict d)).
    cbn [item_idb mbind exc_bind py_get].
    rewrite is_item_id_eq. cbn [mbind exc_bind].
    eapply post_bind.
    { apply post_if; intros E;
        [by apply post_set_add; [apply all_item_ids_empty|]
        |apply post_ok, all_item_ids_empty]. }
    intros out Hout. eapply post_bind.
    { apply post_for_each; [|exact Hout].
      repeat constructor; intros acc Hacc; by apply post_add_if_item. }
    intros out' Hout'. revert out' Hout'. apply post_for_each.
    eapply Forall_impl; [apply IH|]. intros [k v] Hv acc Hacc.
    cbn [snd] in Hv.
    destruct (isinstance_dict v || isinstance_list v || isinstance_str v);
      [|by apply post_ok].
    eapply post_bind with (R := λ _, True); [done|]. intros [] _.
    { eapply post_bind; [exact Hv|]. intros r Hr.
      by apply post_ok, all_item_ids_union. }
    destruct v; try (by apply post_ok).
    cbn [isinstance_list py_iter mbind exc_bind].
    eapply post_bind with (R := λ _, True); [done|]. intros [] _;
      [|by apply post_ok].
    eapply post_bind; [exact Hv|]. intros r Hr.
    by apply post_ok, all_item_ids_union.
Qed.

Lemma dict_get_not_has (d : list (pystr * pyval)) (k : pystr) :
  dict_has d k = false → dict_get d k = PNone.
Proof.
  induction d as [|[k' v] d IH]; [done|]. simpl.
  destruct (decide (k' = k)); [done|]. exact IH.
Qed.

(** The step [if k in recipe: outputs |= from_result_obj(recipe.get(k))]
    is the union with what [from_result_obj] makes of the field, present
    or not. *)
Lemma output_field_eq (d : list (pystr * pyval)) (k : pystr)
    (outputs r : gset pystr) :
  from_result_obj (dict_get d k) = Ok r →
  (h ← py_in k (PDict d);
   if h : bool
   then v ← py_get (PDict d) k; r ← from_result_obj v; Ok (outputs ∪ r)
   else Ok outputs)
  = Ok (outputs ∪ r).
Proof.
  intros Hr. cbn [py_in py_get mbind exc_bind].
  destruct (dict_has d k) eqn:E.
  - by rewrite Hr.
  - rewrite (dict_get_not_has _ _ E) in Hr. injection Hr as <-.
    f_equal. set_solver.
Qed.

Lemma output_field_bind {B : Type} (d : list (pystr * pyval)) (k : pystr)
    (outputs r : gset pystr) (rest : gset pystr → exc B) :
  from_result_obj (dict_get d k) = Ok r →
  (h ← py_in k (PDict d);
   outputs' ← (if h : bool
               then v ← py_get (PDict d) k;
                    r ← from_result_obj v; Ok (outputs ∪ r)
               else Ok outputs);
   rest outputs')
  = rest (outputs ∪ r).
Proof.
  intros Hr. cbn [py_in py_get mbind exc_bind].
  destruct (dict_has d k) eqn:E.
  - by rewrite Hr.
  - rewrite (dict_get_not_has _ _ E) in Hr. injection Hr as <-.
    cbn [mbind exc_bind]. f_equal. set_solver.
Qed.

(** X4.  Every output [extract_outputs] returns is an item id: it has
    [':'] in it and does not start with ['#'].  Tag references and plain
    words found in a result are left out. *)
Theorem extract_outputs_item_ids (recipe : pyval) (outputs : gset pystr)
    (x : pystr) :
  extract_outputs recipe = Ok outputs → x ∈ outputs →
  58%N ∈ x ∧ str_startswith x (py "#") = false.
Proof.
  intros He Hx.
  assert (all_item_ids outputs) as Hall.
  { revert He. destruct recipe; try (intros [= <-]; apply all_item_ids_empty).
    unfold extract_outputs.
    cbn [isinstance_dict negb].
    destruct (succeeds_from_result_obj (dict_get d (py "result"))) as [r1 H1].
    destruct (succeeds_from_result_obj (dict_get d (py "results"))) as [r2 H2].
    destruct (succeeds_from_result_obj (dict_get d (py "output"))) as [r3 H3].
    destruct (succeeds_from_result_obj (dict_get d (py "outputs"))) as [r4 H4].
    pose proof (from_result_obj_item_ids _ _ H1).
    pose proof (from_result_obj_item_ids _ _ H2).
    pose proof (from_result_obj_item_ids _ _ H3).
    pose proof (from_result_obj_item_ids _ _ H4).
    rewrite (output_field_bind d _ _ _ _ H1).
    rewrite (output_field_bind d _ _ _ _ H2).
    case_bool_decide.
    - rewrite (output_field_bind d _ _ _ _ H3).
      rewrite (output_field_eq d _ _ _ H4). intros [= <-].
      repeat apply all_item_ids_union; auto using all_item_ids_empty.
    - intros [= <-].
      repeat apply all_item_ids_union; auto using all_item_ids_empty. }
  specialize (Hall x Hx). unfold item_id_str, item_idb in Hall.
  apply andb_true_iff in Hall as [Hc Hh].
  apply (str_contains_char 58%N) in Hc. by apply negb_true_iff in Hh.
Qed.

Lemma extract_outputs_item_ids_witness :
  58%N ∈ py "modA:bread" ∧ str_startswith (py "modA:bread") (py "#") = false.
Proof.
  apply (extract_outputs_item_ids bread_recipe {[py "modA:bread"]}).
  - vm_compute. reflexivity.
  - refine (bool_decide_eq_true_1 _ _); vm_compute; reflexivity.
Defined.

(** X5.  [extract_outputs] on an object returns what the fields [result]
    and [results] yield together; only when that is empty does it return
    what [output] and [outputs] yield.  A missing field yields nothing. *)
Theorem extract_outputs_fallback (d : list (pystr * pyval))
    (r rs o os : gset pystr) :
  from_result_obj (dict_get d (py "result")) = Ok r →
  from_result_obj (dict_get d (py "results")) = Ok rs →
  from_result_obj (dict_get d (py "output")) = Ok o →
  from_result_obj (dict_get d (py "outputs")) = Ok os →
  extract_outputs (PDict d)
  = Ok (if decide (r ∪ rs = ∅) then o ∪ os else r ∪ rs).
Proof.
  intros H1 H2 H3 H4. unfold extract_outputs. cbn [isinstance_dict negb].
  rewrite (output_field_bind d _ _ _ _ H1).
  rewrite (output_field_bind d _ _ _ _ H2).
  assert (∅ ∪ r ∪ rs = r ∪ rs) as -> by set_solver.
  case_bool_decide as E.
  - rewrite (output_field_bind d _ _ _ _ H3).
    rewrite (output_field_eq d _ _ _ H4).
    rewrite decide_True by done. f_equal. rewrite E. set_solver.
  - by rewrite decide_False.
Qed.

Lemma extract_outputs_fallback_witness :
  extract_outputs
    (PDict [(py "result", PStr (py "modA:bread"));
            (py "output", PStr (py "modA:cake"))])
  = Ok (if decide (({[py "modA:bread"]} : gset pystr) ∪ ∅ = ∅)
        then {[py "modA:cake"]} ∪ ∅ else {[py "modA:bread"]} ∪ ∅).
Proof. apply extract_outputs_fallback; vm_compute; reflexivity. Defined.

Lemma extended_refl (out : list pystr) : extended out out.
Proof. exists []. by rewrite app_nil_r. Qed.

Lemma extended_trans (a b c : list pystr) :
  extended a b → extended b c → extended a c.
Proof.
  intros (n1 & -> & H1) (n2 & -> & H2). exists (n1 ++ n2).
  split; [by rewrite app_assoc|]. by apply Forall_app.
Qed.

Lemma extended_append (out : list pystr) (tok : pystr) :
  prefixed_token tok → extended out (append out tok).
Proof. intros H. exists [tok]. split; [done|]. by constructor. Qed.

Lemma post_extended_trans (m : exc (list pystr)) (a b : list pystr) :
  extended a b → post m (extended b) → post m (extended a).
Proof. intros Hab Hm c Hc. eapply extended_trans; [exact Hab|by apply Hm]. Qed.

(** A loop whose rounds only append prefixed tokens only appends
    prefixed tokens. *)
Lemma post_for_each_extended {A : Type}
    (body : list pystr → A → exc (list pystr)) (l : list A) :
  Forall (λ x, ∀ acc, post (body acc x) (extended acc)) l →
  ∀ out, post (for_each body l out) (extended out).
Proof.
  intros Hl out. apply (post_for_each body l (extended out)).
  - eapply Forall_impl; [exact Hl|]. intros x Hx acc Hacc. cbn beta in Hx.
    eapply post_extended_trans; [exact Hacc|apply Hx].
  - apply extended_refl.
Qed.

Lemma item_idb_colon (s : pystr) : item_idb (PStr s) = true → 58%N ∈ s.
Proof.
  unfold item_idb. intros [Hc _]%andb_true_iff.
  by apply (str_contains_char 58%N).
Qed.

Lemma post_token_from_item_id (out : list pystr) (v : pyval) :
  item_idb v = true →
  post (tok ← token_from_item_id v; Ok (append out tok)) (extended out).
Proof.
  intros Hv. destruct v; try discriminate. apply post_ok, extended_append.
  exists (py "item:"), s. split; [set_solver|]. split; [done|].
  by apply item_idb_colon.
Qed.

Lemma post_token_from_tag_id (out : list pystr) (v : pyval) :
  item_idb v = true →
  post (tok ← token_from_tag_id v; Ok (append out tok)) (extended out).
Proof.
  intros Hv. destruct v; try discriminate. apply post_ok, extended_append.
  exists (py "tag:"), s. split; [set_solver|]. split; [done|].
  by apply item_idb_colon.
Qed.

Lemma post_token_from_fluid_id (out : list pystr) (v : pyval) :
  item_idb v = true →
  post (tok ← token_from_fluid_id v; Ok (append out tok)) (extended out).
Proof.
  intros Hv. destruct v; try discriminate. apply post_ok, extended_append.
  exists (py "fluid:"), s. split; [set_solver|]. split; [done|].
  by apply item_idb_colon.
Qed.

(** What [tag_from_hash] returns is [None] or a string with [':'] in it. *)
Lemma tag_from_hash_colon (v : pyval) :
  tag_from_hash v = Ok PNone ∨ ∃ s, tag_from_hash v = Ok (PStr s) ∧ 58%N ∈ s.
Proof.
  destruct v; try (by left). unfold tag_from_hash.
  cbn [isinstance_str and_then py_startswith py_slice1 py_in mbind exc_bind].
  destruct (str_startswith s (py "#")); cbn [and_then mbind exc_bind];
    [|by left].
  destruct (str_contains (py ":") (str_slice1 s)) eqn:E; [right|by left].
  eexists. split; [done|]. by apply (str_contains_char 58%N).
Qed.

Lemma collect_from_ingredient_obj_extended (obj : pyval) :
  ∀ out, post (collect_from_ingredient_obj obj out) (extended out).
Proof.
  induction obj as [| | | |s|l IH|d IH] using pyval_nested_ind; intros out;
    try apply post_ok, extended_refl.
  - cbn [collect_from_ingredient_obj is_None isinstance_str].
    destruct (tag_from_hash_colon (PStr s)) as [->|(t & -> & Ht)];
      cbn [mbind exc_bind truthy].
    + rewrite is_item_id_eq. cbn [mbind exc_bind].
      apply post_if; intros E;
        [by apply post_token_from_item_id|apply post_ok, extended_refl].
    + destruct t as [|c t]; [by apply elem_of_nil in Ht|].
      apply post_ok, extended_append.
      exists (py "tag:"), (c :: t). split; [set_solver|]. done.
  - rewrite collect_from_ingredient_obj_list.
    by apply post_for_each_extended.
  - cbn [collect_from_ingredient_obj is_None isinstance_str].
    rewrite key_is_item_eq, key_is_tag_eq. cbn [mbind exc_bind].
    eapply post_bind.
    { apply post_if; [|intros; apply post_ok, extended_refl].
      intros [Hh Hi]%andb_true_iff. rewrite py_getitem_has by done.
      cbn [mbind exc_bind]. by apply post_token_from_item_id. }
    intros out1 H1. cbn beta in H1.
    eapply post_extended_trans; [exact H1|]. eapply post_bind.
    { apply post_if; [|intros; apply post_ok, extended_refl].
      intros [Hh Hi]%andb_true_iff. rewrite py_getitem_has by done.
      cbn [mbind exc_bind]. by apply post_token_from_tag_id. }
    intros out2 H2. cbn beta in H2.
    eapply post_extended_trans; [exact H2|]. eapply post_bind.
    { apply post_for_each_extended. repeat constructor; intros acc;
        cbn [py_get mbind exc_bind]; rewrite is_item_id_eq;
        cbn [mbind exc_bind];
        (apply post_if; [|intros; apply post_ok, extended_refl]);
        intros Hi; by apply post_token_from_item_id. }
    intros out3 H3. cbn beta in H3.
    eapply post_extended_trans; [exact H3|]. rewrite dict_find_eq.
    apply post_if; [|intros; apply post_ok, extended_refl]. intros Hh.
    apply dict_get_elem in Hh as [k' Hin].
    rewrite Forall_forall in IH. specialize (IH _ Hin). cbn [snd] in IH.
    destruct (dict_get d (py "items")); try apply post_ok, extended_refl.
    rewrite <-collect_from_ingredient_obj_list. apply IH.
Qed.

Lemma post_append_if_fluid (out : list pystr) (v : pyval) :
  post (b ← is_item_id v;
        if b : bool then tok ← token_from_fluid_id v; Ok (append out tok)
        else Ok out) (extended out).
Proof.
  rewrite is_item_id_eq. cbn [mbind exc_bind].
  apply post_if; [|intros; apply post_ok, extended_refl]. intros Hi.
  by apply post_token_from_fluid_id.
Qed.

Lemma collect_from_fluid_obj_extended (obj : pyval) :
  ∀ out, post (collect_from_fluid_obj obj out) (extended out).
Proof.
  induction obj as [| | | |s|l IH|d IH] using pyval_nested_ind; intros out;
    try apply post_ok, extended_refl.
  - cbn [collect_from_fluid_obj is_None isinstance_str].
    apply post_append_if_fluid.
  - rewrite collect_from_fluid_obj_list. by apply post_for_each_extended.
  - cbn [collect_from_fluid_obj is_None isinstance_str py_get mbind exc_bind].
    rewrite is_item_id_eq. cbn [mbind exc_bind].
    eapply post_bind.
    { apply post_if; [|intros; apply post_ok, extended_refl]. intros Hi.
      by apply post_token_from_fluid_id. }
    intros out1 H1. cbn beta in H1.
    eapply post_extended_trans; [exact H1|]. eapply post_bind.
    { destruct (dict_get d (py "fluids")); try apply post_ok, extended_refl.
      cbn [isinstance_list py_iter mbind exc_bind].
      apply post_for_each_extended, Forall_forall. intros el _ acc.
      apply post_append_if_fluid. }
    intros out2 H2. cbn beta in H2.
    eapply post_extended_trans; [exact H2|].
    eapply post_bind with (R := λ _, True); [done|]. intros ft _.
    rewrite is_tag_id_eq. cbn [mbind exc_bind].
    apply post_if; [|intros; apply post_ok, extended_refl]. intros Hi.
    by apply post_token_from_tag_id.
Qed.

(** X6.  The two collectors only append: what they return is the list
    they were given followed by new tokens, and each new token is
    [item:], [tag:] or [fluid:] in front of an id with [':'] in it. *)
Theorem collectors_append_prefixed_tokens (obj : pyval)
    (out out' : list pystr) :
  collect_from_ingredient_obj obj out = Ok out' ∨
  collect_from_fluid_obj obj out = Ok out' →
  ∃ new, out' = out ++ new ∧ Forall prefixed_token new.
Proof.
  intros [H|H].
  - by apply (collect_from_ingredient_obj_extended obj out).
  - by apply (collect_from_fluid_obj_extended obj out).
Qed.

Lemma collectors_append_prefixed_tokens_witness :
  ∃ new, [py "item:m:a"; py "tag:forge:dough"] = [py "item:m:a"] ++ new ∧
         Forall prefixed_token new.
Proof.
  apply (collectors_append_prefixed_tokens (PStr (py "#forge:dough"))).
  left. reflexivity.
Defined.

Lemma extract_tokens_extended (recipe : pyval) :
  post (extract_direct_ingredient_tokens recipe) (extended []).
Proof.
  destruct recipe; try apply post_ok, extended_refl.
  unfold extract_direct_ingredient_tokens.
  cbn [isinstance_dict negb py_in py_get mbind exc_bind].
  assert (∀ out l,
    post (for_each (λ tokens ing, collect_from_ingredient_obj ing tokens) l out)
      (extended out)) as Hing.
  { intros out l. apply post_for_each_extended, Forall_forall.
    intros ing _ acc. apply collect_from_ingredient_obj_extended. }
  eapply post_bind with (R := λ _, True); [done|]. intros c _.
  eapply post_bind.
  { apply post_if; [|intros; apply post_ok, extended_refl]. intros _.
    eapply post_bind with (R := λ _, True); [done|]. intros key _.
    eapply post_bind with (R := λ _, True); [done|]. intros vals _.
    apply Hing. }
  intros t1 H1. cbn beta in H1.
  eapply post_extended_trans; [exact H1|]. eapply post_bind.
  { apply post_if; [|intros; apply post_ok, extended_refl]. intros _.
    eapply post_bind with (R := λ _, True); [done|]. intros x _.
    eapply post_bind with (R := λ _, True); [done|]. intros els _.
    apply Hing. }
  intros t2 H2. cbn beta in H2.
  eapply post_extended_trans; [exact H2|]. eapply post_bind.
  { apply post_if; [|intros; apply post_ok, extended_refl]. intros _.
    apply collect_from_ingredient_obj_extended. }
  intros t3 H3. cbn beta in H3.
  eapply post_extended_trans; [exact H3|]. eapply post_bind.
  { apply post_if; [|intros; apply post_ok, extended_refl]. intros _.
    eapply post_bind; [apply collect_from_ingredient_obj_extended|].
    intros t' Ht'. cbn beta in Ht'.
    eapply post_extended_trans; [exact Ht'|].
    apply collect_from_fluid_obj_extended. }
  intros t4 H4. cbn beta in H4.
  eapply post_extended_trans; [exact H4|]. eapply post_bind.
  { apply post_if; [|intros; apply post_ok, extended_refl]. intros _.
    eapply post_bind with (R := λ _, True); [done|]. intros x _.
    eapply post_bind with (R := λ _, True); [done|]. intros els _.
    apply post_for_each_extended, Forall_forall. intros ing _ acc.
    eapply post_bind; [apply collect_from_ingredient_obj_extended|].
    intros t' Ht'. cbn beta in Ht'.
    eapply post_extended_trans; [exact Ht'|].
    apply collect_from_fluid_obj_extended. }
  intros t5 H5. cbn beta in H5.
  eapply post_extended_trans; [exact H5|].
  apply post_for_each_extended, Forall_forall. intros k _ acc.
  cbn [py_in py_get mbind exc_bind].
  apply post_if; [|intros; apply post_ok, extended_refl]. intros _.
  apply collect_from_fluid_obj_extended.
Qed.

Lemma tokens_of_prefixed (recipe : pyval) :
  Forall prefixed_token (tokens_of recipe).
Proof.
  destruct (extract_tokens_extended recipe (tokens_of recipe))
    as (new & -> & Hnew); [apply extract_tokens_of|done].
Qed.

Lemma str_lstrip_app (a b : pystr) (c : N) :
  c ∈ a → is_space c = false → str_lstrip (a ++ b) = str_lstrip a ++ b.
Proof.
  intros Hin Hc. induction a as [|x a IH]; [by apply elem_of_nil in Hin|].
  cbn [app str_lstrip]. destruct (is_space x) eqn:Ex; [|done].
  apply IH. apply elem_of_cons in Hin as [->|?]; [congruence|done].
Qed.

Lemma str_lstrip_keeps (s : pystr) (c : N) :
  c ∈ s → is_space c = false → c ∈ str_lstrip s.
Proof.
  intros Hin Hc. induction s as [|x s IH]; [done|].
  cbn [str_lstrip]. destruct (is_space x) eqn:Ex; [|done].
  apply IH. apply elem_of_cons in Hin as [->|?]; [congruence|done].
Qed.

Lemma str_rstrip_keeps (s : pystr) (c : N) :
  c ∈ s → is_space c = false → c ∈ str_rstrip s.
Proof.
  intros Hin Hc. unfold str_rstrip.
  apply elem_of_reverse, str_lstrip_keeps; [by apply elem_of_reverse|done].
Qed.

Lemma str_rstrip_app (p s : pystr) (c : N) :
  c ∈ s → is_space c = false → str_rstrip (p ++ s) = p ++ str_rstrip s.
Proof.
  intros Hin Hc. unfold str_rstrip.
  rewrite reverse_app, (str_lstrip_app _ _ c); [|by apply elem_of_reverse|done].
  by rewrite reverse_app, reverse_involutive.
Qed.

Lemma canonicalize_str_prefixed_token (p id : pystr) :
  p ∈ canonical_prefixes → 58%N ∈ id →
  canonicalize_str (p ++ id) = p ++ str_rstrip id.
Proof.
  intros Hp Hid. unfold canonicalize_str.
  assert (str_strip (p ++ id) = p ++ str_rstrip id) as ->.
  { unfold str_strip. rewrite str_lstrip_id.
    - by apply (str_rstrip_app _ _ 58%N).
    - intros c Hc. apply (canonical_prefix_head p); [done|].
      pose proof (canonical_prefix_nonempty p Hp). by destruct p. }
  by rewrite prefixed_app.
Qed.

(** X7.  A token the ingredient extractor returns already carries its
    prefix, so canonicalizing it only removes trailing whitespace, and the
    result is again a prefixed token: the branches of [canonicalize_token]
    that add [item:] or [tag:] are not reached from [build_direct_map]. *)
Theorem canonicalize_extracted_token (recipe : pyval) (tokens : list pystr)
    (t : pystr) :
  extract_direct_ingredient_tokens recipe = Ok tokens → t ∈ tokens →
  canonicalize_token (PStr t) = Ok (PStr (str_rstrip t)) ∧
  prefixed_token (str_rstrip t).
Proof.
  intros He Ht. rewrite extract_tokens_of in He. injection He as <-.
  pose proof (tokens_of_prefixed recipe) as Hall.
  rewrite Forall_forall in Hall. destruct (Hall t Ht) as (p & id & Hp & -> & Hid).
  rewrite canonicalize_token_str, canonicalize_str_prefixed_token by done.
  rewrite (str_rstrip_app _ _ 58%N) by done. split; [done|].
  exists p, (str_rstrip id). split; [done|]. split; [done|].
  by apply str_rstrip_keeps.
Qed.

Lemma canonicalize_extracted_token_witness :
  canonicalize_token (PStr (py "item:modA:wheat "))
    = Ok (PStr (str_rstrip (py "item:modA:wheat "))) ∧
  prefixed_token (str_rstrip (py "item:modA:wheat ")).
Proof.
  apply (canonicalize_extracted_token
           (PDict [(py "ingredient", PStr (py "modA:wheat "))])
           [py "item:modA:wheat "]).
  - vm_compute. reflexivity.
  - constructor.
Defined.

(* ------------------------------------------------------------------ *)
(** ** Laws of the merge *)
(* ------------------------------------------------------------------ *)


(** X8.  A merge touches only the entries of its outputs: the keys
    afterwards are the keys before together with the outputs (when there
    are tokens), every other entry is as it was, and no entry loses a
    token. *)
Theorem merge_direct_map_frame (direct_map : gmap pystr (gset pystr))
    (outputs : gset pystr) (tokens : list pystr) :
  dom (merge_direct_map direct_map outputs tokens)
  = dom direct_map ∪ (if decide (tokens = []) then ∅ else outputs) ∧
  (∀ k, k ∉ outputs →
        merge_direct_map direct_map outputs tokens !! k = direct_map !! k) ∧
  (∀ k s, direct_map !! k = Some s →
          ∃ s', merge_direct_map direct_map outputs tokens !! k = Some s'
                ∧ s ⊆ s').
Proof.
  split; [|split].
  - apply set_eq. intros k. rewrite elem_of_union, !elem_of_dom.
    rewrite merge_direct_map_lookup.
    destruct (decide (tokens = [])) as [->|Hne].
    + rewrite decide_False by (intros [_ ?]; done). set_solver.
    + destruct (decide (k ∈ outputs)) as [Hin|Hnin].
      * rewrite decide_True by done. split; [by right|by eexists].
      * rewrite decide_False by (intros [? _]; done). set_solver.
  - intros k Hk. rewrite merge_direct_map_lookup.
    by rewrite decide_False by (intros [? _]; done).
  - intros k s Hs. rewrite merge_direct_map_lookup.
    case_decide; [|by exists s]. rewrite Hs. eexists. split; [done|].
    cbn [default]. set_solver.
Qed.

Lemma merge_direct_map_frame_witness :
  merge_direct_map {[py "m:A" := {[py "item:m:x"]}]} {[py "m:B"]}
    [py "item:m:y"] !! py "m:A"
  = ({[py "m:A" := {[py "item:m:x"]}]} : gmap pystr (gset pystr)) !! py "m:A".
Proof.
  apply merge_direct_map_frame.
  refine (bool_decide_eq_false_1 _ _); vm_compute; reflexivity.
Defined.

(** X9.  Merges compose: merging two token lists one after the other into
    the same outputs is merging their concatenation, merging the same
    tokens into two output sets is merging them into the union, a merge
    done twice is the merge done once, and only the set of tokens counts,
    not their order or repetitions. *)
Theorem merge_direct_map_compose (direct_map : gmap pystr (gset pystr))
    (outputs outputs' : gset pystr) (tokens tokens' : list pystr) :
  merge_direct_map (merge_direct_map direct_map outputs tokens) outputs tokens'
  = merge_direct_map direct_map outputs (tokens ++ tokens') ∧
  merge_direct_map (merge_direct_map direct_map outputs tokens) outputs' tokens
  = merge_direct_map direct_map (outputs ∪ outputs') tokens ∧
  merge_direct_map (merge_direct_map direct_map outputs tokens) outputs tokens
  = merge_direct_map direct_map outputs tokens ∧
  ((∀ t, t ∈ tokens ↔ t ∈ tokens') →
   merge_direct_map direct_map outputs tokens
   = merge_direct_map direct_map outputs tokens').
Proof.
  split; [|split; [|split]].
  - apply map_eq. intros k. rewrite !merge_direct_map_lookup.
    destruct tokens, tokens'; repeat case_decide; try done;
      try (exfalso; naive_solver);
      rewrite ?app_nil_r; cbn [default]; try done; f_equal; set_solver.
  - apply map_eq. intros k. rewrite !merge_direct_map_lookup.
    repeat case_decide; try done; try (exfalso; set_solver);
      cbn [default]; f_equal; set_solver.
  - apply map_eq. intros k. rewrite !merge_direct_map_lookup.
    repeat case_decide; try done. cbn [default]. f_equal. set_solver.
  - intros Heq. apply map_eq. intros k. rewrite !merge_direct_map_lookup.
    assert (tokens = [] ↔ tokens' = []) as Hnil.
    { split; intros ->.
      - destruct tokens' as [|t ?]; [done|]. specialize (Heq t). set_solver.
      - destruct tokens as [|t ?]; [done|]. specialize (Heq t). set_solver. }
    repeat case_decide; try done; try (exfalso; naive_solver).
    f_equal. set_solver.
Qed.

Lemma merge_direct_map_compose_witness :
  merge_direct_map ∅ {[py "m:A"]} [py "item:m:x"; py "item:m:y"]
  = merge_direct_map ∅ {[py "m:A"]}
      [py "item:m:y"; py "item:m:x"; py "item:m:y"].
Proof.
  apply merge_direct_map_compose; [exact ∅|]. intros t.
  rewrite !elem_of_cons, elem_of_nil. tauto.
Defined.

(* ------------------------------------------------------------------ *)
(** ** Order of the finalized lists *)
(* ------------------------------------------------------------------ *)

Lemma str_leb_total (a b : pystr) : str_leb a b = true ∨ str_leb b a = true.
Proof.
  revert b. induction a as [|c a IH]; intros [|d b]; cbn [str_leb]; auto.
  destruct (N.ltb_spec c d), (N.ltb_spec d c), (N.eqb_spec c d),
    (N.eqb_spec d c); cbn [orb andb]; auto; lia.
Qed.

Lemma str_leb_trans (a b c : pystr) :
  str_leb a b = true → str_leb b c = true → str_leb a c = true.
Proof.
  revert b c. induction a as [|x a IH]; intros [|y b] [|z c];
    cbn [str_leb]; try done.
  destruct (N.ltb_spec x y), (N.ltb_spec y z), (N.ltb_spec x z),
    (N.eqb_spec x y), (N.eqb_spec y z), (N.eqb_spec x z);
    cbn [orb andb]; try done; try lia; eauto.
Qed.

Lemma str_leb_antisym (a b : pystr) :
  str_leb a b = true → str_leb b a = true → a = b.
Proof.
  revert b. induction a as [|x a IH]; intros [|y b]; cbn [str_leb]; try done.
  destruct (N.ltb_spec x y), (N.ltb_spec y x), (N.eqb_spec x y),
    (N.eqb_spec y x); cbn [orb andb]; try done; try lia.
  intros H1 H2. subst. f_equal. by apply IH.
Qed.

Lemma str_le_total : Total str_le.
Proof.
  intros a b. unfold str_le.
  destruct (str_leb_total a b) as [->| ->]; [by left|by right].
Qed.

Lemma str_le_trans : Transitive str_le.
Proof.
  intros a b c. unfold str_le. rewrite !Is_true_true. apply str_leb_trans.
Qed.

Lemma str_le_antisym : AntiSymm (=) str_le.
Proof.
  intros a b. unfold str_le. rewrite !Is_true_true. apply str_leb_antisym.
Qed.

Lemma sorted_Sorted (xs : list pystr) : Sorted str_le (sorted xs).
Proof.
  pose proof str_le_total. unfold sorted. apply (Sorted_merge_sort str_le).
Qed.

Lemma sorted_NoDup (xs : list pystr) : NoDup xs → NoDup (sorted xs).
Proof. unfold sorted. by rewrite merge_sort_Permutation. Qed.

(** X10.  [finalize_direct_map] keeps the keys, and turns each token set
    into the list of its elements in ascending order without repetition:
    the one such list there is. *)
Theorem finalize_direct_map_sorted (direct_map : gmap pystr (gset pystr)) :
  dom (finalize_direct_map direct_map) = dom direct_map ∧
  ∀ k s, direct_map !! k = Some s →
    ∃ listed,
      finalize_direct_map direct_map !! k = Some listed ∧
      Sorted str_le listed ∧ NoDup listed ∧
      (∀ t, t ∈ listed ↔ t ∈ s) ∧
      (∀ other, Sorted str_le other → NoDup other →
                (∀ t, t ∈ other ↔ t ∈ s) → other = listed).
Proof.
  split.
  - apply set_eq. intros k.
    rewrite !elem_of_dom, finalize_direct_map_lookup.
    by rewrite fmap_is_Some.
  - intros k s Hs. exists (sorted (elements s)).
    rewrite finalize_direct_map_lookup, Hs.
    assert (∀ t, t ∈ sorted (elements s) ↔ t ∈ s) as Hel.
    { intros t. by rewrite elem_of_sorted, elem_of_elements. }
    split; [done|]. split; [apply sorted_Sorted|].
    split; [apply sorted_NoDup, NoDup_elements|]. split; [done|].
    intros other Hsort Hnd Hother.
    pose proof str_le_trans. pose proof str_le_antisym.
    apply (Sorted_unique str_le); [done|apply sorted_Sorted|].
    apply NoDup_Permutation; [done|apply sorted_NoDup, NoDup_elements|].
    intros t. by rewrite Hother, Hel.
Qed.

Lemma finalize_direct_map_sorted_witness :
  ∃ listed,
    finalize_direct_map
      {[py "m:A" := {[py "tag:m:y"; py "item:m:x"]}]} !! py "m:A"
    = Some listed ∧
    Sorted str_le listed ∧ NoDup listed ∧
    (∀ t, t ∈ listed ↔ t ∈ ({[py "tag:m:y"; py "item:m:x"]} : gset pystr)) ∧
    (∀ other, Sorted str_le other → NoDup other →
              (∀ t, t ∈ other
                    ↔ t ∈ ({[py "tag:m:y"; py "item:m:x"]} : gset pystr)) →
              other = listed).
Proof.
  apply (proj2 (finalize_direct_map_sorted _)). vm_compute. reflexivity.
Defined.

(* ------------------------------------------------------------------ *)
(** ** Content of the direct map *)
(* ------------------------------------------------------------------ *)

Lemma contributed_iff (recipes : list recipe_entry) (k t : pystr) :
  contributed recipes k t ↔
  ∃ e, e ∈ recipes ∧ k ∈ outputs_of e.2 ∧
       t ∈ canonicalize_str <$> tokens_of e.2.
Proof.
  split.
  - intros (src & rel & recipe & outputs & tokens & raw & He & Ho & Hk & Ht
            & Hraw & Hc).
    rewrite extract_outputs_of in Ho. rewrite extract_tokens_of in Ht.
    rewrite canonicalize_token_str in Hc.
    injection Ho as <-. injection Ht as <-. injection Hc as <-.
    exists (src, rel, recipe). split; [done|]. split; [done|].
    apply list_elem_of_fmap. by exists raw.
  - intros ([[src rel] recipe] & He & Hk & Ht). cbn [snd] in Hk, Ht.
    apply list_elem_of_fmap in Ht as (raw & -> & Hraw).
    exists src, rel, recipe, (outputs_of recipe), (tokens_of recipe), raw.
    split; [done|]. split; [apply extract_outputs_of|]. split; [done|].
    split; [apply extract_tokens_of|]. split; [done|].
    apply canonicalize_token_str.
Qed.

Lemma accumulate_elem (recipes : list recipe_entry)
    (direct_map : gmap pystr (gset pystr)) (k t : pystr) :
  t ∈ default ∅ (accumulate recipes direct_map !! k) ↔
  t ∈ default ∅ (direct_map !! k) ∨
  ∃ e, e ∈ recipes ∧ k ∈ outputs_of e.2 ∧
       t ∈ canonicalize_str <$> tokens_of e.2.
Proof.
  revert direct_map. induction recipes as [|e recipes IH]; intros direct_map.
  - cbn [accumulate foldl]. split; [by left|].
    intros [?|(e & He & _)]; [done|by apply elem_of_nil in He].
  - rewrite accumulate_cons, IH, merge_direct_map_lookup. split.
    + intros [Hm|(e' & He' & H)].
      * case_decide as Hd; [|by left]. cbn [default from_option id] in Hm.
        apply elem_of_union in Hm as [?|Hm]; [by left|]. right.
        exists e. split; [by left|]. split; [apply Hd|].
        by apply elem_of_list_to_set in Hm.
      * right. exists e'. split; [by right|done].
    + intros [Hm|(e' & He' & Hk & Ht)].
      * left. case_decide; [|done]. cbn [default]. set_solver.
      * apply elem_of_cons in He' as [->|He'].
        -- left. rewrite decide_True.
           ++ cbn [default from_option id]. apply elem_of_union_r.
              by apply elem_of_list_to_set.
           ++ split; [done|]. intros Hnil. rewrite Hnil in Ht.
              by apply elem_of_nil in Ht.
        -- right. by exists e'.
Qed.

Lemma accumulate_is_Some (recipes : list recipe_entry)
    (direct_map : gmap pystr (gset pystr)) (k : pystr) :
  is_Some (accumulate recipes direct_map !! k) ↔
  is_Some (direct_map !! k) ∨
  ∃ e, e ∈ recipes ∧ k ∈ outputs_of e.2 ∧ tokens_of e.2 ≠ [].
Proof.
  revert direct_map. induction recipes as [|e recipes IH]; intros direct_map.
  - cbn [accumulate foldl]. split; [by left|].
    intros [?|(e & He & _)]; [done|by apply elem_of_nil in He].
  - rewrite accumulate_cons, IH, merge_direct_map_lookup. split.
    + intros [Hm|(e' & He' & H)].
      * case_decide as Hd; [|by left]. right. exists e.
        split; [by left|]. split; [apply Hd|].
        intros Hnil. destruct Hd as [_ Hd]. by rewrite Hnil in Hd.
      * right. exists e'. split; [by right|done].
    + intros [Hm|(e' & He' & Hk & Ht)].
      * left. case_decide; [by eexists|done].
      * apply elem_of_cons in He' as [->|He'].
        -- left. rewrite decide_True; [by eexists|]. split; [done|].
           intros Hnil%fmap_nil_inv. done.
        -- right. by exists e'.
Qed.

Lemma listed_under_build (recipes : list recipe_entry) (k t : pystr) :
  t ∈ listed_under (finalize_direct_map (accumulate recipes ∅)) k ↔
  ∃ e, e ∈ recipes ∧ k ∈ outputs_of e.2 ∧
       t ∈ canonicalize_str <$> tokens_of e.2.
Proof.
  unfold listed_under. rewrite finalize_direct_map_lookup.
  pose proof (accumulate_elem recipes ∅ k t) as H.
  rewrite lookup_empty in H. cbn [default] in H.
  destruct (accumulate recipes ∅ !! k) as [s|];
    cbn [fmap option_fmap option_map default from_option id] in H |- *.
  - rewrite elem_of_sorted, elem_of_elements, H. set_solver.
  - split.
    + by intros ?%elem_of_nil.
    + intros He. apply elem_of_nil. exfalso.
      assert (t ∈ (∅ : gset pystr)) by (apply H; by right). set_solver.
Qed.

(** X11.  The finalized direct map holds nothing but what the documents
    contribute: a token is listed under a key exactly when some streamed
    document has that key among its outputs and a token that canonicalizes
    to it. *)
Theorem build_direct_map_content (recipes : list recipe_entry)
    (finalized : gmap pystr (list pystr)) (k t : pystr) :
  build_direct_map recipes = Ok finalized →
  (t ∈ listed_under finalized k ↔ contributed recipes k t).
Proof.
  rewrite build_direct_map_eq. intros [= <-].
  by rewrite listed_under_build, contributed_iff.
Qed.

Lemma build_direct_map_content_witness :
  py "tag:modB:dough"
    ∈ listed_under
        {[py "modA:bread" := [py "item:modA:wheat"; py "tag:modB:dough"]]}
        (py "modA:bread")
  ↔ contributed [(py "a.jar", py "data/a/recipes/bread.json", bread_recipe)]
      (py "modA:bread") (py "tag:modB:dough").
Proof. apply build_direct_map_content. vm_compute. reflexivity. Defined.




Lemma dom_build (recipes : list recipe_entry) (k : pystr) :
  k ∈ dom (finalize_direct_map (accumulate recipes ∅)) ↔
  ∃ e, e ∈ recipes ∧ k ∈ outputs_of e.2 ∧ tokens_of e.2 ≠ [].
Proof.
  rewrite elem_of_dom, finalize_direct_map_lookup, fmap_is_Some.
  rewrite accumulate_is_Some, lookup_empty. split.
  - intros [[? [=]]|?]; done.
  - by right.
Qed.

(** X13.  The direct map of a stream cut in two is the key-wise union of
    the direct maps of the two parts: its keys are the keys of either
    part, and under each key it lists the tokens either part lists. *)
Theorem build_direct_map_app (recipes1 recipes2 : list recipe_entry)
    (finalized finalized1 finalized2 : gmap pystr (list pystr)) :
  build_direct_map (recipes1 ++ recipes2) = Ok finalized →
  build_direct_map recipes1 = Ok finalized1 →
  build_direct_map recipes2 = Ok finalized2 →
  dom finalized = dom finalized1 ∪ dom finalized2 ∧
  ∀ k t, t ∈ listed_under finalized k ↔
         t ∈ listed_under finalized1 k ∨ t ∈ listed_under finalized2 k.
Proof.
  rewrite !build_direct_map_eq. intros [= <-] [= <-] [= <-]. split.
  - apply set_eq. intros k. rewrite elem_of_union, !dom_build.
    setoid_rewrite elem_of_app. naive_solver.
  - intros k t. rewrite !listed_under_build.
    setoid_rewrite elem_of_app. naive_solver.
Qed.

(** The bread recipe in one part; in the other, a second recipe for bread
    and a recipe for toast. *)
Lemma build_direct_map_app_witness :
  dom ({[py "modA:bread" := [py "item:modA:flour"; py "item:modA:wheat";
                            py "tag:modB:dough"];
         py "modA:toast" := [py "item:modA:bread"]]}
       : gmap pystr (list pystr))
  = dom ({[py "modA:bread" := [py "item:modA:wheat"; py "tag:modB:dough"]]}
         : gmap pystr (list pystr))
    ∪ dom ({[py "modA:bread" := [py "item:modA:flour"];
             py "modA:toast" := [py "item:modA:bread"]]}
           : gmap pystr (list pystr)) ∧
  ∀ k t,
    t ∈ listed_under
          {[py "modA:bread" := [py "item:modA:flour"; py "item:modA:wheat";
                                py "tag:modB:dough"];
            py "modA:toast" := [py "item:modA:bread"]]} k
    ↔ t ∈ listed_under
            {[py "modA:bread" := [py "item:modA:wheat"; py "tag:modB:dough"]]} k
      ∨ t ∈ listed_under
              {[py "modA:bread" := [py "item:modA:flour"];
                py "modA:toast" := [py "item:modA:bread"]]} k.
Proof.
  apply (build_direct_map_app
           [(py "a.jar", py "data/a/recipes/bread.json", bread_recipe)]
           [(py "b.jar", py "data/b/recipes/bread.json",
             PDict [(py "result", PStr (py "modA:bread"));
                    (py "ingredient", PStr (py "modA:flour"))]);
            (py "b.jar", py "data/b/recipes/toast.json",
             PDict [(py "result", PDict [(py "item", PStr (py "modA:toast"))]);
                    (py "ingredient",
                     PDict [(py "item", PStr (py "modA:bread"))])])]);
    vm_compute; reflexivity.
Defined.

Lemma outputs_of_item_ids (recipe : pyval) : all_item_ids (outputs_of recipe).
Proof.
  assert (post (extract_outputs recipe) all_item_ids) as H.
  { destruct recipe; try (apply post_ok, all_item_ids_empty).
    intros outputs He.
    destruct (succeeds_from_result_obj (dict_get d (py "result"))) as [r1 H1].
    destruct (succeeds_from_result_obj (dict_get d (py "results"))) as [r2 H2].
    destruct (succeeds_from_result_obj (dict_get d (py "output"))) as [r3 H3].
    destruct (succeeds_from_result_obj (dict_get d (py "outputs"))) as [r4 H4].
    pose proof (from_result_obj_item_ids _ _ H1).
    pose proof (from_result_obj_item_ids _ _ H2).
    pose proof (from_result_obj_item_ids _ _ H3).
    pose proof (from_result_obj_item_ids _ _ H4).
    revert He. unfold extract_outputs. cbn [isinstance_dict negb].
    rewrite (output_field_bind d _ _ _ _ H1).
    rewrite (output_field_bind d _ _ _ _ H2).
    case_bool_decide.
    - rewrite (output_field_bind d _ _ _ _ H3).
      rewrite (output_field_eq d _ _ _ H4). intros [= <-].
      repeat apply all_item_ids_union; auto using all_item_ids_empty.
    - intros [= <-].
      repeat apply all_item_ids_union; auto using all_item_ids_empty. }
  apply H, extract_outputs_of.
Qed.

(** X14.  Every key of a finalized direct map is an item id ([':'] in it,
    no leading ['#']), and every token listed is [item:], [tag:] or
    [fluid:] in front of an id with [':'] in it. *)
Theorem build_direct_map_well_formed (recipes : list recipe_entry)
    (finalized : gmap pystr (list pystr)) (k : pystr) (listed : list pystr) :
  build_direct_map recipes = Ok finalized →
  finalized !! k = Some listed →
  (58%N ∈ k ∧ str_startswith k (py "#") = false) ∧
  Forall prefixed_token listed.
Proof.
  rewrite build_direct_map_eq. intros [= <-] Hk. split.
  - assert (k ∈ dom (finalize_direct_map (accumulate recipes ∅))) as Hd
      by by apply elem_of_dom_2 in Hk.
    apply dom_build in Hd as (e & _ & Ho & _).
    pose proof (outputs_of_item_ids _ _ Ho) as Hid.
    unfold item_id_str, item_idb in Hid.
    apply andb_true_iff in Hid as [Hc Hh].
    apply (str_contains_char 58%N) in Hc. by apply negb_true_iff in Hh.
  - apply Forall_forall. intros t Ht.
    assert (t ∈ listed_under (finalize_direct_map (accumulate recipes ∅)) k)
      as Hl by (unfold listed_under; by rewrite Hk).
    apply listed_under_build in Hl as (e & _ & _ & Hin).
    apply list_elem_of_fmap in Hin as (raw & -> & Hraw).
    pose proof (tokens_of_prefixed e.2) as Hall.
    rewrite Forall_forall in Hall.
    destruct (Hall raw Hraw) as (p & id & Hp & -> & Hid).
    rewrite canonicalize_str_prefixed_token by done.
    exists p, (str_rstrip id). split; [done|]. split; [done|].
    by apply str_rstrip_keeps.
Qed.

Lemma build_direct_map_well_formed_witness :
  (58%N ∈ py "modA:bread" ∧ str_startswith (py "modA:bread") (py "#") = false) ∧
  Forall prefixed_token [py "item:modA:wheat"; py "tag:modB:dough"].
Proof.
  apply (build_direct_map_well_formed
           [(py "a.jar", py "data/a/recipes/bread.json", bread_recipe)]
           {[py "modA:bread" := [py "item:modA:wheat"; py "tag:modB:dough"]]});
    vm_compute; reflexivity.
Defined.

(* ------------------------------------------------------------------ *)
(** ** Runs *)
(* ------------------------------------------------------------------ *)

Lemma load_edible_items_eq (edibles_path : path) (w : world) :
  load_edible_items edibles_path w = (w, edibles_result w edibles_path).
Proof.
  unfold load_edible_items, edibles_result. rewrite io_bind_eq.
  unfold read_json at 1.
  destruct (files w !! edibles_path) as [[obj|]|] eqn:Hf; try done.
  destruct obj; try done.
  cbn [isinstance_dict negb]. rewrite io_bind_eq.
  unfold io_lift at 1. cbn [py_get].
  destruct (dict_get d (py "items")) eqn:E; try done.
  cbn [isinstance_list negb]. unfold io_lift. cbn [py_iter mbind exc_bind].
  rewrite edible_loop_eq. do 2 f_equal. set_solver.
Qed.

Lemma all_exist_readonly (ps : list path) (w : world) :
  ∃ b, all_exist ps w = (w, Ok b).
Proof.
  induction ps as [|p ps [b IH]]; [by eexists|].
  cbn [all_exist]. rewrite io_bind_eq. unfold path_exists at 1.
  destruct (_ || _); [by exists b|by eexists].
Qed.

Lemma scan_and_build_dry (scan : world → list path → list recipe_entry)
    (args : Args) (w : world) :
  dry_run args = true →
  scan_and_build scan args w
  = (w, Ok (finalize_direct_map (accumulate (scan w (inputs args)) ∅))).
Proof.
  intros Hdry. unfold scan_and_build. rewrite Hdry.
  destruct (direct_map_out args);
    unfold io_when, io_lift, mbind, io_bind, mret, io_ret; cbn [negb];
    by rewrite build_direct_map_eq.
Qed.

Lemma make_dirs_error (p : path) (w : world) (e : pyexn) :
  make_dirs p w = Raise e →
  e ≠ TypeError ∧ e ≠ AttributeError ∧ ∀ k, e ≠ KeyError k.
Proof.
  unfold make_dirs. repeat case_match; intros [= <-]; by repeat split.
Qed.

Lemma mkdir_error (p : path) (w w' : world) (e : pyexn) :
  mkdir p w = (w', Raise e) →
  e ≠ TypeError ∧ e ≠ AttributeError ∧ ∀ k, e ≠ KeyError k.
Proof.
  unfold mkdir. destruct (make_dirs p w) as [ds|e'] eqn:Hd; intros [= <- <-].
  by apply (make_dirs_error p w).
Qed.

Lemma write_json_error (p : path) (obj : pyval) (w w' : world) (e : pyexn) :
  write_json p obj w = (w', Raise e) →
  e ≠ TypeError ∧ e ≠ AttributeError ∧ ∀ k, e ≠ KeyError k.
Proof.
  unfold write_json. destruct (make_dirs (parent p) w) as [ds|e'] eqn:Hd.
  - repeat case_match; intros [= <- <-]; by repeat split.
  - intros [= <- <-]. by apply (make_dirs_error (parent p) w).
Qed.

Lemma scan_and_build_error (scan : world → list path → list recipe_entry)
    (args : Args) (w w1 : world) (e : pyexn) :
  scan_and_build scan args w = (w1, Raise e) →
  e ≠ TypeError ∧ e ≠ AttributeError ∧ ∀ k, e ≠ KeyError k.
Proof.
  unfold scan_and_build.
  destruct (dry_run args) eqn:Hdry; cbn [negb io_when].
  - rewrite io_bind_eq. cbn [mret io_ret]. rewrite io_bind_eq.
    rewrite io_bind_eq. unfold io_lift at 1. rewrite build_direct_map_eq.
    rewrite io_bind_eq.
    destruct (direct_map_out args); cbn [mret io_ret]; discriminate.
  - rewrite io_bind_eq, io_bind_eq.
    destruct (mkdir _ w) as [wa [[]|ea]] eqn:Ha.
    2:{ intros [= <- <-]. by apply mkdir_error in Ha. }
    destruct (mkdir _ wa) as [wb [[]|eb]] eqn:Hb.
    2:{ intros [= <- <-]. by apply mkdir_error in Hb. }
    rewrite io_bind_eq, io_bind_eq. unfold io_lift at 1.
    rewrite build_direct_map_eq, io_bind_eq.
    destruct (direct_map_out args) as [out|]; cbn [mret io_ret];
      [|discriminate].
    rewrite io_bind_eq.
    destruct (mkdir _ wb) as [wc [[]|ec]] eqn:Hc.
    2:{ intros [= <- <-]. by apply mkdir_error in Hc. }
    destruct (write_json _ _ wc) as [wd [[]|ed]] eqn:Hd; [discriminate|].
    intros [= <- <-]. by apply write_json_error in Hd.
Qed.

(** The rest of [main] once the direct map is built. *)
Lemma main_from_build (scan : world → list path → list recipe_entry)
    (args : Args) (w w1 : world) (direct_map : gmap pystr (list pystr)) :
  path_exists (edibles args) w = (w, Ok true) →
  all_exist (inputs args) w = (w, Ok true) →
  scan_and_build scan args w = (w1, Ok direct_map) →
  (∀ e, edibles_result w1 (edibles args) = Raise e →
        main scan args w = (w1, Raise e)) ∧
  (∀ edible_items, edibles_result w1 (edibles args) = Ok edible_items →
     objects (main scan args w).1 = objects w1 ∧
     (dry_run args = true → main scan args w = (w1, Ok 0%Z)) ∧
     ((main scan args w).2 = Ok 0%Z →
      log (main scan args w).1
      = log w1 ++ generated_effects args direct_map edible_items) ∧
     ((main scan args w).2 = Ok 0%Z ∨
      ∃ e, (main scan args w).2 = Raise e ∧
           e ≠ TypeError ∧ e ≠ AttributeError ∧ ∀ k, e ≠ KeyError k)).
Proof.
  intros He Ha Hb. split.
  - intros e Hr. unfold main.
    rewrite io_bind_eq, He. cbn [negb].
    rewrite io_bind_eq, Ha. cbn [negb].
    rewrite io_bind_eq, Hb. by rewrite io_bind_eq, load_edible_items_eq, Hr.
  - intros edible_items Hr. unfold main.
    rewrite io_bind_eq, He. cbn [negb].
    rewrite io_bind_eq, Ha. cbn [negb].
    rewrite io_bind_eq, Hb. rewrite io_bind_eq, load_edible_items_eq, Hr.
    unfold generated_effects.
    destruct (dry_run args); cbn [negb io_when].
    + rewrite io_bind_eq. cbn [mret io_ret fst snd].
      rewrite app_nil_r. repeat split; auto.
    + rewrite io_bind_eq, io_bind_eq.
      unfold write_generated_food_list, write_generated_stats.
      rewrite <-!app_assoc. cbn [app].
      destruct (write_json _ _ w1) as [wa ra] eqn:Hwa.
      pose proof Hwa as Hwa'.
      apply write_json_inv in Hwa' as [(-> & _ & Hoa & Hla)|(e & -> & Hoa & _)].
      2:{ cbn [fst snd]. split; [done|]. split; [done|]. split; [done|].
          right. exists e. split; [done|]. by apply write_json_error in Hwa. }
      destruct (write_json _ _ wa) as [wb rb] eqn:Hwb.
      pose proof Hwb as Hwb'.
      apply write_json_inv in Hwb' as [(-> & _ & Hob & Hlb)|(e & -> & Hob & _)].
      2:{ cbn [fst snd]. split; [congruence|]. split; [done|]. split; [done|].
          right. exists e. split; [done|]. by apply write_json_error in Hwb. }
      cbn [mret io_ret fst snd]. split; [congruence|]. split; [done|].
      split; [|by left]. intros _. rewrite Hlb, Hla. by rewrite <-app_assoc.
Qed.

(** X15.  A dry run changes nothing: whatever the inputs and however the
    run ends, the file system, the nodes in memory and the record of
    persistence effects are afterwards what they were before. *)
Theorem main_dry_run_no_effect
    (scan : world → list path → list recipe_entry) (args : Args) (w : world) :
  dry_run args = true → (main scan args w).1 = w.
Proof.
  intros Hdry.
  assert (∃ b, path_exists (edibles args) w = (w, Ok b)) as [b He]
    by (by eexists).
  destruct b; [|unfold main; by rewrite io_bind_eq, He].
  destruct (all_exist_readonly (inputs args) w) as [b Ha].
  destruct b.
  2:{ unfold main. rewrite io_bind_eq, He. cbn [negb].
      by rewrite io_bind_eq, Ha. }
  pose proof (scan_and_build_dry scan args w Hdry) as Hb.
  destruct (main_from_build scan args w w _ He Ha Hb) as [Hraise Hok].
  destruct (edibles_result w (edibles args)) as [E|e] eqn:Hr.
  - destruct (Hok E eq_refl) as (_ & Hw & _). by rewrite (Hw Hdry).
  - by rewrite (Hraise e eq_refl).
Qed.

Lemma main_dry_run_no_effect_witness :
  (main example_scan
     {| edibles := [py "edibles.json"]; inputs := [[py "mods"]];
        registry := [py "registry"];
        direct_map_out := Some [py "out"; py "direct_map.json"];
        dry_run := true; verbose := true |}
     (example_world (PDict [(py "items", PList [PStr (py "modA:bread")])]))).1
  = example_world (PDict [(py "items", PList [PStr (py "modA:bread")])]).
Proof. apply main_dry_run_no_effect. reflexivity. Defined.

(** A run that returns a status has gone through every stage. *)
Lemma main_returns (scan : world → list path → list recipe_entry)
    (args : Args) (w w2 : world) (z : Z) :
  main scan args w = (w2, Ok z) →
  (z = 2%Z ∧ w2 = w ∧
   (path_exists (edibles args) w = (w, Ok false) ∨
    all_exist (inputs args) w = (w, Ok false))) ∨
  (z = 0%Z ∧
   path_exists (edibles args) w = (w, Ok true) ∧
   all_exist (inputs args) w = (w, Ok true) ∧
   ∃ w1 direct_map edible_items,
     scan_and_build scan args w = (w1, Ok direct_map) ∧
     load_edible_items (edibles args) w1 = (w1, Ok edible_items)).
Proof.
  intros Hm.
  assert (∃ b, path_exists (edibles args) w = (w, Ok b)) as [b He]
    by (by eexists).
  destruct b.
  2:{ left. unfold main in Hm. rewrite io_bind_eq, He in Hm.
      injection Hm as <- <-. auto. }
  destruct (all_exist_readonly (inputs args) w) as [b Ha].
  destruct b.
  2:{ left. unfold main in Hm. rewrite io_bind_eq, He in Hm. cbn [negb] in Hm.
      rewrite io_bind_eq, Ha in Hm. injection Hm as <- <-. auto. }
  right.
  destruct (scan_and_build scan args w) as [w1 [dm|e]] eqn:Hb.
  2:{ rewrite (main_build_fails _ _ _ _ _ He Ha Hb) in Hm. discriminate. }
  destruct (main_from_build scan args w w1 dm He Ha Hb) as [Hraise Hok].
  destruct (edibles_result w1 (edibles args)) as [E|e] eqn:Hr.
  2:{ rewrite (Hraise e eq_refl) in Hm. discriminate. }
  destruct (Hok E eq_refl) as (_ & _ & _ & [H0|(e & H0 & _)]);
    rewrite Hm in H0; cbn [snd] in H0; [|discriminate].
  injection H0 as ->. split; [done|]. split; [done|]. split; [done|].
  exists w1, dm, E. split; [done|]. by rewrite load_edible_items_eq, Hr.
Qed.

(** X16.  A run that returns status 0 has found its paths, completed the
    stages before the masterlist is loaded and loaded the masterlist; its
    persistence effects are, in this order: those of the stages before the
    masterlist is loaded, then the write of [foods.json] and the write of
    [stats.json] (none of them in a dry run).  It leaves the nodes in
    memory alone. *)
Theorem main_success (scan : world → list path → list recipe_entry)
    (args : Args) (w w2 : world) :
  main scan args w = (w2, Ok 0%Z) →
  path_exists (edibles args) w = (w, Ok true) ∧
  all_exist (inputs args) w = (w, Ok true) ∧
  ∃ w1 direct_map edible_items,
    scan_and_build scan args w = (w1, Ok direct_map) ∧
    load_edible_items (edibles args) w1 = (w1, Ok edible_items) ∧
    log w2 = log w ++ effects_before_edibles args direct_map
             ++ generated_effects args direct_map edible_items ∧
    objects w2 = objects w.
Proof.
  intros Hm.
  destruct (main_returns _ _ _ _ _ Hm)
    as [([=] & _)|(_ & He & Ha & w1 & dm & E & Hb & Hl)].
  split; [done|]. split; [done|]. exists w1, dm, E.
  split; [done|]. split; [done|].
  destruct (main_from_build scan args w w1 dm He Ha Hb) as [_ Hok].
  rewrite load_edible_items_eq in Hl. injection Hl as Hr.
  destruct (Hok E Hr) as (Hobj & _ & Hlog & _).
  destruct (scan_and_build_log _ _ _ _ _ Hb) as (Hlog1 & Hobj1 & _).
  rewrite Hm in Hobj, Hlog. cbn [fst snd] in Hobj, Hlog. split.
  - by rewrite Hlog, Hlog1, <-app_assoc.
  - congruence.
Qed.

Lemma main_success_witness :
  path_exists (edibles example_args)
    (example_world (PDict [(py "items", PList [PStr (py "modA:bread")])]))
  = (example_world (PDict [(py "items", PList [PStr (py "modA:bread")])]),
     Ok true) ∧
  all_exist (inputs example_args)
    (example_world (PDict [(py "items", PList [PStr (py "modA:bread")])]))
  = (example_world (PDict [(py "items", PList [PStr (py "modA:bread")])]),
     Ok true) ∧
  ∃ w1 direct_map edible_items,
    scan_and_build example_scan example_args
      (example_world (PDict [(py "items", PList [PStr (py "modA:bread")])]))
    = (w1, Ok direct_map) ∧
    load_edible_items (edibles example_args) w1 = (w1, Ok edible_items) ∧
    log (main example_scan example_args
           (example_world
              (PDict [(py "items", PList [PStr (py "modA:bread")])]))).1
    = log (example_world
             (PDict [(py "items", PList [PStr (py "modA:bread")])]))
      ++ effects_before_edibles example_args direct_map
      ++ generated_effects example_args direct_map edible_items ∧
    objects (main example_scan example_args
               (example_world
                  (PDict [(py "items", PList [PStr (py "modA:bread")])]))).1
    = objects (example_world
                 (PDict [(py "items", PList [PStr (py "modA:bread")])])).
Proof.
  apply (main_success example_scan example_args
           (example_world (PDict [(py "items", PList [PStr (py "modA:bread")])]))).
  vm_compute. reflexivity.
Defined.

Lemma length_sorted (xs : list pystr) : length (sorted xs) = length xs.
Proof. unfold sorted. by rewrite merge_sort_Permutation. Qed.

(** X17.  In a run that writes its artifacts and returns status 0, the
    food list of [foods.json] is in ascending order without repetition and
    holds exactly the keys of the direct map that the masterlist names;
    [food_count] is its length and equals [edible_output_count], which
    exceeds neither [direct_map_output_count] nor [edible_item_count]. *)
Theorem main_generated_counts (scan : world → list path → list recipe_entry)
    (args : Args) (w w1 : world) (direct_map : gmap pystr (list pystr))
    (edible_items : gset pystr) :
  dry_run args = false →
  path_exists (edibles args) w = (w, Ok true) →
  all_exist (inputs args) w = (w, Ok true) →
  scan_and_build scan args w = (w1, Ok direct_map) →
  load_edible_items (edibles args) w1 = (w1, Ok edible_items) →
  (main scan args w).2 = Ok 0%Z →
  ∃ foods n_outputs n_edible n_food,
    EvWriteJson (registry args ++ [py "generated"; py "foods.json"])
      (PDict [(py "food_count", PInt (Z.of_nat n_food));
              (py "food_outputs", PList (PStr <$> foods))])
      ∈ log (main scan args w).1 ∧
    EvWriteJson (registry args ++ [py "generated"; py "stats.json"])
      (PDict [(py "direct_map_output_count", PInt (Z.of_nat n_outputs));
              (py "edible_item_count", PInt (Z.of_nat n_edible));
              (py "edible_output_count", PInt (Z.of_nat n_food))])
      ∈ log (main scan args w).1 ∧
    n_food = length foods ∧ n_food ≤ n_outputs ∧ n_food ≤ n_edible ∧
    n_outputs = size (dom direct_map) ∧ n_edible = size edible_items ∧
    Sorted str_le foods ∧ NoDup foods ∧
    (∀ x, x ∈ foods ↔ is_Some (direct_map !! x) ∧ x ∈ edible_items).
Proof.
  intros Hdry He Ha Hb Hl H0. rewrite load_edible_items_eq in Hl.
  injection Hl as Hr.
  destruct (main_from_build scan args w w1 _ He Ha Hb) as [_ Hok].
  destruct (Hok _ Hr) as (_ & _ & Hlog & _). specialize (Hlog H0).
  unfold generated_effects in Hlog. rewrite Hdry in Hlog.
  set (both := dom direct_map ∩ edible_items) in *.
  exists (sorted (elements both)), (size (dom direct_map)),
    (size edible_items), (size both).
  split; [rewrite Hlog; set_solver|]. split; [rewrite Hlog; set_solver|].
  split; [by rewrite length_sorted|].
  split; [apply subseteq_size; set_solver|].
  split; [apply subseteq_size; set_solver|].
  split; [done|]. split; [done|].
  split; [apply sorted_Sorted|]. split; [apply sorted_NoDup, NoDup_elements|].
  intros x. rewrite elem_of_sorted, elem_of_elements. unfold both.
  by rewrite elem_of_intersection, elem_of_dom.
Qed.

Lemma main_generated_counts_witness :
  ∃ foods n_outputs n_edible n_food,
    EvWriteJson (registry example_args ++ [py "generated"; py "foods.json"])
      (PDict [(py "food_count", PInt (Z.of_nat n_food));
              (py "food_outputs", PList (PStr <$> foods))])
      ∈ log (main example_scan example_args
               (example_world
                  (PDict [(py "items",
                           PList [PStr (py "modA:bread");
                                  PStr (py "minecraft:apple")])]))).1 ∧
    EvWriteJson (registry example_args ++ [py "generated"; py "stats.json"])
      (PDict [(py "direct_map_output_count", PInt (Z.of_nat n_outputs));
              (py "edible_item_count", PInt (Z.of_nat n_edible));
              (py "edible_output_count", PInt (Z.of_nat n_food))])
      ∈ log (main example_scan example_args
               (example_world
                  (PDict [(py "items",
                           PList [PStr (py "modA:bread");
                                  PStr (py "minecraft:apple")])]))).1 ∧
    n_food = length foods ∧ n_food ≤ n_outputs ∧ n_food ≤ n_edible ∧
    n_outputs
    = size (dom ({[py "modA:bread" :=
                     [py "item:modA:wheat"; py "tag:modB:dough"]]}
                 : gmap pystr (list pystr))) ∧
    n_edible = size ({[py "modA:bread"; py "minecraft:apple"]} : gset pystr) ∧
    Sorted str_le foods ∧ NoDup foods ∧
    (∀ x, x ∈ foods ↔
          is_Some (({[py "modA:bread" :=
                        [py "item:modA:wheat"; py "tag:modB:dough"]]}
                    : gmap pystr (list pystr)) !! x)
          ∧ x ∈ ({[py "modA:bread"; py "minecraft:apple"]} : gset pystr)).
Proof.
  eapply main_generated_counts.
  - reflexivity.
  - reflexivity.
  - reflexivity.
  - vm_compute. reflexivity.
  - vm_compute. reflexivity.
  - vm_compute. reflexivity.
Defined.

Lemma edibles_result_error (w : world) (p : path) (e : pyexn) :
  edibles_result w p = Raise e →
  e ≠ TypeError ∧ e ≠ AttributeError ∧ ∀ k, e ≠ KeyError k.
Proof.
  unfold edibles_result. intros H.
  destruct (files w !! p) as [[obj|]|].
  - destruct obj; try (injection H as <-; by repeat split).
    destruct (dict_get d (py "items"));
      try (injection H as <-; by repeat split). discriminate.
  - injection H as <-. by repeat split.
  - injection H as <-. repeat case_match; by repeat split.
Qed.

(** X18.  A run returns status 2, having done nothing, exactly when the
    masterlist path or one of the input paths is missing.  Otherwise it
    returns status 0 or ends with an exception, and that exception is
    never a type, attribute or key error: no shape of a recipe document or
    of the masterlist makes the run look up what is not there. *)
Theorem main_outcomes (scan : world → list path → list recipe_entry)
    (args : Args) (w : world) :
  (path_exists (edibles args) w = (w, Ok false) ∨
   all_exist (inputs args) w = (w, Ok false) →
   main scan args w = (w, Ok 2%Z)) ∧
  (path_exists (edibles args) w = (w, Ok true) →
   all_exist (inputs args) w = (w, Ok true) →
   (main scan args w).2 = Ok 0%Z ∨
   ∃ e, (main scan args w).2 = Raise e ∧
        e ≠ TypeError ∧ e ≠ AttributeError ∧ ∀ k, e ≠ KeyError k).
Proof.
  split.
  - intros H.
    assert (∃ b, path_exists (edibles args) w = (w, Ok b)) as [b He]
      by (by eexists).
    destruct b; [|unfold main; by rewrite io_bind_eq, He].
    destruct H as [H|Ha]; [by rewrite He in H|].
    unfold main. rewrite io_bind_eq, He. cbn [negb].
    by rewrite io_bind_eq, Ha.
  - intros He Ha.
    destruct (scan_and_build scan args w) as [w1 [dm|e]] eqn:Hb.
    2:{ right. exists e. rewrite (main_build_fails _ _ _ _ _ He Ha Hb).
        split; [done|]. by apply scan_and_build_error in Hb. }
    destruct (main_from_build scan args w w1 dm He Ha Hb) as [Hraise Hok].
    destruct (edibles_result w1 (edibles args)) as [E|e] eqn:Hr.
    + by destruct (Hok E eq_refl) as (_ & _ & _ & H).
    + right. exists e. rewrite (Hraise e eq_refl). split; [done|].
      by apply (edibles_result_error w1 (edibles args)).
Qed.

Lemma main_outcomes_witness :
  main example_scan
    {| edibles := [py "edibles.json"];
       inputs := [[py "mods"]; [py "datapack"]];
       registry := [py "registry"]; direct_map_out := None;
       dry_run := false; verbose := false |}
    (example_world (PDict []))
  = (example_world (PDict []), Ok 2%Z) ∧
  ((main example_scan example_args (example_world (PDict []))).2 = Ok 0%Z ∨
   ∃ e, (main example_scan example_args (example_world (PDict []))).2
        = Raise e ∧
        e ≠ TypeError ∧ e ≠ AttributeError ∧ ∀ k, e ≠ KeyError k).
Proof.
  split.
  - apply main_outcomes. right. reflexivity.
  - apply main_outcomes; reflexivity.
Defined.

(* ------------------------------------------------------------------ *)
(** ** Writing a file *)
(* ------------------------------------------------------------------ *)

Lemma with_tmp_suffix_ne (p : path) : p ≠ [] → with_tmp_suffix p ≠ p.
Proof.
  intros Hp H. unfold with_tmp_suffix in H.
  destruct (reverse p) as [|name rest] eqn:Hr.
  { apply (f_equal reverse) in Hr. rewrite reverse_involutive in Hr. done. }
  apply (f_equal reverse) in H. rewrite reverse_involutive, Hr in H.
  injection H as H. apply (f_equal length) in H.
  rewrite length_app in H.
  change (length (py ".tmp")) with 4 in H. lia.
Qed.

(** X19.  [write_json] replaces the file in one step: either it returns,
    and then the path holds the object, the temporary file is gone and no
    other file has changed; or it raises, and then the file at the path,
    like every file but the temporary one, is what it was before. *)
Theorem write_json_atomic (p : path) (obj : pyval) (w : world) :
  ((write_json p obj w).2 = Ok tt ∧
   files (write_json p obj w).1 !! p = Some (FileJson obj) ∧
   files (write_json p obj w).1 !! with_tmp_suffix p = None ∧
   ∀ q, q ≠ p → q ≠ with_tmp_suffix p →
        files (write_json p obj w).1 !! q = files w !! q) ∨
  ((∃ e, (write_json p obj w).2 = Raise e) ∧
   files (write_json p obj w).1 !! p = files w !! p ∧
   ∀ q, q ≠ with_tmp_suffix p →
        files (write_json p obj w).1 !! q = files w !! q).
Proof.
  unfold write_json.
  destruct (make_dirs (parent p) w) as [ds|e]; [|right; by eauto].
  case_bool_decide as Hp; [right; by eauto|].
  pose proof (with_tmp_suffix_ne p Hp) as Hne.
  case_bool_decide; [right; by eauto|].
  destruct (has_surrogate obj).
  { right. cbn [fst snd files]. split; [by eauto|].
    split; [by rewrite lookup_insert_ne|].
    intros q Hq. by rewrite lookup_insert_ne. }
  case_bool_decide.
  { right. cbn [fst snd files]. split; [by eauto|].
    split; [by rewrite lookup_insert_ne|].
    intros q Hq. by rewrite lookup_insert_ne. }
  left. cbn [fst snd files]. split; [done|].
  split; [by rewrite lookup_insert_eq|]. split.
  - rewrite lookup_insert_ne by done. by rewrite lookup_delete_eq.
  - intros q Hq Hq'. rewrite lookup_insert_ne by done.
    by rewrite lookup_delete_ne.
Qed.
